(** * tdnn-asr: the audio preparation class of [data.py]

    A shallow embedding of [AudioPrep] (corpus indexing, batch retrieval,
    transcript decoding, feature extraction and scaling) together with the
    properties of its behaviour.

    Python values are modelled as follows: [str] as [string] (a character
    being a code point below 256), [int] as [Z], [list] as [list], [dict] as
    an insertion-ordered association list, arrays of [float64] as lists of
    binary64 numbers ([F64]).  The parameters of the constructor, which are
    stored and never computed with, are rationals.  The file system and the
    third-party libraries the class calls ([os], [soundfile], [pydub],
    [python_speech_features], [sklearn], [beep]) are the operations of a
    [Platform]; a method is a computation over the object, the file system
    and a trace of the conversions it has started. *)

From Stdlib Require Import String Ascii List ZArith QArith Bool Lia SpecFloat.
Import ListNotations.

Local Open Scope string_scope.
Local Open Scope Z_scope.

(** ** Python strings *)

Module Py.

(** [s.endswith(suffix)] *)
Definition endswith (s suffix : string) : bool :=
  let n := String.length s in
  let k := String.length suffix in
  (k <=? n)%nat && String.eqb (substring (n - k) k s) suffix.

(** [s.startswith(p)] *)
Definition startswith (s p : string) : bool := String.prefix p s.

(** [s.find(c)] for a single character [c]: the lowest index of [c] in [s],
    or [-1]. *)
Fixpoint find (s : string) (c : ascii) : Z :=
  match s with
  | EmptyString => -1
  | String a r =>
      if Ascii.eqb a c then 0
      else let i := find r c in if i <? 0 then -1 else i + 1
  end.

(** The position a slice bound denotes in a sequence of length [len]:
    negative bounds count from the end, and all bounds are clamped. *)
Definition slice_bound (len : nat) (i : Z) : nat :=
  if i <? 0 then Z.to_nat (Z.max 0 (Z.of_nat len + i))
  else Nat.min (Z.to_nat i) len.

(** [s[:i]] *)
Definition slice_to (s : string) (i : Z) : string :=
  substring 0 (slice_bound (String.length s) i) s.

(** [s[i:]] *)
Definition slice_from (s : string) (i : Z) : string :=
  let k := slice_bound (String.length s) i in
  substring k (String.length s - k) s.

(** [s.rstrip('\n')] *)
Fixpoint rstrip_newline (s : string) : string :=
  match s with
  | EmptyString => EmptyString
  | String a r =>
      match rstrip_newline r with
      | EmptyString => if Ascii.eqb a "010" then EmptyString else String a EmptyString
      | r' => String a r'
      end
  end.

(** [s.split('.')[0]]: the part of [s] before its first dot, all of [s] when
    it has none. *)
Fixpoint split_dot_head (s : string) : string :=
  match s with
  | EmptyString => EmptyString
  | String a r => if Ascii.eqb a "." then EmptyString else String a (split_dot_head r)
  end.

(** The characters [str.split()] separates on, those [str.isspace] holds
    for: tab, line feed, vertical tab, form feed, carriage return (9 to
    13), the four separators 0x1c to 0x1f, space (32), next line (0x85) and
    no-break space (0xa0).  A character of a [string] is a code point below
    256, and these are all the white space Python has there. *)
Definition isspace (a : ascii) : bool :=
  let n := nat_of_ascii a in
  ((9 <=? n) && (n <=? 13) || (28 <=? n) && (n <=? 32)
   || (n =? 133) || (n =? 160))%nat.

(** [s.split()]: the maximal runs of non-space characters, in order.
    [cur] is the word being read. *)
Fixpoint split_from (cur : string) (s : string) : list string :=
  match s with
  | EmptyString => match cur with EmptyString => [] | _ => [cur] end
  | String a r =>
      if isspace a
      then match cur with
           | EmptyString => split_from EmptyString r
           | _ => cur :: split_from EmptyString r
           end
      else split_from (cur ++ String a EmptyString) r
  end.

Definition split (s : string) : list string := split_from EmptyString s.

(** [os.path.join(a, b)] of [posixpath]. *)
Definition path_join (a b : string) : string :=
  if startswith b "/" then b
  else if String.eqb a "" || endswith a "/" then a ++ b
  else a ++ "/" ++ b.

(** [l[i]] on a list, [None] where Python raises [IndexError]. *)
Definition list_get {A} (l : list A) (i : Z) : option A :=
  let n := Z.of_nat (List.length l) in
  if i <? 0 then (if n + i <? 0 then None else nth_error l (Z.to_nat (n + i)))
  else nth_error l (Z.to_nat i).

(** [l[:-1]] *)
Definition drop_last {A} (l : list A) : list A := removelast l.

End Py.

(** ** Python dictionaries

    A [dict] keeps its keys in insertion order; assigning to a key that is
    present replaces its value where it stands. *)

Section Dict.
Context {V : Type}.

Definition dict := list (string * V).

Fixpoint dict_get (d : dict) (k : string) : option V :=
  match d with
  | [] => None
  | (k', v) :: r => if String.eqb k' k then Some v else dict_get r k
  end.

(** [d[k] = v] *)
Fixpoint dict_set (d : dict) (k : string) (v : V) : dict :=
  match d with
  | [] => [(k, v)]
  | (k', v') :: r =>
      if String.eqb k' k then (k, v) :: r else (k', v') :: dict_set r k v
  end.

(** [d.keys()] *)
Definition dict_keys (d : dict) : list string := map fst d.

(** [k in d.keys()] *)
Definition dict_mem (d : dict) (k : string) : bool :=
  match dict_get d k with Some _ => true | None => false end.

End Dict.

Arguments dict : clear implicits.

(** ** Exceptions

    The built-in exceptions the class can raise, and [Other] for an
    exception of any other class, by the name of the class. *)

Inductive exn : Type :=
| IndexError
| KeyError
| TypeError
| ValueError
| FileNotFoundError
| NotADirectoryError
| IsADirectoryError
| Other (class_name : string).

(** ** Floating-point numbers

    The elements of a [numpy] array of [float64], with the arithmetic of
    IEEE 754 binary64 rounded to the nearest, ties to even, as the standard
    library specifies it.  Two numbers are the same term when their bits
    are the same (there is one not-a-number). *)

Module F64.

Definition t : Type := spec_float.

Definition prec : Z := 53.
Definition emax : Z := 1024.

Definition add : t -> t -> t := SFadd prec emax.
Definition sub : t -> t -> t := SFsub prec emax.
Definition mul : t -> t -> t := SFmul prec emax.
Definition div : t -> t -> t := SFdiv prec emax.

(** [x < y], [x <= y] and [x == y]: false when either is not a number. *)
Definition ltb : t -> t -> bool := SFltb.
Definition leb : t -> t -> bool := SFleb.
Definition eqb : t -> t -> bool := SFeqb.

(** The conversion of an [int], rounded when the [int] has more than 53
    bits (one beyond the range of the numbers, which Python refuses to
    convert, is not met in this file). *)
Definition of_int (n : Z) : t := binary_normalize prec emax n 0 false.

Definition is_nan (x : t) : bool :=
  match x with S754_nan => true | _ => false end.

Definition is_inf (x : t) : bool :=
  match x with S754_infinity _ => true | _ => false end.

(** [numpy.finfo(numpy.float64).eps], two to the power [-52]. *)
Definition eps : t := S754_finite false 4503599627370496 (-104).

End F64.

(** ** Data *)

Definition phoneme := string.

(** A numeric array of two dimensions, one inner list per frame. *)
Definition matrix := list (list F64.t).

(** The constants of the module. *)
Definition PRE_EMPHASIS : Q := 97 # 100.
Definition FRAME_SIZE : Q := 25 # 1000.
Definition FRAME_STRIDE : Q := 1 # 100.
Definition nfft : Z := 512.
Definition NFILT : Z := 40.
Definition NUM_CEPS : Z := 12.
Definition CEP_LIFTER : Z := 22.
Definition AUDIO_ORIGIN_FORMAT : string := "flac".
Definition AUDIO_TARGET_FORMAT : string := "wav".

(** The attributes of an [AudioPrep] object. *)
Record AudioPrep : Type := mkAudioPrep {
  _path : string;
  _pre_emphasis : Q;
  _frame_size : Q;
  _frame_stride : Q;
  _NFFT : Z;
  _nfilt : Z;
  _num_ceps : Z;
  _cep_lifter : Z;
  _origin_format : option string;
  _target_format : option string;
  _dict_path : option string;
  _phonemes_path : option string;
  _phon_dict : dict (list phoneme);
  _files : dict (list string);
  _index : Z;
  _author_indexes : list string;
  _batch_count : Z
}.

Definition set_index (i : Z) (s : AudioPrep) : AudioPrep :=
  mkAudioPrep (_path s) (_pre_emphasis s) (_frame_size s) (_frame_stride s)
    (_NFFT s) (_nfilt s) (_num_ceps s) (_cep_lifter s)
    (_origin_format s) (_target_format s) (_dict_path s) (_phonemes_path s)
    (_phon_dict s) (_files s) i (_author_indexes s) (_batch_count s).

Definition set_origin_format (f : option string) (s : AudioPrep) : AudioPrep :=
  mkAudioPrep (_path s) (_pre_emphasis s) (_frame_size s) (_frame_stride s)
    (_NFFT s) (_nfilt s) (_num_ceps s) (_cep_lifter s)
    f (_target_format s) (_dict_path s) (_phonemes_path s)
    (_phon_dict s) (_files s) (_index s) (_author_indexes s) (_batch_count s).

Definition set_target_format (f : option string) (s : AudioPrep) : AudioPrep :=
  mkAudioPrep (_path s) (_pre_emphasis s) (_frame_size s) (_frame_stride s)
    (_NFFT s) (_nfilt s) (_num_ceps s) (_cep_lifter s)
    (_origin_format s) f (_dict_path s) (_phonemes_path s)
    (_phon_dict s) (_files s) (_index s) (_author_indexes s) (_batch_count s).

(** ** The platform

    What the class asks of the operating system and of the libraries it
    imports.  [FS] is the state of the file system, [waveform] the array
    [soundfile] reads from an audio file. *)

Class Platform (FS waveform : Type) : Type := {
  (** [os.listdir(path)] *)
  listdir : FS -> string -> exn + list string;
  (** [os.path.isdir(path)] *)
  isdir : FS -> string -> bool;
  (** the lines [open(path)] iterates over, each with its line end *)
  open_lines : FS -> string -> exn + list string;
  (** [soundfile.read(path)] *)
  sf_read : FS -> string -> exn + (waveform * Z);
  (** [AudioSegment.from_file(src, origin).export(dst, format = target)] *)
  export_audio : string -> string -> string -> string -> FS -> (exn + unit) * FS;
  (** [beep.get_phoneme_dict(path = ..., phonemes_index = ...)], [None]
      standing for an argument that is left out *)
  get_phoneme_dict : FS -> option string -> option string -> exn + dict (list phoneme);
  (** [python_speech_features.mfcc(signal, samplerate)], every other
      argument of the library left at the library's default *)
  mfcc : waveform -> Z -> exn + matrix;
  (** [sklearn.preprocessing.minmax_scale(X, feature_range = ..., axis = 1)] *)
  minmax_scale : matrix -> Z * Z -> exn + matrix
}.

(** ** Computations

    A method runs in a [world]: the object, the file system, and the trace
    of the chapter directories on which a conversion was started.  An
    exception ends the computation and leaves the world as it was when the
    exception was raised. *)

Inductive event : Type :=
| Convert (path : string).

Record world (FS : Type) : Type := mkWorld {
  self : AudioPrep;
  fs : FS;
  trace : list event
}.

Arguments mkWorld {FS}.
Arguments self {FS}.
Arguments fs {FS}.
Arguments trace {FS}.

Definition M (FS A : Type) : Type := world FS -> (exn + A) * world FS.

Definition ret {FS A} (a : A) : M FS A := fun w => (inr a, w).

Definition bind {FS A B} (m : M FS A) (f : A -> M FS B) : M FS B :=
  fun w =>
    match m w with
    | (inl e, w') => (inl e, w')
    | (inr a, w') => f a w'
    end.

Definition raise {FS A} (e : exn) : M FS A := fun w => (inl e, w).

(** An operation that may raise and touches nothing. *)
Definition lift {FS A} (r : exn + A) : M FS A := fun w => (r, w).

(** An operation that reads the file system. *)
Definition read {FS A} (f : FS -> exn + A) : M FS A := fun w => (f (fs w), w).

(** An operation that changes the file system. *)
Definition update {FS A} (f : FS -> (exn + A) * FS) : M FS A :=
  fun w => let '(r, fs') := f (fs w) in (r, mkWorld (self w) fs' (trace w)).

Definition get_self {FS} : M FS AudioPrep := fun w => (inr (self w), w).

Definition modify_self {FS} (f : AudioPrep -> AudioPrep) : M FS unit :=
  fun w => (inr tt, mkWorld (f (self w)) (fs w) (trace w)).

Definition log {FS} (e : event) : M FS unit :=
  fun w => (inr tt, mkWorld (self w) (fs w) (trace w ++ [e])).

Declare Scope py_scope.
Delimit Scope py_scope with py.

Notation "x <- c1 ;; c2" := (bind c1 (fun x => c2))
  (at level 61, c1 at next level, right associativity) : py_scope.
Notation "' pat <- c1 ;; c2" := (bind c1 (fun x => match x with pat => c2 end))
  (at level 61, pat pattern, c1 at next level, right associativity) : py_scope.
Notation "c1 ;; c2" := (bind c1 (fun _ => c2))
  (at level 61, right associativity) : py_scope.

Local Open Scope py_scope.

(** [for x in l: acc = body(acc, x)] *)
Fixpoint foldM {FS A B} (body : B -> A -> M FS B) (l : list A) (acc : B) : M FS B :=
  match l with
  | [] => ret acc
  | x :: r => acc' <- body acc x ;; foldM body r acc'
  end.

(** [for x in l: body(x)] *)
Definition forM {FS A} (body : A -> M FS unit) (l : list A) : M FS unit :=
  foldM (fun _ x => body x) l tt.

(** The same loops where nothing but an exception can happen. *)
Fixpoint fold_exn {A B} (body : B -> A -> exn + B) (l : list A) (acc : B) : exn + B :=
  match l with
  | [] => inr acc
  | x :: r =>
      match body acc x with
      | inl e => inl e
      | inr acc' => fold_exn body r acc'
      end
  end.

Fixpoint map_exn {A B} (f : A -> exn + B) (l : list A) : exn + list B :=
  match l with
  | [] => inr []
  | x :: r =>
      match f x with
      | inl e => inl e
      | inr y =>
          match map_exn f r with
          | inl e => inl e
          | inr ys => inr (y :: ys)
          end
      end
  end.

(** [l[i]], raising [IndexError] *)
Definition index_or_raise {A} (l : list A) (i : Z) : exn + A :=
  match Py.list_get l i with
  | Some x => inr x
  | None => inl IndexError
  end.

(** [d[k]], raising [KeyError] *)
Definition lookup_or_raise {V} (d : dict V) (k : string) : exn + V :=
  match dict_get d k with
  | Some v => inr v
  | None => inl KeyError
  end.

(** A format used as a string: [TypeError] when it is [None]. *)
Definition expect_str (s : option string) : exn + string :=
  match s with
  | Some f => inr f
  | None => inl TypeError
  end.

Definition set_files (f : dict (list string)) (s : AudioPrep) : AudioPrep :=
  mkAudioPrep (_path s) (_pre_emphasis s) (_frame_size s) (_frame_stride s)
    (_NFFT s) (_nfilt s) (_num_ceps s) (_cep_lifter s)
    (_origin_format s) (_target_format s) (_dict_path s) (_phonemes_path s)
    (_phon_dict s) f (_index s) (_author_indexes s) (_batch_count s).

Definition set_author_indexes (l : list string) (s : AudioPrep) : AudioPrep :=
  mkAudioPrep (_path s) (_pre_emphasis s) (_frame_size s) (_frame_stride s)
    (_NFFT s) (_nfilt s) (_num_ceps s) (_cep_lifter s)
    (_origin_format s) (_target_format s) (_dict_path s) (_phonemes_path s)
    (_phon_dict s) (_files s) (_index s) l (_batch_count s).

Definition set_batch_count (n : Z) (s : AudioPrep) : AudioPrep :=
  mkAudioPrep (_path s) (_pre_emphasis s) (_frame_size s) (_frame_stride s)
    (_NFFT s) (_nfilt s) (_num_ceps s) (_cep_lifter s)
    (_origin_format s) (_target_format s) (_dict_path s) (_phonemes_path s)
    (_phon_dict s) (_files s) (_index s) (_author_indexes s) n.

Definition set_num_ceps (n : Z) (s : AudioPrep) : AudioPrep :=
  mkAudioPrep (_path s) (_pre_emphasis s) (_frame_size s) (_frame_stride s)
    (_NFFT s) (_nfilt s) n (_cep_lifter s)
    (_origin_format s) (_target_format s) (_dict_path s) (_phonemes_path s)
    (_phon_dict s) (_files s) (_index s) (_author_indexes s) (_batch_count s).

(** [x if x is not None else d] *)
Definition or_else {A} (x : option A) (d : A) : A :=
  match x with Some v => v | None => d end.

(** [d[k].append(x)] *)
Definition dict_append {V} (d : dict (list V)) (k : string) (x : V) : exn + dict (list V) :=
  match dict_get d k with
  | Some l => inr (dict_set d k (l ++ [x])%list)
  | None => inl KeyError
  end.

(** ** The class *)

Section AudioPrep.

Context {FS waveform : Type} {P : Platform FS waveform}.

(** *** [_get_files] *)

(** [[d for d in listdir(p) if os.path.isdir(os.path.join(p, d))]] *)
Definition subfolders (p : string) : M FS (list string) :=
  read (fun fs =>
    match listdir fs p with
    | inl e => inl e
    | inr names => inr (filter (fun d => isdir fs (Py.path_join p d)) names)
    end).

Definition _get_files : M FS unit :=
  modify_self (set_files []) ;;
  s <- get_self ;;
  author_folders <- subfolders (_path s) ;;
  forM (fun author =>
    modify_self (fun s => set_files (dict_set (_files s) author []) s) ;;
    s <- get_self ;;
    let author_path := Py.path_join (_path s) author in
    audio_folders <- subfolders author_path ;;
    forM (fun audio =>
      s <- get_self ;;
      files <- lift (dict_append (_files s) author audio) ;;
      modify_self (set_files files)) audio_folders) author_folders ;;
  modify_self (set_index (-1)) ;;
  modify_self (fun s => set_author_indexes (dict_keys (_files s)) s).

(** *** [__init__]

    The constructor returns the world of the new object, or the exception
    that ended the construction. *)

Definition __init__ (path : string)
  (pre_emphasis frame_size frame_stride : option Q)
  (NFFT nfilt num_ceps cep_lifter : option Z)
  (dict_path phonemes_path : option string) (fs0 : FS) : exn + world FS :=
  let loaded :=
    match dict_path with
    | None =>
        match phonemes_path with
        | None => get_phoneme_dict fs0 None None
        | Some _ => get_phoneme_dict fs0 None phonemes_path
        end
    | Some _ =>
        match phonemes_path with
        | Some _ => get_phoneme_dict fs0 dict_path phonemes_path
        | None => get_phoneme_dict fs0 dict_path None
        end
    end in
  match loaded with
  | inl e => inl e
  | inr phon_dict =>
      let s := mkAudioPrep path
        (or_else pre_emphasis PRE_EMPHASIS)
        (or_else frame_size FRAME_SIZE)
        (or_else frame_stride FRAME_STRIDE)
        (or_else NFFT nfft)
        (or_else nfilt NFILT)
        (or_else num_ceps NUM_CEPS)
        (or_else cep_lifter CEP_LIFTER)
        None None dict_path phonemes_path phon_dict [] 0 [] 0 in
      match _get_files (mkWorld s fs0 []) with
      | (inl e, _) => inl e
      | (inr _, w) =>
          inr (mkWorld
                 (set_batch_count (Z.of_nat (List.length (_files (self w)))) (self w))
                 (fs w) (trace w))
      end
  end.

(** *** [_get_mfcc] *)

Fixpoint _get_mfcc (s : AudioPrep) (audios : dict (waveform * Z))
  : exn + (list string * list matrix) :=
  match audios with
  | [] => inr ([], [])
  | (key, value) :: rest =>
      let audio := fst value in
      let samplerate := snd value in
      match mfcc audio samplerate with
      | inl e => inl e
      | inr audio_mfcc =>
          match _get_mfcc s rest with
          | inl e => inl e
          | inr (keys, mfccs) => inr (key :: keys, audio_mfcc :: mfccs)
          end
      end
  end.

(** *** [_scale_data] *)

(** [for i in range(len(keys)): scaled_mfcc[keys[i]] = audios[i]] *)
Fixpoint pair_keys (keys : list string) (audios : list matrix)
  (scaled_mfcc : dict matrix) : exn + dict matrix :=
  match keys with
  | [] => inr scaled_mfcc
  | key :: keys' =>
      match audios with
      | [] => inl IndexError
      | a :: audios' => pair_keys keys' audios' (dict_set scaled_mfcc key a)
      end
  end.

Definition _scale_data (s : AudioPrep) (keys : list string) (mfccs : list matrix)
  : exn + dict matrix :=
  match map_exn (fun m => minmax_scale m (-1, 1)) mfccs with
  | inl e => inl e
  | inr audios => pair_keys keys audios []
  end.

(** *** [_convert_audios] *)

(** The files in the origin format, exported one by one. *)
Definition convert_files (path : string) : M FS unit :=
  s <- get_self ;;
  names <- read (fun fs => listdir fs path) ;;
  origin <- lift (expect_str (_origin_format s)) ;;
  let audio_parts := filter (fun d => Py.endswith d ("." ++ origin)) names in
  forM (fun audio_part =>
    s <- get_self ;;
    origin <- lift (expect_str (_origin_format s)) ;;
    target <- lift (expect_str (_target_format s)) ;;
    let src := Py.path_join path audio_part in
    update (export_audio src origin (Py.split_dot_head src ++ "." ++ target) target))
    audio_parts.

(** [if self._origin_format is None: self._origin_format = d] *)
Definition default_origin_format (d : string) : M FS unit :=
  s <- get_self ;;
  match _origin_format s with
  | None => modify_self (set_origin_format (Some d))
  | Some _ => ret tt
  end.

(** [if self._target_format is None: self._target_format = d] *)
Definition default_target_format (d : string) : M FS unit :=
  s <- get_self ;;
  match _target_format s with
  | None => modify_self (set_target_format (Some d))
  | Some _ => ret tt
  end.

Definition _convert_audios (path : string) : M FS unit :=
  log (Convert path) ;;
  default_origin_format AUDIO_ORIGIN_FORMAT ;;
  default_target_format AUDIO_TARGET_FORMAT ;;
  convert_files path.

(** *** [_get_phoneme_transcription] *)

(** The loop over the words of one transcript: the phonemes read so far,
    and whether every word was in the dictionary. *)
Fixpoint phrase_of (phon_dict : dict (list phoneme)) (words : list string)
  (phrase : list phoneme) : list phoneme * bool :=
  match words with
  | [] => (phrase, true)
  | word :: rest =>
      match dict_get phon_dict word with
      | Some ph => phrase_of phon_dict rest (phrase ++ ph)%list
      | None => (phrase, false)
      end
  end.

Definition _get_phoneme_transcription (s : AudioPrep) (transcriptions : dict string)
  : dict (list phoneme) :=
  fold_left (fun phoneme_transcripts kv =>
    let key := fst kv in
    let transcript := snd kv in
    let words := Py.split transcript in
    let '(phrase, valid) := phrase_of (_phon_dict s) words [] in
    if valid then dict_set phoneme_transcripts key (Py.drop_last phrase)
    else phoneme_transcripts) transcriptions [].

(** *** [get_data] *)

(** The transcript of a chapter directory, added to [transcripts]. *)
Definition read_transcripts (curr_path : string) (transcripts : dict string)
  : M FS (dict string) :=
  names <- read (fun fs => listdir fs curr_path) ;;
  transcript_file <-
    lift (index_or_raise (filter (fun file => Py.endswith file ".txt") names) 0) ;;
  lines <- read (fun fs => open_lines fs (Py.path_join curr_path transcript_file)) ;;
  let transcript_lines := map Py.rstrip_newline lines in
  ret (fold_left (fun t line =>
         let split := Py.find line " " in
         dict_set t (Py.slice_to line split) (Py.slice_from line split))
       transcript_lines transcripts).

(** [[d for d in listdir(curr_path) if d.endswith('.' + format)]] *)
Definition audio_parts_of (curr_path format : string) : M FS (list string) :=
  names <- read (fun fs => listdir fs curr_path) ;;
  ret (filter (fun d => Py.endswith d ("." ++ format)) names).

(** The audios of a chapter directory, added to [audios]; they are
    converted first when the directory has none in [format]. *)
Definition read_audios (curr_path format : string) (audios : dict (waveform * Z))
  : M FS (dict (waveform * Z)) :=
  audio_parts <- audio_parts_of curr_path format ;;
  audio_parts <-
    (match audio_parts with
     | [] =>
         default_target_format format ;;
         _convert_audios curr_path ;;
         audio_parts_of curr_path format
     | _ => ret audio_parts
     end) ;;
  foldM (fun audios audio_part =>
    r <- read (fun fs => sf_read fs (Py.path_join curr_path audio_part)) ;;
    ret (dict_set audios (Py.split_dot_head audio_part) r)) audio_parts audios.

(** The body of the loop over the chapters of the author. *)
Definition chapter (format author_path : string)
  (acc : dict string * dict (waveform * Z)) (audio : string)
  : M FS (dict string * dict (waveform * Z)) :=
  let curr_path := Py.path_join author_path audio in
  transcripts <- read_transcripts curr_path (fst acc) ;;
  audios <- read_audios curr_path format (snd acc) ;;
  ret (transcripts, audios).

(** The result of a batch: phonemes and scaled features by key. *)
Definition batch := dict (list phoneme * matrix).

(** The end of [get_data]: features, scaling, phonemes and their pairing. *)
Definition pair_up (s : AudioPrep) (transcripts : dict string)
  (audios : dict (waveform * Z)) : exn + batch :=
  match _get_mfcc s audios with
  | inl e => inl e
  | inr (keys, mfcc) =>
      match _scale_data s keys mfcc with
      | inl e => inl e
      | inr scaled_mfcc =>
          let phon_transcripts := _get_phoneme_transcription s transcripts in
          fold_exn (fun result kv =>
            match lookup_or_raise scaled_mfcc (fst kv) with
            | inl e => inl e
            | inr m => inr (dict_set result (fst kv) (snd kv, m))
            end) phon_transcripts []
      end
  end.

(** The body of [get_data] between the advance of the index and its
    reset: what the call does for the author it has reached. *)
Definition serve_author (format author : string) : M FS batch :=
  s <- get_self ;;
  let author_path := Py.path_join (_path s) author in
  chapters <- lift (lookup_or_raise (_files s) author) ;;
  acc <- foldM (chapter format author_path) chapters ([], []) ;;
  s <- get_self ;;
  lift (pair_up s (fst acc) (snd acc)).

Definition serve (format : string) : M FS batch :=
  s <- get_self ;;
  author <- lift (index_or_raise (_author_indexes s) (_index s)) ;;
  serve_author format author.

Definition get_data (format : string) : M FS batch :=
  modify_self (fun s => set_index (_index s + 1) s) ;;
  result <- serve format ;;
  s <- get_self ;;
  (if _index s >=? _batch_count s - 1
   then modify_self (set_index (-1))
   else ret tt) ;;
  ret result.

(** *** [convert_audios] *)

Definition convert_audios (origin_format target_format : option string) : M FS unit :=
  modify_self (set_origin_format (Some (or_else origin_format AUDIO_ORIGIN_FORMAT))) ;;
  modify_self (set_target_format (Some (or_else target_format AUDIO_TARGET_FORMAT))).

(** *** [batch_count] *)

Definition batch_count (s : AudioPrep) : Z := _batch_count s.

(** *** Consecutive calls *)

(** The outcomes of [n] calls of [get_data] in a row, and the world after
    the last of them. *)
Fixpoint get_data_times (format : string) (n : nat) (w : world FS)
  : list (exn + batch) * world FS :=
  match n with
  | O => ([], w)
  | S k =>
      let '(r, w1) := get_data format w in
      let '(rs, w2) := get_data_times format k w1 in
      (r :: rs, w2)
  end.

(** Whether an outcome is a result rather than an exception. *)
Definition returned {A} (r : exn + A) : bool :=
  match r with inr _ => true | inl _ => false end.

(** The attributes of the object that [get_data] never assigns: all but the
    index and the two formats. *)
Definition corpus_of (s : AudioPrep) : AudioPrep :=
  set_index 0 (set_origin_format None (set_target_format None s)).

End AudioPrep.

(** ** Notions the properties are stated with *)

(** A computation keeps a relation between the world it starts in and the
    world it leaves, whatever its outcome. *)
Definition keeps {FS A} (R : world FS -> world FS -> Prop) (m : M FS A) : Prop :=
  forall w, R w (snd (m w)).

(** The index and the corpus attributes are the same in both worlds. *)
Definition same_cursor {FS} (w w' : world FS) : Prop :=
  _index (self w') = _index (self w) /\ corpus_of (self w') = corpus_of (self w).

(** The world in which [get_data] serves: the one it is called in, with the
    index advanced. *)
Definition advanced {FS} (w : world FS) : world FS :=
  mkWorld (set_index (_index (self w) + 1) (self w)) (fs w) (trace w).

(** Two computations, started in [w] and in [v], have the same outcome and
    leave worlds related by [S]; and they do so from any two worlds that
    [S] relates. *)
Definition agree_at {FS A} (S : world FS -> world FS -> Prop)
  (m m' : M FS A) (w v : world FS) : Prop :=
  fst (m w) = fst (m' v) /\ S (snd (m w)) (snd (m' v)).

Definition agree {FS A} (S : world FS -> world FS -> Prop) (m m' : M FS A) : Prop :=
  forall w v, S w v -> agree_at S m m' w v.

(** Worlds with the same file system and the same object. *)
Definition twin {FS} (w v : world FS) : Prop :=
  fs w = fs v /\ self w = self v.

(** Worlds with the same file system, the same index and corpus attributes,
    and formats that come to the same once the defaults of a call with
    [format] are filled in. *)
Definition alike {FS} (format : string) (w v : world FS) : Prop :=
  fs w = fs v /\
  _index (self w) = _index (self v) /\
  corpus_of (self w) = corpus_of (self v) /\
  or_else (_target_format (self w)) format = or_else (_target_format (self v)) format /\
  or_else (_origin_format (self w)) AUDIO_ORIGIN_FORMAT =
  or_else (_origin_format (self v)) AUDIO_ORIGIN_FORMAT.

(** The world in which the files of [path] are exported when [get_data]
    finds no audio in [format]: both formats are set, and the conversion
    is on the trace. *)
Definition converting {FS} (path format : string) (w : world FS) : world FS :=
  mkWorld
    (set_target_format (Some (or_else (_target_format (self w)) format))
       (set_origin_format
          (Some (or_else (_origin_format (self w)) AUDIO_ORIGIN_FORMAT)) (self w)))
    (fs w) (trace w ++ [Convert path]).

(** The export of the files and the listings change neither the object nor
    the trace. *)
Definition same_object {FS} (w w' : world FS) : Prop :=
  self w' = self w /\ trace w' = trace w.

(** Whether a directory lists a file in [format]. *)
Definition has_format {FS waveform} {P : Platform FS waveform}
  (format : string) (f : FS) (path : string) : bool :=
  match listdir f path with
  | inr names =>
      match filter (fun d => Py.endswith d ("." ++ format)) names with
      | [] => false
      | _ => true
      end
  | inl _ => false
  end.

(** The formats of [w'] come to the same as those of [w] once the defaults
    of a call with [format] are filled in. *)
Definition formats_kept {FS} (format : string) (w w' : world FS) : Prop :=
  or_else (_target_format (self w')) format = or_else (_target_format (self w)) format /\
  or_else (_origin_format (self w')) AUDIO_ORIGIN_FORMAT =
  or_else (_origin_format (self w)) AUDIO_ORIGIN_FORMAT.

(** The index a call that returns leaves, from the index [i] it found. *)
Definition next_index (batch_count i : Z) : Z :=
  if i + 1 >=? batch_count - 1 then -1 else i + 1.

(** A string without any of the characters [str.split()] separates on. *)
Fixpoint no_space (s : string) : bool :=
  match s with
  | EmptyString => true
  | String a r => negb (Py.isspace a) && no_space r
  end.

(** The phonemes of a word, none for a word the dictionary lacks. *)
Definition phonemes_of (phon_dict : dict (list phoneme)) (word : string) : list phoneme :=
  or_else (dict_get phon_dict word) [].

(** What the decoder makes of one transcript: the phonemes of its words in
    order without the last one, or nothing when a word is unknown. *)
Definition decode (phon_dict : dict (list phoneme)) (text : string)
  : option (list phoneme) :=
  let words := Py.split text in
  if forallb (dict_mem phon_dict) words
  then Some (removelast (concat (map (phonemes_of phon_dict) words)))
  else None.

(** The entry of [key] in the join of the two maps. *)
Definition joined (phon_transcripts : dict (list phoneme)) (scaled_mfcc : dict matrix)
  (key : string) : option (list phoneme * matrix) :=
  match dict_get phon_transcripts key with
  | Some transcript =>
      match dict_get scaled_mfcc key with
      | Some m => Some (transcript, m)
      | None => None
      end
  | None => None
  end.

(** The transcripts and audios a call gathers for its author, when it gets
    that far. *)
Definition gathered {FS waveform} {P : Platform FS waveform}
  (format : string) (w : world FS)
  : option ((dict string * dict (waveform * Z)) * world FS) :=
  match Py.list_get (_author_indexes (self w)) (_index (self w) + 1) with
  | None => None
  | Some author =>
      match dict_get (_files (self w)) author with
      | None => None
      | Some chapters =>
          match foldM (chapter format (Py.path_join (_path (self w)) author)) chapters
                  ([], []) (advanced w) with
          | (inl _, _) => None
          | (inr acc, w1) => Some (acc, w1)
          end
      end
  end.

(** ** The scaler of scikit-learn

    [_scale_data] hands every feature matrix to
    [sklearn.preprocessing.minmax_scale] with [axis = 1].  The function is
    scikit-learn's, not this repository's; it is written here as the library
    (version 1.0 and later) computes it on an array of [float64]:
    [check_array], then [MinMaxScaler.partial_fit] and
    [MinMaxScaler.transform] on the transposed array, every operation
    rounded as [numpy] rounds it. *)

Module Sklearn.

(** [numpy.fmin] and [numpy.fmax], as they fold an array: the first
    argument is kept unless the second is a number and beyond it. *)
Definition fmin (a b : F64.t) : F64.t :=
  if F64.leb a b || F64.is_nan b then a else b.

Definition fmax (a b : F64.t) : F64.t :=
  if F64.leb b a || F64.is_nan b then a else b.

(** [numpy.nanmin] and [numpy.nanmax] of the values of one frame. *)
Definition data_min (row : list F64.t) : F64.t :=
  match row with
  | [] => S754_nan
  | x :: r => fold_left fmin r x
  end.

Definition data_max (row : list F64.t) : F64.t :=
  match row with
  | [] => S754_nan
  | x :: r => fold_left fmax r x
  end.

(** [10 * numpy.finfo(scale.dtype).eps] *)
Definition ten_eps : F64.t := F64.mul (F64.of_int 10) F64.eps.

(** [_handle_zeros_in_scale]: a range below [10 * eps] is replaced by
    one. *)
Definition handle_zeros_in_scale (scale : F64.t) : F64.t :=
  if F64.ltb scale ten_eps then F64.of_int 1 else scale.

(** The fitted [scale_] and [min_] of one frame. *)
Definition scale_ (feature_range : Z * Z) (row : list F64.t) : F64.t :=
  let data_range := F64.sub (data_max row) (data_min row) in
  F64.div (F64.of_int (snd feature_range - fst feature_range))
    (handle_zeros_in_scale data_range).

Definition min_ (feature_range : Z * Z) (row : list F64.t) : F64.t :=
  F64.sub (F64.of_int (fst feature_range))
    (F64.mul (data_min row) (scale_ feature_range row)).

(** [transform]: [X *= scale_; X += min_]. *)
Definition scale_row (feature_range : Z * Z) (row : list F64.t) : list F64.t :=
  map (fun x => F64.add (F64.mul x (scale_ feature_range row)) (min_ feature_range row))
    row.

Definition is_nil {A} (l : list A) : bool :=
  match l with [] => true | _ => false end.

(** [minmax_scale(X, feature_range, axis = 1)].  [check_array] refuses an
    array with no frame or no coefficient and one that holds an infinity
    (a not-a-number is let through); the scaler refuses a range whose
    minimum is not below its maximum. *)
Definition minmax_scale (X : matrix) (feature_range : Z * Z) : exn + matrix :=
  if is_nil X || existsb is_nil X || existsb (existsb F64.is_inf) X
     || (snd feature_range <=? fst feature_range)
  then inl ValueError
  else inr (map (scale_row feature_range) X).

End Sklearn.

(** ** A platform to run the class on

    A file system as a table from paths to folders, text files and audio
    files, and stand-ins for the libraries: the waveform of an audio file is
    its list of samples, the feature extractor gives thirteen coefficients
    for every sample, the scaler is scikit-learn's, and the dictionary is a
    fixed one. *)

Module Demo.

Inductive node : Type :=
| Folder (names : list string)
| Text (lines : list string)
| Audio (samples : list Z) (rate : Z).

Definition FS := dict node.

Definition waveform := list Z.

Definition demo_listdir (fs : FS) (p : string) : exn + list string :=
  match dict_get fs p with
  | Some (Folder names) => inr names
  | Some _ => inl NotADirectoryError
  | None => inl FileNotFoundError
  end.

Definition demo_isdir (fs : FS) (p : string) : bool :=
  match dict_get fs p with
  | Some (Folder _) => true
  | _ => false
  end.

Definition demo_open_lines (fs : FS) (p : string) : exn + list string :=
  match dict_get fs p with
  | Some (Text lines) => inr lines
  | Some (Folder _) => inl IsADirectoryError
  | Some (Audio _ _) => inl ValueError
  | None => inl FileNotFoundError
  end.

Definition demo_sf_read (fs : FS) (p : string) : exn + (waveform * Z) :=
  match dict_get fs p with
  | Some (Audio samples rate) => inr (samples, rate)
  | Some _ => inl (Other "LibsndfileError")
  | None => inl (Other "LibsndfileError")
  end.

Fixpoint has_slash (p : string) : bool :=
  match p with
  | EmptyString => false
  | String a r => Ascii.eqb a "/" || has_slash r
  end.

(** The part of a path before its last slash, and the part after it. *)
Fixpoint dirname (p : string) : string :=
  match p with
  | EmptyString => EmptyString
  | String a r => if has_slash r then String a (dirname r) else EmptyString
  end.

Fixpoint basename (p : string) : string :=
  match p with
  | EmptyString => EmptyString
  | String a r =>
      if has_slash r then basename r
      else if Ascii.eqb a "/" then r else p
  end.

(** Writing a file enters its name in the folder that holds it.  A path
    without a slash names a file of the working directory, which is
    there without an entry of its own. *)
Definition write_file (fs : FS) (p : string) (n : node) : (exn + unit) * FS :=
  if has_slash p then
    match dict_get fs (dirname p) with
    | Some (Folder names) =>
        match dict_get fs p with
        | Some (Folder _) => (inl IsADirectoryError, fs)
        | Some _ => (inr tt, dict_set fs p n)
        | None =>
            (inr tt,
             dict_set (dict_set fs (dirname p) (Folder (names ++ [basename p])))
               p n)
        end
    | Some _ => (inl NotADirectoryError, fs)
    | None => (inl FileNotFoundError, fs)
    end
  else
    match dict_get fs p with
    | Some (Folder _) => (inl IsADirectoryError, fs)
    | _ => (inr tt, dict_set fs p n)
    end.

Definition demo_export_audio (src origin dst target : string) (fs : FS)
  : (exn + unit) * FS :=
  match dict_get fs src with
  | Some (Audio samples rate) => write_file fs dst (Audio samples rate)
  | Some _ => (inl (Other "LibsndfileError"), fs)
  | None => (inl FileNotFoundError, fs)
  end.

Definition demo_dict : dict (list phoneme) :=
  [ ("cat", ["K"; "AE"; "T"; "sil"]);
    ("dog", ["D"; "AO"; "G"; "sil"]);
    ("a", ["AH"; "sil"]) ].

Definition demo_get_phoneme_dict (fs : FS) (path phonemes_index : option string)
  : exn + dict (list phoneme) := inr demo_dict.

(** Thirteen coefficients for every sample [x]: [x], [2 x], ..., [13 x]. *)
Definition demo_mfcc (signal : waveform) (samplerate : Z) : exn + matrix :=
  match signal with
  | [] => inl IndexError
  | _ =>
      inr (map (fun x =>
             map (fun k => F64.of_int (x * Z.of_nat k)) (seq 1 13)) signal)
  end.

#[export] Instance platform : Platform FS waveform := {|
  listdir := demo_listdir;
  isdir := demo_isdir;
  open_lines := demo_open_lines;
  sf_read := demo_sf_read;
  export_audio := demo_export_audio;
  get_phoneme_dict := demo_get_phoneme_dict;
  mfcc := demo_mfcc;
  minmax_scale := Sklearn.minmax_scale
|}.

(** A corpus of three authors with one chapter each.  The chapter of the
    first author holds its audio as [flac], the two others as [wav]. *)
Definition corpus3 : FS :=
  [ ("corpus", Folder ["84"; "174"; "251"; "README.TXT"]);
    ("corpus/README.TXT", Text ["three authors"]);
    ("corpus/84", Folder ["121123"]);
    ("corpus/84/121123", Folder ["84-121123.trans.txt"; "84-121123-0000.flac"]);
    ("corpus/84/121123/84-121123.trans.txt", Text ["84-121123-0000 cat" ++ String "010" ""]);
    ("corpus/84/121123/84-121123-0000.flac", Audio [3; -1; 4] 16000);
    ("corpus/174", Folder ["50561"]);
    ("corpus/174/50561", Folder ["174-50561.trans.txt"; "174-50561-0000.wav"; "174-50561-0001.wav"]);
    ("corpus/174/50561/174-50561.trans.txt",
       Text ["174-50561-0000 a dog" ++ String "010" "";
             "174-50561-0001 the cat" ++ String "010" ""]);
    ("corpus/174/50561/174-50561-0000.wav", Audio [2; 7] 16000);
    ("corpus/174/50561/174-50561-0001.wav", Audio [1; 8] 16000);
    ("corpus/251", Folder ["118436"]);
    ("corpus/251/118436", Folder ["251-118436.trans.txt"; "251-118436-0000.wav"]);
    ("corpus/251/118436/251-118436.trans.txt", Text ["251-118436-0000 dog cat" ++ String "010" ""]);
    ("corpus/251/118436/251-118436-0000.wav", Audio [5; 0; 9] 16000) ].

(** The same corpus with every audio already in [wav]. *)
Definition corpus3_wav : FS :=
  [ ("corpus", Folder ["84"; "174"; "251"]);
    ("corpus/84", Folder ["121123"]);
    ("corpus/84/121123", Folder ["84-121123.trans.txt"; "84-121123-0000.wav"]);
    ("corpus/84/121123/84-121123.trans.txt", Text ["84-121123-0000 cat" ++ String "010" ""]);
    ("corpus/84/121123/84-121123-0000.wav", Audio [3; -1; 4] 16000);
    ("corpus/174", Folder ["50561"]);
    ("corpus/174/50561", Folder ["174-50561.trans.txt"; "174-50561-0000.wav"]);
    ("corpus/174/50561/174-50561.trans.txt", Text ["174-50561-0000 a dog" ++ String "010" ""]);
    ("corpus/174/50561/174-50561-0000.wav", Audio [2; 7] 16000);
    ("corpus/251", Folder ["118436"]);
    ("corpus/251/118436", Folder ["251-118436.trans.txt"; "251-118436-0000.wav"]);
    ("corpus/251/118436/251-118436.trans.txt", Text ["251-118436-0000 dog cat" ++ String "010" ""]);
    ("corpus/251/118436/251-118436-0000.wav", Audio [5; 0; 9] 16000) ].

(** The constructor with every optional argument left out. *)
Definition new (path : string) (fs : FS) : exn + world FS :=
  __init__ path None None None None None None None None None fs.

(** The outcome of a call and the world it leaves, [None] when the
    constructor raised. *)
Definition call {A} (m : M FS A) (w : exn + world FS) : option ((exn + A) * world FS) :=
  match w with
  | inl _ => None
  | inr w0 => Some (m w0)
  end.

(** A corpus whose transcript names an utterance that has no audio file. *)
Definition corpus_unpaired : FS :=
  [ ("corpus", Folder ["84"]);
    ("corpus/84", Folder ["121123"]);
    ("corpus/84/121123", Folder ["84-121123.trans.txt"; "u0.wav"]);
    ("corpus/84/121123/84-121123.trans.txt",
       Text ["u0 cat" ++ String "010" ""; "u1 dog" ++ String "010" ""]);
    ("corpus/84/121123/u0.wav", Audio [3; 1; 4] 16000) ].

(** A corpus whose transcript has a line with no text after the key. *)
Definition corpus_blank : FS :=
  [ ("corpus", Folder ["84"]);
    ("corpus/84", Folder ["121123"]);
    ("corpus/84/121123", Folder ["84-121123.trans.txt"; "u0.wav"]);
    ("corpus/84/121123/84-121123.trans.txt", Text ["u0 " ++ String "010" ""]);
    ("corpus/84/121123/u0.wav", Audio [3; 1; 4] 16000) ].

(** A corpus whose chapter directory has two transcript files. *)
Definition corpus_two_transcripts : FS :=
  [ ("corpus", Folder ["84"]);
    ("corpus/84", Folder ["121123"]);
    ("corpus/84/121123", Folder ["a.trans.txt"; "b.trans.txt"; "u0.wav"]);
    ("corpus/84/121123/a.trans.txt", Text ["u0 cat" ++ String "010" ""]);
    ("corpus/84/121123/b.trans.txt", Text ["u0 dog" ++ String "010" ""]);
    ("corpus/84/121123/u0.wav", Audio [3; 1; 4] 16000) ].

(** A corpus whose chapter directory has no transcript file. *)
Definition corpus_no_transcript : FS :=
  [ ("corpus", Folder ["84"]);
    ("corpus/84", Folder ["121123"]);
    ("corpus/84/121123", Folder ["u0.wav"]);
    ("corpus/84/121123/u0.wav", Audio [3; 1; 4] 16000) ].

(** A root directory that exists and has no folder in it. *)
Definition corpus_empty : FS :=
  [ ("corpus", Folder ["README.TXT"]);
    ("corpus/README.TXT", Text ["nothing here"]) ].

(** The world of a new object on the corpus at [path], and a world with no
    author when the constructor raises. *)
Definition nowhere (fs : FS) : world FS :=
  mkWorld (mkAudioPrep "" PRE_EMPHASIS FRAME_SIZE FRAME_STRIDE nfft NFILT NUM_CEPS
             CEP_LIFTER None None None None [] [] (-1) [] 0) fs [].

Definition world_of (path : string) (fs : FS) : world FS :=
  match new path fs with
  | inr w => w
  | inl _ => nowhere fs
  end.

Definition on_corpus3 : world FS := Eval vm_compute in world_of "corpus" corpus3.
Definition on_corpus3_wav : world FS := Eval vm_compute in world_of "corpus" corpus3_wav.
Definition on_unpaired : world FS := Eval vm_compute in world_of "corpus" corpus_unpaired.
Definition on_blank : world FS := Eval vm_compute in world_of "corpus" corpus_blank.
Definition on_two_transcripts : world FS :=
  Eval vm_compute in world_of "corpus" corpus_two_transcripts.
Definition on_no_transcript : world FS :=
  Eval vm_compute in world_of "corpus" corpus_no_transcript.
Definition on_empty : world FS := Eval vm_compute in world_of "corpus" corpus_empty.

End Demo.

(** ** The specification's wording, where the code differs

    Five sentences of the specification, stated as they are written, to be
    set against the code. *)

Section Claimed.

Context {FS waveform : Type} {P : Platform FS waveform}.

(** "Every key present in the returned batch result has a non-empty phoneme
    sequence ... utterances failing either step are silently excluded":
    once the features are extracted and scaled, the call returns, and no
    entry of its batch has an empty phoneme sequence. *)
Definition claimed_batch_invariant (format : string) (w : world FS) : Prop :=
  forall acc w1 keys mfccs scaled_mfcc,
    gathered format w = Some (acc, w1) ->
    _get_mfcc (self w1) (snd acc) = inr (keys, mfccs) ->
    _scale_data (self w1) keys mfccs = inr scaled_mfcc ->
    exists result,
      fst (get_data format w) = inr result /\
      forall key p m, dict_get result key = Some (p, m) -> p <> [].

(** "Degenerate case (all-equal values in a frame) ... output is the
    midpoint of the target range (0) for that frame". *)
Definition claimed_constant_frame_zero (s : AudioPrep) (key : string) (m : matrix) : Prop :=
  forall scaled_mfcc m',
    _scale_data s [key] [m] = inr scaled_mfcc ->
    dict_get scaled_mfcc key = Some m' ->
    forall i row row',
      nth_error m i = Some row -> nth_error m' i = Some row' ->
      (forall a b, In a row -> In b row -> F64.eqb a b = true) ->
      Forall (fun y => F64.eqb y (F64.of_int 0) = true) row'.


(** "fails with [MissingTranscriptError] if absent or if more than one
    exists" / "[AmbiguousTranscriptError]: a chapter directory has ...
    multiple transcript files. Fatal for that batch call." *)
Definition claimed_transcript_errors (format : string) (w : world FS) : Prop :=
  forall author chapters c names,
    Py.list_get (_author_indexes (self w)) (_index (self w) + 1) = Some author ->
    dict_get (_files (self w)) author = Some chapters ->
    In c chapters ->
    listdir (fs w) (Py.path_join (Py.path_join (_path (self w)) author) c) = inr names ->
    match filter (fun file => Py.endswith file ".txt") names with
    | [] => fst (get_data format w) = inl (Other "MissingTranscriptError")
    | [_] => True
    | _ => fst (get_data format w) = inl (Other "AmbiguousTranscriptError")
    end.

(** "Fails with a [StructureError] if the root path does not exist or
    contains no subdirectories". *)
Definition claimed_structure_error (path : string) (fs0 : FS) : Prop :=
  match listdir fs0 path with
  | inl _ => True
  | inr names => filter (fun d => isdir fs0 (Py.path_join path d)) names = []
  end ->
  __init__ path None None None None None None None None None fs0 =
  inl (Other "StructureError").

End Claimed.

(** The scaled features of one utterance of two frames, [1 2 3] and
    [5 5 5]. *)
Definition two_frames : matrix :=
  [map F64.of_int [1; 2; 3]; map F64.of_int [5; 5; 5]].

Definition two_frames_scaled : dict matrix :=
  Eval vm_compute in
    match _scale_data (P := Demo.platform) (self Demo.on_empty) ["utt"] [two_frames] with
    | inr d => d
    | inl _ => []
    end.

(** ** Notions for the properties of the rest of the class *)

(** The folders a directory lists:
    [[d for d in listdir(p) if os.path.isdir(os.path.join(p, d))]]. *)
Definition subfolder_names {FS waveform} {P : Platform FS waveform}
  (f : FS) (p : string) : exn + list string :=
  match listdir f p with
  | inl e => inl e
  | inr names => inr (filter (fun d => isdir f (Py.path_join p d)) names)
  end.

(** Whether a string holds the character [c]. *)
Fixpoint has_char (c : ascii) (s : string) : bool :=
  match s with
  | EmptyString => false
  | String a r => Ascii.eqb a c || has_char c r
  end.

(** The line feed, and a string of [n] of them. *)
Definition newline : ascii := "010"%char.

Fixpoint newlines (n : nat) : string :=
  match n with
  | O => EmptyString
  | S k => String newline (newlines k)
  end.

(** The formats of [w'] are those of [w], but that one that was not set may
    have been set: the target to [format], the origin to [flac]. *)
Definition formats_settled {FS} (format : string) (w w' : world FS) : Prop :=
  (_target_format (self w') = _target_format (self w) \/
   (_target_format (self w) = None /\ _target_format (self w') = Some format)) /\
  (_origin_format (self w') = _origin_format (self w) \/
   (_origin_format (self w) = None /\
    _origin_format (self w') = Some AUDIO_ORIGIN_FORMAT)).

(** The trace of [w'] continues that of [w], and where nothing was added to
    it the file system and the formats are the same. *)
Definition written_only_converting {FS} (w w' : world FS) : Prop :=
  (exists l, trace w' = (trace w ++ l)%list) /\
  (trace w' = trace w ->
   fs w' = fs w /\
   _origin_format (self w') = _origin_format (self w) /\
   _target_format (self w') = _target_format (self w)).

(** The files [parts] of [path] exported one after the other, the file [a]
    to the destination [dst a]. *)
Fixpoint export_each {FS waveform} {P : Platform FS waveform}
  (path origin target : string) (dst : string -> string) (parts : list string)
  (f : FS) : (exn + unit) * FS :=
  match parts with
  | [] => (inr tt, f)
  | a :: rest =>
      match export_audio (Py.path_join path a) origin (dst a) target f with
      | (inl e, f') => (inl e, f')
      | (inr _, f') => export_each path origin target dst rest f'
      end
  end.

(** The join of a path and a name that does not start with a slash: the
    path, a separator that depends on the path alone, and the name. *)
Definition separator (path : string) : string :=
  if String.eqb path "" || Py.endswith path "/" then ""%string else "/"%string.


(** ** More corpora to run the class on *)

(** A transcript with a line that has a key and nothing else. *)
Definition corpus_bare_line : Demo.FS :=
  [ ("corpus", Demo.Folder ["84"]);
    ("corpus/84", Demo.Folder ["121123"]);
    ("corpus/84/121123", Demo.Folder ["84-121123.trans.txt"]);
    ("corpus/84/121123/84-121123.trans.txt", Demo.Text ["utt1" ++ String "010" ""]) ].

(** An author folder without any chapter folder. *)
Definition corpus_no_chapter : Demo.FS :=
  [ ("corpus", Demo.Folder ["84"]);
    ("corpus/84", Demo.Folder ["notes.txt"]);
    ("corpus/84/notes.txt", Demo.Text ["no chapter yet"]) ].


Definition on_bare_line : world Demo.FS :=
  Eval vm_compute in Demo.world_of "corpus" corpus_bare_line.
Definition on_no_chapter : world Demo.FS :=
  Eval vm_compute in Demo.world_of "corpus" corpus_no_chapter.

(** An object whose dictionary has the one word [cat]. *)
Definition cat_only : AudioPrep :=
  mkAudioPrep "corpus" PRE_EMPHASIS FRAME_SIZE FRAME_STRIDE nfft NFILT NUM_CEPS
    CEP_LIFTER None None None None [("cat", ["K"; "AE"; "T"; "sil"])] [] (-1) [] 0.

(** The world [w] with both formats set. *)
Definition with_formats {FS} (o t : string) (w : world FS) : world FS :=
  mkWorld (set_target_format (Some t) (set_origin_format (Some o) (self w)))
    (fs w) (trace w).

(** * Properties *)

(** ** Runs of the helpers on small inputs *)

Example endswith_txt : Py.endswith "84-121123.trans.txt" ".txt" = true.
Proof. reflexivity. Qed.

Example find_space : Py.find "utt1 the cat" " " = 4.
Proof. reflexivity. Qed.

Example find_none : Py.find "utt1" " " = -1.
Proof. reflexivity. Qed.

Example slice_line :
  Py.slice_to "utt1 the cat" 4 = "utt1" /\ Py.slice_from "utt1 the cat" 4 = " the cat".
Proof. split; reflexivity. Qed.

Example slice_no_space :
  Py.slice_to "utt1" (-1) = "utt" /\ Py.slice_from "utt1" (-1) = "1".
Proof. split; reflexivity. Qed.

Example split_words : Py.split "  the   cat " = ["the"; "cat"].
Proof. reflexivity. Qed.

Example join_paths :
  Py.path_join "corpus" "84" = "corpus/84" /\ Py.path_join "corpus/" "84" = "corpus/84".
Proof. split; reflexivity. Qed.

Example rstrip_line :
  Py.rstrip_newline ("utt1 cat" ++ String "010" (String "010" "")) = "utt1 cat".
Proof. reflexivity. Qed.

Example split_dot_name : Py.split_dot_head "84-121123-0000.flac" = "84-121123-0000".
Proof. reflexivity. Qed.

Example list_get_cases :
  Py.list_get ["a"; "b"; "c"] 0 = Some "a" /\
  Py.list_get ["a"; "b"; "c"] 3 = None /\
  Py.list_get ["a"; "b"; "c"] (-1) = Some "c" /\
  Py.list_get ([] : list string) 0 = None.
Proof. repeat split; reflexivity. Qed.

(** ** Reasoning about computations *)

Lemma bind_run {FS A B} (m : M FS A) (f : A -> M FS B) (w : world FS) :
  bind m f w =
  match m w with
  | (inl e, w') => (inl e, w')
  | (inr a, w') => f a w'
  end.
Proof. reflexivity. Qed.

Lemma foldM_app {FS A B} (body : B -> A -> M FS B) (l1 l2 : list A) (acc : B) (w : world FS) :
  foldM body (l1 ++ l2) acc w =
  match foldM body l1 acc w with
  | (inl e, w') => (inl e, w')
  | (inr acc', w') => foldM body l2 acc' w'
  end.
Proof.
  revert acc w. induction l1 as [|x l1 IH]; intros acc w; simpl.
  - reflexivity.
  - rewrite !bind_run. destruct (body acc x w) as [[e|acc'] w']; [reflexivity|].
    apply IH.
Qed.

Section Keeps.

Context {FS : Type} (R : world FS -> world FS -> Prop).
Hypothesis R_refl : forall w, R w w.
Hypothesis R_trans : forall a b c, R a b -> R b c -> R a c.

Lemma keeps_ret {A} (a : A) : keeps R (ret a).
Proof. intro w. apply R_refl. Qed.

Lemma keeps_raise {A} (e : exn) : keeps R (@raise FS A e).
Proof. intro w. apply R_refl. Qed.

Lemma keeps_lift {A} (r : exn + A) : keeps R (lift r).
Proof. intro w. apply R_refl. Qed.

Lemma keeps_read {A} (f : FS -> exn + A) : keeps R (read f).
Proof. intro w. apply R_refl. Qed.

Lemma keeps_get_self : keeps R get_self.
Proof. intro w. apply R_refl. Qed.

Lemma keeps_bind {A B} (m : M FS A) (f : A -> M FS B) :
  keeps R m -> (forall a, keeps R (f a)) -> keeps R (bind m f).
Proof.
  intros Hm Hf w. rewrite bind_run.
  specialize (Hm w). destruct (m w) as [[e|a] w']; simpl in *.
  - exact Hm.
  - eapply R_trans; [exact Hm | apply Hf].
Qed.

Lemma keeps_foldM {A B} (body : B -> A -> M FS B) (l : list A) :
  (forall acc x, keeps R (body acc x)) -> forall acc, keeps R (foldM body l acc).
Proof.
  intro Hb. induction l as [|x l IH]; intro acc; simpl.
  - apply keeps_ret.
  - apply keeps_bind; [apply Hb | exact IH].
Qed.

Lemma keeps_forM {A} (body : A -> M FS unit) (l : list A) :
  (forall x, keeps R (body x)) -> keeps R (forM body l).
Proof. intro Hb. apply keeps_foldM. intros _ x. apply Hb. Qed.

End Keeps.

Lemma keeps_modify_self {FS} (R : world FS -> world FS -> Prop) (f : AudioPrep -> AudioPrep) :
  (forall w, R w (mkWorld (f (self w)) (fs w) (trace w))) -> keeps R (modify_self f).
Proof. intros H w. apply H. Qed.

Lemma keeps_update {FS A} (R : world FS -> world FS -> Prop) (f : FS -> (exn + A) * FS) :
  (forall w fs', R w (mkWorld (self w) fs' (trace w))) -> keeps R (update f).
Proof. intros H w. unfold update. destruct (f (fs w)) as [r fs']. apply H. Qed.

Lemma keeps_log {FS} (R : world FS -> world FS -> Prop) (e : event) :
  (forall w, R w (mkWorld (self w) (fs w) (trace w ++ [e]))) -> keeps R (log e).
Proof. intros H w. apply H. Qed.

(** ** What serving an author leaves alone

    Any relation that holds across a change of the formats, of the file
    system and of the trace holds across the work [get_data] does for an
    author. *)

Section Frame.

Context {FS waveform : Type} {P : Platform FS waveform}.
Context (R : world FS -> world FS -> Prop).
Hypothesis R_refl : forall w, R w w.
Hypothesis R_trans : forall a b c, R a b -> R b c -> R a c.
Hypothesis R_origin :
  forall w o, R w (mkWorld (set_origin_format o (self w)) (fs w) (trace w)).
Hypothesis R_target :
  forall w t, R w (mkWorld (set_target_format t (self w)) (fs w) (trace w)).
Hypothesis R_fs : forall w fs', R w (mkWorld (self w) fs' (trace w)).
Hypothesis R_log : forall w e, R w (mkWorld (self w) (fs w) (trace w ++ [e])).

Ltac frame :=
  repeat first
    [ apply (keeps_ret R R_refl)
    | apply (keeps_lift R R_refl)
    | apply (keeps_read R R_refl)
    | apply (keeps_get_self R R_refl)
    | apply (keeps_modify_self R); solve [auto]
    | apply (keeps_update R); solve [auto]
    | apply (keeps_log R); solve [auto]
    | apply (keeps_bind R R_trans); [| intro]
    | apply (keeps_forM R R_refl R_trans); intro
    | apply (keeps_foldM R R_refl R_trans); intros
    | match goal with |- keeps _ (match ?x with _ => _ end) => destruct x end ].

Lemma convert_audios_frame (path : string) : keeps R (_convert_audios path).
Proof. unfold _convert_audios, default_origin_format, default_target_format, convert_files. frame. Qed.

Lemma read_audios_frame (curr_path format : string) (a : dict (waveform * Z)) :
  keeps R (read_audios curr_path format a).
Proof.
  unfold read_audios, audio_parts_of, default_target_format. frame.
  all: try apply convert_audios_frame.
Qed.

End Frame.

(** The rest of the work for an author only reads: a relation kept by
    [read_audios] is kept by the serving of an author. *)

Section ServeFrame.

Context {FS waveform : Type} {P : Platform FS waveform}.
Context (R : world FS -> world FS -> Prop) (format : string).
Hypothesis R_refl : forall w, R w w.
Hypothesis R_trans : forall a b c, R a b -> R b c -> R a c.
Hypothesis R_read_audios :
  forall curr_path (a : dict (waveform * Z)), keeps R (read_audios curr_path format a).

Ltac reads :=
  repeat first
    [ apply R_read_audios
    | apply (keeps_ret R R_refl)
    | apply (keeps_lift R R_refl)
    | apply (keeps_read R R_refl)
    | apply (keeps_get_self R R_refl)
    | apply (keeps_bind R R_trans); [| intro]
    | apply (keeps_foldM R R_refl R_trans); intros ].

Lemma read_transcripts_frame (curr_path : string) (t : dict string) :
  keeps R (read_transcripts curr_path t).
Proof. unfold read_transcripts. reads. Qed.

Lemma chapter_frame (author_path : string) acc (audio : string) :
  keeps R (chapter format author_path acc audio).
Proof. unfold chapter. reads. Qed.

Lemma serve_author_frame (author : string) : keeps R (serve_author format author).
Proof. unfold serve_author. reads. Qed.

Lemma serve_frame : keeps R (serve format).
Proof. unfold serve. reads. Qed.

End ServeFrame.

(** ** The cursor *)

Lemma same_cursor_refl {FS} (w : world FS) : same_cursor w w.
Proof. split; reflexivity. Qed.

Lemma same_cursor_trans {FS} (a b c : world FS) :
  same_cursor a b -> same_cursor b c -> same_cursor a c.
Proof. intros [H1 H2] [H3 H4]. split; congruence. Qed.

Lemma corpus_of_batch_count (s s' : AudioPrep) :
  corpus_of s' = corpus_of s -> _batch_count s' = _batch_count s.
Proof. intro H. apply (f_equal _batch_count) in H. exact H. Qed.

Lemma corpus_of_author_indexes (s s' : AudioPrep) :
  corpus_of s' = corpus_of s -> _author_indexes s' = _author_indexes s.
Proof. intro H. apply (f_equal _author_indexes) in H. exact H. Qed.

Lemma corpus_of_set_index (i : Z) (s : AudioPrep) :
  corpus_of (set_index i s) = corpus_of s.
Proof. reflexivity. Qed.

Section Cursor.

Context {FS waveform : Type} {P : Platform FS waveform}.

Lemma serve_same_cursor (format : string) : keeps same_cursor (serve format).
Proof.
  apply serve_frame.
  - apply same_cursor_refl.
  - apply same_cursor_trans.
  - intros curr_path a. apply read_audios_frame.
    + apply same_cursor_refl.
    + apply same_cursor_trans.
    + intros w o. split; reflexivity.
    + intros w t. split; reflexivity.
    + intros w fs'. split; reflexivity.
    + intros w e. split; reflexivity.
Qed.

(** [get_data] is the serving of the advanced world, followed by the reset
    of the index when the call has not raised. *)
Lemma get_data_run (format : string) (w : world FS) :
  get_data format w =
  match serve format (advanced w) with
  | (inl e, w2) => (inl e, w2)
  | (inr result, w2) =>
      (inr result,
       if _index (self w2) >=? _batch_count (self w2) - 1
       then mkWorld (set_index (-1) (self w2)) (fs w2) (trace w2)
       else w2)
  end.
Proof.
  unfold get_data. rewrite bind_run. cbn [modify_self]. fold (advanced w).
  rewrite bind_run. destruct (serve format (advanced w)) as [[e|result] w2].
  - reflexivity.
  - rewrite bind_run. cbn [get_self]. rewrite bind_run.
    destruct (_index (self w2) >=? _batch_count (self w2) - 1); reflexivity.
Qed.

(** Once the index has reached the end of the author list (after a call
    for the last author has raised, or on a corpus without authors), every
    call raises [IndexError] and moves the index further. *)
Lemma get_data_beyond_authors (format : string) (w : world FS) :
  Z.of_nat (List.length (_author_indexes (self w))) <= _index (self w) + 1 ->
  get_data format w = (inl IndexError, advanced w).
Proof.
  intro H. rewrite get_data_run. unfold serve. rewrite bind_run. cbn [get_self].
  rewrite bind_run. unfold index_or_raise, Py.list_get.
  cbn [lift advanced self _author_indexes _index set_index].
  destruct (_index (self w) + 1 <? 0) eqn:E; [lia|].
  destruct (nth_error (_author_indexes (self w)) (Z.to_nat (_index (self w) + 1)))
    eqn:Hnth; [|reflexivity].
  exfalso.
  assert (Hlt : (Z.to_nat (_index (self w) + 1) < List.length (_author_indexes (self w)))%nat).
  { apply nth_error_Some. rewrite Hnth. discriminate. }
  lia.
Qed.

(** C10.  [get_data] advances the index before anything else and resets it
    only at the end of a call that returns.  Hence a call that raises
    leaves the index one above its value before the call (at
    [_batch_count - 1] when the author served was the last one), with the
    corpus attributes untouched, so that the next call looks up the author
    after the one that failed; a call that returns leaves [-1] after the
    last author and the advanced index otherwise. *)
Theorem get_data_raise_keeps_index_advanced (format : string) (w : world FS) :
  let out := get_data format w in
  let i := _index (self w) + 1 in
  fst out = fst (serve format (advanced w)) /\
  corpus_of (self (snd out)) = corpus_of (self w) /\
  match fst out with
  | inl _ =>
      _index (self (snd out)) = i /\
      (i = _batch_count (self w) - 1 ->
       _index (self (snd out)) = _batch_count (self (snd out)) - 1) /\
      _index (self (advanced (snd out))) = i + 1 /\
      fst (get_data format (snd out)) = fst (serve format (advanced (snd out)))
  | inr _ =>
      _index (self (snd out)) = if i >=? _batch_count (self w) - 1 then -1 else i
  end.
Proof.
  cbv zeta. rewrite get_data_run.
  pose proof (serve_same_cursor format (advanced w)) as [Hi Hc].
  destruct (serve format (advanced w)) as [[e|result] w2] eqn:Hs; cbn [fst snd] in *.
  - cbn [advanced self _index set_index] in Hi.
    change (corpus_of (self (advanced w))) with (corpus_of (self w)) in Hc.
    split; [reflexivity|]. split; [exact Hc|].
    split; [exact Hi|]. split.
    + intro Hlast. rewrite (corpus_of_batch_count _ _ Hc). lia.
    + split.
      * cbn [advanced self _index set_index]. lia.
      * rewrite get_data_run.
        destruct (serve format (advanced w2)) as [[e'|r'] w3]; reflexivity.
  - cbn [advanced self _index set_index] in Hi.
    change (corpus_of (self (advanced w))) with (corpus_of (self w)) in Hc.
    rewrite (corpus_of_batch_count _ _ Hc), Hi.
    split; [reflexivity|].
    destruct (_index (self w) + 1 >=? _batch_count (self w) - 1); cbn [self]; auto.
Qed.

End Cursor.

(** ** Two runs side by side

    [agree S m m'] says that [m] and [m'], started in worlds related by
    [S], have the same outcome and leave worlds related by [S]. *)

Section Agree.

Context {FS : Type} (S : world FS -> world FS -> Prop).

Lemma agree_at_bind {A B} (m m' : M FS A) (f f' : A -> M FS B) (w v : world FS) :
  agree_at S m m' w v ->
  (forall a w1 v1, S w1 v1 -> agree_at S (f a) (f' a) w1 v1) ->
  agree_at S (bind m f) (bind m' f') w v.
Proof.
  unfold agree_at. intros [Hr Hw] Hf. rewrite !bind_run.
  destruct (m w) as [[e|a] w1], (m' v) as [[e'|a'] v1]; cbn [fst snd] in *;
    try discriminate.
  - injection Hr as <-. split; [reflexivity | exact Hw].
  - injection Hr as <-. apply Hf. exact Hw.
Qed.

Lemma agree_bind {A B} (m m' : M FS A) (f f' : A -> M FS B) :
  agree S m m' -> (forall a, agree S (f a) (f' a)) -> agree S (bind m f) (bind m' f').
Proof.
  intros Hm Hf w v Hs. apply agree_at_bind; [apply Hm; exact Hs|].
  intros a w1 v1 Hs1. apply Hf. exact Hs1.
Qed.

Lemma agree_ret {A} (a : A) : agree S (ret a) (ret a).
Proof. intros w v Hs. split; [reflexivity | exact Hs]. Qed.

Lemma agree_lift {A} (r : exn + A) : agree S (lift r) (lift r).
Proof. intros w v Hs. split; [reflexivity | exact Hs]. Qed.

Lemma agree_foldM {A B} (body body' : B -> A -> M FS B) (l : list A) :
  (forall acc x, agree S (body acc x) (body' acc x)) ->
  forall acc, agree S (foldM body l acc) (foldM body' l acc).
Proof.
  intro Hb. induction l as [|x l IH]; intro acc; simpl.
  - apply agree_ret.
  - apply agree_bind; [apply Hb | exact IH].
Qed.

Lemma agree_forM {A} (body body' : A -> M FS unit) (l : list A) :
  (forall x, agree S (body x) (body' x)) -> agree S (forM body l) (forM body' l).
Proof. intro Hb. apply agree_foldM. intros _ x. apply Hb. Qed.

Hypothesis S_fs : forall w v, S w v -> fs w = fs v.

Lemma agree_read {A} (f : FS -> exn + A) : agree S (read f) (read f).
Proof.
  intros w v Hs. split; [|exact Hs]. cbn. rewrite (S_fs _ _ Hs). reflexivity.
Qed.

Hypothesis S_update :
  forall w v fs', S w v ->
  S (mkWorld (self w) fs' (trace w)) (mkWorld (self v) fs' (trace v)).

Lemma agree_update {A} (f : FS -> (exn + A) * FS) : agree S (update f) (update f).
Proof.
  intros w v Hs. unfold agree_at, update. rewrite <- (S_fs _ _ Hs).
  destruct (f (fs w)) as [r fs']. cbn [fst snd].
  split; [reflexivity | apply S_update; exact Hs].
Qed.

Hypothesis S_log :
  forall w v e, S w v ->
  S (mkWorld (self w) (fs w) (trace w ++ [e])) (mkWorld (self v) (fs v) (trace v ++ [e])).

Lemma agree_log (e : event) : agree S (log e) (log e).
Proof. intros w v Hs. split; [reflexivity | apply S_log; exact Hs]. Qed.

End Agree.

Lemma twin_alike {FS} (format : string) (w v : world FS) : twin w v -> alike format w v.
Proof. intros [Hf Hs]. unfold alike. rewrite Hf, Hs. repeat split; reflexivity. Qed.

Lemma alike_refl {FS} (format : string) (w : world FS) : alike format w w.
Proof. repeat split; reflexivity. Qed.

Lemma self_ext (s s' : AudioPrep) :
  corpus_of s = corpus_of s' -> _index s = _index s' ->
  _origin_format s = _origin_format s' -> _target_format s = _target_format s' ->
  s = s'.
Proof.
  destruct s, s'. unfold corpus_of. cbn. intros H Hi Ho Ht.
  injection H as -> -> -> -> -> -> -> -> -> -> -> -> -> ->. subst. reflexivity.
Qed.

(** ** The conversion of a chapter directory *)

Section Conversion.

Context {FS waveform : Type} {P : Platform FS waveform}.

Lemma default_target_run (d : string) (w : world FS) :
  default_target_format d w =
  (inr tt,
   mkWorld (set_target_format (Some (or_else (_target_format (self w)) d)) (self w))
     (fs w) (trace w)).
Proof.
  unfold default_target_format. rewrite bind_run. cbn [get_self].
  destruct w as [s f t]. destruct s. cbn.
  destruct _target_format0; reflexivity.
Qed.

Lemma default_origin_run (d : string) (w : world FS) :
  default_origin_format d w =
  (inr tt,
   mkWorld (set_origin_format (Some (or_else (_origin_format (self w)) d)) (self w))
     (fs w) (trace w)).
Proof.
  unfold default_origin_format. rewrite bind_run. cbn [get_self].
  destruct w as [s f t]. destruct s. cbn.
  destruct _origin_format0; reflexivity.
Qed.

(** What [get_data] does for a directory without audio in [format]. *)
Lemma convert_block_run (path format : string) (w : world FS) :
  (default_target_format format ;; _convert_audios path ;;
   audio_parts_of path format) w =
  (convert_files path ;; audio_parts_of path format) (converting path format w).
Proof.
  rewrite bind_run, default_target_run. rewrite (bind_run (_convert_audios path)).
  unfold _convert_audios. rewrite bind_run. cbn [log self fs trace].
  rewrite bind_run, default_origin_run. cbn [self fs trace].
  rewrite bind_run, default_target_run. cbn [self fs trace].
  rewrite (bind_run (convert_files path)). reflexivity.
Qed.

Lemma same_object_refl (w : world FS) : same_object w w.
Proof. split; reflexivity. Qed.

Lemma same_object_trans (a b c : world FS) :
  same_object a b -> same_object b c -> same_object a c.
Proof. intros [H1 H2] [H3 H4]. split; congruence. Qed.

Ltac object_kept :=
  repeat first
    [ apply (keeps_ret same_object same_object_refl)
    | apply (keeps_lift same_object same_object_refl)
    | apply (keeps_read same_object same_object_refl)
    | apply (keeps_get_self same_object same_object_refl)
    | apply (keeps_update same_object); intros; split; reflexivity
    | apply (keeps_bind same_object same_object_trans); [| intro]
    | apply (keeps_forM same_object same_object_refl same_object_trans); intro
    | apply (keeps_foldM same_object same_object_refl same_object_trans); intros ].

Lemma convert_files_same_object (path : string) :
  keeps same_object (convert_files path).
Proof. unfold convert_files. object_kept. Qed.

Lemma audio_parts_of_run (path format : string) (w : world FS) :
  audio_parts_of path format w =
  (match listdir (fs w) path with
   | inl e => inl e
   | inr names => inr (filter (fun d => Py.endswith d ("." ++ format)) names)
   end, w).
Proof.
  unfold audio_parts_of. rewrite bind_run. cbn [read].
  destruct (listdir (fs w) path); reflexivity.
Qed.

Lemma load_audios_same_world (curr_path : string) (parts : list string)
  (audios : dict (waveform * Z)) (w : world FS) :
  snd (foldM (fun audios audio_part =>
         r <- read (fun fs => sf_read fs (Py.path_join curr_path audio_part)) ;;
         ret (dict_set audios (Py.split_dot_head audio_part) r)) parts audios w) = w.
Proof.
  revert audios. induction parts as [|x parts IH]; intro audios; simpl.
  - reflexivity.
  - rewrite !bind_run. cbn [read].
    destruct (sf_read (fs w) (Py.path_join curr_path x)); cbn [ret]; [reflexivity|].
    apply IH.
Qed.

Lemma read_transcripts_same_world (curr_path : string) (t : dict string) (w : world FS) :
  snd (read_transcripts curr_path t w) = w.
Proof.
  unfold read_transcripts. rewrite bind_run. cbn [read].
  destruct (listdir (fs w) curr_path); [reflexivity|].
  rewrite bind_run. cbn [lift].
  destruct (index_or_raise _ 0); [reflexivity|].
  rewrite bind_run. cbn [read].
  destruct (open_lines (fs w) _); reflexivity.
Qed.

End Conversion.

Section ConversionTrigger.

Context {FS waveform : Type} {P : Platform FS waveform}.

Lemma read_transcripts_listed (curr_path : string) (t : dict string) (w : world FS) :
  returned (fst (read_transcripts curr_path t w)) = true ->
  exists names, listdir (fs w) curr_path = inr names.
Proof.
  unfold read_transcripts. rewrite bind_run. cbn [read].
  destruct (listdir (fs w) curr_path) as [e|names]; [discriminate|].
  intros _. exists names. reflexivity.
Qed.

Lemma read_audios_trace (curr_path format : string) (a : dict (waveform * Z)) (w : world FS) :
  (exists names, listdir (fs w) curr_path = inr names) ->
  trace (snd (read_audios curr_path format a w)) =
  (trace w ++ (if has_format format (fs w) curr_path then [] else [Convert curr_path]))%list.
Proof.
  intros [names Hl]. unfold read_audios, has_format.
  rewrite bind_run, audio_parts_of_run, Hl.
  destruct (filter _ names) as [|x parts] eqn:Hparts.
  - rewrite bind_run, convert_block_run, bind_run.
    pose proof (convert_files_same_object curr_path (converting curr_path format w)) as [Hs Ht].
    destruct (convert_files curr_path (converting curr_path format w)) as [[e|u] w1];
      cbn [fst snd] in *.
    + cbv iota beta. cbn [snd]. rewrite Ht. reflexivity.
    + cbv iota beta. rewrite audio_parts_of_run.
      destruct (listdir (fs w1) curr_path) as [e|names1]; cbv iota beta.
      * cbn [snd]. rewrite Ht. reflexivity.
      * rewrite load_audios_same_world, Ht. reflexivity.
  - rewrite bind_run. cbn [ret]. cbv iota beta.
    rewrite load_audios_same_world, app_nil_r. reflexivity.
Qed.

Lemma read_audios_same_world (curr_path format : string) (a : dict (waveform * Z)) (w : world FS) :
  has_format format (fs w) curr_path = true ->
  snd (read_audios curr_path format a w) = w.
Proof.
  unfold read_audios, has_format.
  rewrite bind_run, audio_parts_of_run.
  destruct (listdir (fs w) curr_path) as [e|names]; [discriminate|].
  destruct (filter _ names) as [|x parts]; [discriminate|]. intros _.
  rewrite bind_run. cbn [ret]. apply load_audios_same_world.
Qed.

Lemma chapter_same_world (format author_path : string) acc (audio : string) (w : world FS) :
  has_format format (fs w) (Py.path_join author_path audio) = true ->
  snd (chapter format author_path acc audio w) = w.
Proof.
  intro H. unfold chapter. rewrite bind_run.
  pose proof (read_transcripts_same_world (Py.path_join author_path audio) (fst acc) w) as Ht.
  destruct (read_transcripts _ (fst acc) w) as [[e|t] w1]; cbn [snd] in Ht; subst w1.
  - reflexivity.
  - rewrite bind_run.
    pose proof (read_audios_same_world _ format (snd acc) w H) as Ha.
    destruct (read_audios _ format (snd acc) w) as [[e|a] w1]; cbn [snd] in Ha; subst w1;
      reflexivity.
Qed.

Lemma chapters_same_world (format author_path : string) (chapters : list string) acc (w : world FS) :
  (forall c, In c chapters -> has_format format (fs w) (Py.path_join author_path c) = true) ->
  snd (foldM (chapter format author_path) chapters acc w) = w.
Proof.
  revert acc. induction chapters as [|c chapters IH]; intros acc H; simpl.
  - reflexivity.
  - rewrite bind_run.
    pose proof (chapter_same_world format author_path acc c w (H c (or_introl eq_refl))) as Hc.
    destruct (chapter format author_path acc c w) as [[e|acc'] w1]; cbn [snd] in Hc; subst w1.
    + reflexivity.
    + apply IH. intros c' Hin. apply H. right. exact Hin.
Qed.

Lemma serve_same_world (format : string) (w : world FS) :
  (forall author chapters c,
     Py.list_get (_author_indexes (self w)) (_index (self w)) = Some author ->
     dict_get (_files (self w)) author = Some chapters ->
     In c chapters ->
     has_format format (fs w) (Py.path_join (Py.path_join (_path (self w)) author) c) = true) ->
  snd (serve format w) = w.
Proof.
  intro H. unfold serve. rewrite bind_run. cbn [get_self]. rewrite bind_run.
  unfold index_or_raise. cbn [lift].
  destruct (Py.list_get (_author_indexes (self w)) (_index (self w))) as [author|] eqn:Ha;
    [|reflexivity].
  unfold serve_author. rewrite bind_run. cbn [get_self]. rewrite bind_run.
  unfold lookup_or_raise. cbn [lift].
  destruct (dict_get (_files (self w)) author) as [chapters|] eqn:Hc; [|reflexivity].
  rewrite bind_run.
  pose proof (chapters_same_world format (Py.path_join (_path (self w)) author) chapters
                ([], []) w (fun c Hin => H author chapters c eq_refl Hc Hin)) as Hw.
  destruct (foldM (chapter format (Py.path_join (_path (self w)) author)) chapters
              ([], []) w) as [[e|acc] w1]; cbn [snd] in Hw; subst w1.
  - reflexivity.
  - rewrite bind_run. cbn [get_self lift]. reflexivity.
Qed.

(** C9.  While [get_data] works through a chapter directory whose
    transcript it has read, it starts a conversion exactly when the
    directory lists no file in the requested format, and otherwise leaves
    the world as it is.  Hence a call for an author whose chapter
    directories all list such a file (as they do once a conversion has
    written them) starts no conversion and leaves the file system alone. *)
Theorem conversion_only_when_format_missing :
  (forall (format author_path : string) acc (audio : string) (w : world FS),
     let curr_path := Py.path_join author_path audio in
     let out := chapter format author_path acc audio w in
     returned (fst (read_transcripts curr_path (fst acc) w)) = true ->
     trace (snd out) =
       (trace w ++ (if has_format format (fs w) curr_path then [] else [Convert curr_path]))%list /\
     (has_format format (fs w) curr_path = true -> snd out = w)) /\
  (forall (format : string) (w : world FS),
     let out := get_data format w in
     (forall author chapters c,
        Py.list_get (_author_indexes (self w)) (_index (self w) + 1) = Some author ->
        dict_get (_files (self w)) author = Some chapters ->
        In c chapters ->
        has_format format (fs w)
          (Py.path_join (Py.path_join (_path (self w)) author) c) = true) ->
     trace (snd out) = trace w /\ fs (snd out) = fs w).
Proof.
  split.
  - intros format author_path acc audio w curr_path out Hret.
    split; [|apply chapter_same_world].
    subst out. unfold chapter. fold curr_path. rewrite bind_run.
    pose proof (read_transcripts_listed curr_path (fst acc) w Hret) as Hl.
    pose proof (read_transcripts_same_world curr_path (fst acc) w) as Ht.
    destruct (read_transcripts curr_path (fst acc) w) as [[e|t] w1]; [discriminate|].
    cbn [snd] in Ht. subst w1. rewrite bind_run.
    pose proof (read_audios_trace curr_path format (snd acc) w Hl) as Ha.
    destruct (read_audios curr_path format (snd acc) w) as [[e|a] w1]; exact Ha.
  - intros format w out H. subst out. rewrite get_data_run.
    pose proof (serve_same_world format (advanced w) H) as Hw.
    destruct (serve format (advanced w)) as [[e|r] w2]; cbn [snd] in *; subst w2.
    + split; reflexivity.
    + destruct (_ >=? _); split; reflexivity.
Qed.

End ConversionTrigger.

(** ** A call replayed

    A call of [get_data] gives the same outcome in two worlds that are
    [alike]: the formats the object holds matter only through the defaults
    the call fills in. *)

Section Replay.

Context {FS waveform : Type} {P : Platform FS waveform}.

Lemma twin_fs (w v : world FS) : twin w v -> fs w = fs v.
Proof. intros [H _]. exact H. Qed.

Lemma twin_update (w v : world FS) (fs' : FS) :
  twin w v -> twin (mkWorld (self w) fs' (trace w)) (mkWorld (self v) fs' (trace v)).
Proof. intros [_ H]. split; [reflexivity | exact H]. Qed.

Lemma twin_get_self_bind {A} (f : AudioPrep -> M FS A) :
  (forall s, agree twin (f s) (f s)) -> agree twin (bind get_self f) (bind get_self f).
Proof.
  intros Hf w v Hs. unfold agree_at. rewrite !bind_run. cbn [get_self].
  destruct Hs as [Hfs Hself]. rewrite Hself. apply Hf. split; assumption.
Qed.

Ltac twins :=
  repeat first
    [ apply agree_ret
    | apply agree_lift
    | apply (agree_read twin twin_fs)
    | apply (agree_update twin twin_fs twin_update)
    | apply twin_get_self_bind; intro
    | apply agree_bind; [| intro]
    | apply agree_forM; intro
    | apply agree_foldM; intros ].

Lemma convert_files_twin (path : string) :
  agree twin (convert_files path) (convert_files path).
Proof. unfold convert_files. twins. Qed.

Lemma audio_parts_of_twin (path format : string) :
  agree twin (audio_parts_of path format) (audio_parts_of path format).
Proof. unfold audio_parts_of. twins. Qed.

Variable format : string.

Lemma alike_fs (w v : world FS) : alike format w v -> fs w = fs v.
Proof. intros [H _]. exact H. Qed.

Lemma alike_converting (path : string) (w v : world FS) :
  alike format w v -> twin (converting path format w) (converting path format v).
Proof.
  intros (Hfs & Hi & Hc & Ht & Ho). split; [exact Hfs|].
  cbn [converting self]. apply self_ext; cbn.
  - exact Hc.
  - exact Hi.
  - rewrite Ho. reflexivity.
  - rewrite Ht. reflexivity.
Qed.

Ltac alikes :=
  repeat first
    [ apply agree_ret
    | apply agree_lift
    | apply (agree_read (alike format) alike_fs)
    | apply agree_bind; [| intro]
    | apply agree_foldM; intros ].

Lemma read_audios_alike (curr_path : string) (a : dict (waveform * Z)) :
  agree (alike format) (read_audios curr_path format a) (read_audios curr_path format a).
Proof.
  unfold read_audios. apply agree_bind.
  - unfold audio_parts_of. alikes.
  - intros [|x parts].
    + apply agree_bind; [|intro; alikes].
      intros w v Hs. unfold agree_at. rewrite !convert_block_run.
      assert (Ht : agree twin (convert_files curr_path ;; audio_parts_of curr_path format)
                     (convert_files curr_path ;; audio_parts_of curr_path format)).
      { apply agree_bind; [apply convert_files_twin | intro; apply audio_parts_of_twin]. }
      destruct (Ht _ _ (alike_converting curr_path w v Hs)) as [Hr Hw].
      split; [exact Hr | apply twin_alike; exact Hw].
    + alikes.
Qed.

Lemma chapter_alike (author_path : string) acc (audio : string) :
  agree (alike format) (chapter format author_path acc audio)
    (chapter format author_path acc audio).
Proof.
  unfold chapter. apply agree_bind.
  - unfold read_transcripts. alikes.
  - intro t. apply agree_bind; [apply read_audios_alike | intro; alikes].
Qed.

Lemma pair_up_corpus (s s' : AudioPrep) (t : dict string) (a : dict (waveform * Z)) :
  corpus_of s = corpus_of s' -> pair_up s t a = pair_up s' t a.
Proof.
  intro H. assert (Hd : _phon_dict s = _phon_dict s').
  { apply (f_equal _phon_dict) in H. exact H. }
  unfold pair_up, _get_phoneme_transcription, _scale_data. rewrite Hd.
  replace (_get_mfcc s a) with (_get_mfcc s' a); [reflexivity|].
  induction a as [|[k v] a IH]; simpl; [reflexivity|]. rewrite IH. reflexivity.
Qed.

Lemma serve_author_alike (author : string) :
  agree (alike format) (serve_author format author) (serve_author format author).
Proof.
  intros w v Hs. unfold serve_author, agree_at. rewrite !bind_run. cbn [get_self].
  pose proof Hs as (Hfs & Hi & Hc & Ht & Ho).
  assert (Hp : _path (self w) = _path (self v)).
  { apply (f_equal _path) in Hc. exact Hc. }
  assert (Hf : _files (self w) = _files (self v)).
  { apply (f_equal _files) in Hc. exact Hc. }
  rewrite Hp, Hf.
  apply agree_at_bind; [apply agree_lift; exact Hs|].
  intros chapters w1 v1 Hs1.
  apply agree_at_bind.
  - apply agree_foldM; [|exact Hs1]. intros acc x. apply chapter_alike.
  - intros acc w2 v2 Hs2. unfold agree_at. rewrite !bind_run. cbn [get_self lift fst snd].
    destruct Hs2 as (Hfs2 & Hi2 & Hc2 & Ht2 & Ho2).
    rewrite (pair_up_corpus _ _ _ _ Hc2).
    split; [reflexivity | repeat split; assumption].
Qed.

Lemma serve_alike : agree (alike format) (serve format) (serve format).
Proof.
  intros w v Hs. unfold serve, agree_at. rewrite !bind_run. cbn [get_self].
  pose proof Hs as (Hfs & Hi & Hc & Ht & Ho).
  rewrite Hi, (corpus_of_author_indexes _ _ Hc).
  apply agree_at_bind; [apply agree_lift; exact Hs|].
  intros author w1 v1 Hs1. apply serve_author_alike. exact Hs1.
Qed.

Lemma alike_advanced (w v : world FS) :
  alike format w v -> alike format (advanced w) (advanced v).
Proof.
  intros (Hfs & Hi & Hc & Ht & Ho). unfold alike, advanced. cbn.
  rewrite Hi. repeat split; assumption.
Qed.

Lemma get_data_alike : agree (alike format) (get_data format) (get_data format).
Proof.
  intros w v Hs. unfold agree_at. rewrite !get_data_run.
  destruct (serve_alike _ _ (alike_advanced w v Hs)) as [Hr Hw].
  destruct (serve format (advanced w)) as [[e|r] w2],
           (serve format (advanced v)) as [[e'|r'] v2]; cbn [fst snd] in *;
    try discriminate.
  - split; [congruence | exact Hw].
  - injection Hr as <-. split; [reflexivity|].
    destruct Hw as (Hfs & Hi & Hc & Ht & Ho).
    rewrite Hi, (corpus_of_batch_count _ _ Hc).
    destruct (_index (self v2) >=? _batch_count (self v2) - 1).
    + unfold alike. cbn. repeat split; assumption.
    + repeat split; assumption.
Qed.

End Replay.

(** ** The cycle of the cursor *)

Section Cycle.

Context {FS waveform : Type} {P : Platform FS waveform}.

Lemma formats_kept_refl (format : string) (w : world FS) : formats_kept format w w.
Proof. split; reflexivity. Qed.

Lemma formats_kept_trans (format : string) (a b c : world FS) :
  formats_kept format a b -> formats_kept format b c -> formats_kept format a c.
Proof. intros [H1 H2] [H3 H4]. split; congruence. Qed.

Lemma read_audios_formats_kept (format curr_path : string) (a : dict (waveform * Z)) :
  keeps (formats_kept format) (read_audios curr_path format a).
Proof.
  intro w. unfold read_audios. rewrite bind_run, audio_parts_of_run.
  destruct (listdir (fs w) curr_path) as [e|names]; [apply formats_kept_refl|].
  destruct (filter _ names) as [|x parts].
  - rewrite bind_run, convert_block_run, bind_run.
    pose proof (convert_files_same_object curr_path (converting curr_path format w)) as [Hs _].
    assert (Hc : formats_kept format w (converting curr_path format w)).
    { split; cbn; reflexivity. }
    destruct (convert_files curr_path (converting curr_path format w)) as [[e|u] w1];
      cbn [fst snd] in *; cbv iota beta.
    + cbn [snd]. unfold formats_kept. rewrite Hs. exact Hc.
    + rewrite audio_parts_of_run.
      destruct (listdir (fs w1) curr_path) as [e|names1]; cbv iota beta.
      * cbn [snd]. unfold formats_kept. rewrite Hs. exact Hc.
      * rewrite load_audios_same_world. unfold formats_kept. rewrite Hs. exact Hc.
  - rewrite bind_run. cbn [ret]. cbv iota beta. rewrite load_audios_same_world.
    apply formats_kept_refl.
Qed.

Lemma serve_formats_kept (format : string) : keeps (formats_kept format) (serve format).
Proof.
  apply serve_frame.
  - apply formats_kept_refl.
  - apply formats_kept_trans.
  - intros. apply read_audios_formats_kept.
Qed.

(** One call: the corpus attributes and the formats are kept, and the index
    is advanced, then reset if the call returns from the last author. *)
Lemma get_data_step (format : string) (w : world FS) :
  let out := get_data format w in
  corpus_of (self (snd out)) = corpus_of (self w) /\
  formats_kept format w (snd out) /\
  _index (self (snd out)) =
    (if returned (fst out) then next_index (_batch_count (self w)) (_index (self w))
     else _index (self w) + 1).
Proof.
  cbv zeta. rewrite get_data_run.
  pose proof (serve_same_cursor format (advanced w)) as [Hi Hc].
  pose proof (serve_formats_kept format (advanced w)) as Hf.
  change (corpus_of (self (advanced w))) with (corpus_of (self w)) in Hc.
  cbn [advanced self _index set_index] in Hi.
  assert (Hf' : formats_kept format w (snd (serve format (advanced w)))) by exact Hf.
  clear Hf.
  destruct (serve format (advanced w)) as [[e|r] w2]; cbn [fst snd returned] in *.
  - repeat split; try assumption; apply Hf'.
  - unfold next_index. rewrite (corpus_of_batch_count _ _ Hc), Hi.
    destruct (_index (self w) + 1 >=? _batch_count (self w) - 1);
      cbn [self]; repeat split; try assumption; apply Hf'.
Qed.

Lemma next_index_mod (N i n : Z) :
  0 < N -> -1 <= i < N - 1 -> 0 <= n ->
  (next_index N i + 1 + n) mod N = (i + 1 + (n + 1)) mod N.
Proof.
  intros HN Hi Hn. unfold next_index.
  destruct (i + 1 >=? N - 1) eqn:E.
  - assert (i + 1 = N - 1) by lia.
    replace (i + 1 + (n + 1)) with (n + 1 * N) by lia.
    rewrite Z.mod_add by lia. reflexivity.
  - replace (i + 1 + 1 + n) with (i + 1 + (n + 1)) by lia. reflexivity.
Qed.

Lemma next_index_range (N i : Z) :
  0 < N -> -1 <= i < N - 1 -> -1 <= next_index N i < N - 1.
Proof.
  intros HN Hi. unfold next_index. destruct (i + 1 >=? N - 1) eqn:E; lia.
Qed.

(** After [n] calls that all returned, the index is [(i + 1 + n) mod N - 1]
    where [i] was the index before and [N] is the number of authors. *)
Lemma get_data_times_cursor (format : string) (n : nat) (w : world FS) :
  let out := get_data_times format n w in
  let N := _batch_count (self w) in
  0 < N -> -1 <= _index (self w) < N - 1 ->
  forallb returned (fst out) = true ->
  _index (self (snd out)) = (_index (self w) + 1 + Z.of_nat n) mod N - 1 /\
  corpus_of (self (snd out)) = corpus_of (self w) /\
  formats_kept format w (snd out).
Proof.
  revert w. induction n as [|n IH]; intros w out N HN Hi Hall.
  - subst out. cbn [get_data_times snd]. split; [|split].
    + rewrite Z.add_0_r, Z.mod_small by lia. lia.
    + reflexivity.
    + apply formats_kept_refl.
  - subst out. cbn [get_data_times] in *.
    pose proof (get_data_step format w) as (Hc & Hf & Hidx). cbv zeta in Hc, Hf, Hidx.
    destruct (get_data format w) as [r w1]. cbn [fst snd] in *.
    specialize (IH w1). cbv zeta in IH.
    destruct (get_data_times format n w1) as [rs w2]. cbn [fst snd forallb] in *.
    apply andb_true_iff in Hall as [Hr Hrs]. rewrite Hr in Hidx.
    rewrite (corpus_of_batch_count _ _ Hc) in IH. fold N in IH, Hidx.
    destruct IH as (IH1 & IH2 & IH3); [exact HN | | exact Hrs |].
    + rewrite Hidx. apply next_index_range; assumption.
    + split; [|split].
      * rewrite IH1, Hidx, next_index_mod by lia. do 2 f_equal. lia.
      * congruence.
      * eapply formats_kept_trans; eassumption.
Qed.

Lemma get_files_end (w w' : world FS) (u : unit) :
  _get_files w = (inr u, w') ->
  _index (self w') = -1 /\
  _author_indexes (self w') = dict_keys (_files (self w')) /\
  trace w' = trace w.
Proof.
  unfold _get_files. rewrite bind_run. cbn [modify_self]. rewrite bind_run.
  cbn [get_self self]. rewrite bind_run.
  match goal with |- context [subfolders ?p ?x] => 
    assert (Hsub : snd (subfolders p x) = x) by reflexivity;
    destruct (subfolders p x) as [[e|authors] w1] end; [discriminate|].
  cbn [snd] in Hsub. subst w1. rewrite bind_run.
  match goal with |- context [forM ?b ?l ?x] =>
    assert (Ht : trace (snd (forM b l x)) = trace x);
    [| destruct (forM b l x) as [[e|u'] w2] ] end.
  - apply (keeps_forM (fun a b => trace b = trace a)).
    + reflexivity.
    + intros ? ? ? H1 H2; congruence.
    + intro author.
      repeat first
        [ apply (keeps_bind (fun a b : world FS => trace b = trace a));
          [intros ? ? ? H1 H2; congruence | | intro]
        | apply (keeps_forM (fun a b : world FS => trace b = trace a));
          [reflexivity | intros ? ? ? H1 H2; congruence | intro]
        | intro; reflexivity ].
  - discriminate.
  - rewrite bind_run. cbn [modify_self]. intro H. injection H as H. subst w'.
    cbn [snd trace] in Ht. cbn. split; [reflexivity|]. split; [reflexivity | exact Ht].
Qed.

End Cycle.

Section CycleTheorem.

Context {FS waveform : Type} {P : Platform FS waveform}.

Lemma init_cursor (path : string)
  (pre_emphasis frame_size frame_stride : option Q)
  (NFFT nfilt num_ceps cep_lifter : option Z)
  (dict_path phonemes_path : option string) (fs0 : FS) (w0 : world FS) :
  __init__ path pre_emphasis frame_size frame_stride NFFT nfilt num_ceps cep_lifter
    dict_path phonemes_path fs0 = inr w0 ->
  _index (self w0) = -1 /\
  _batch_count (self w0) = Z.of_nat (List.length (_author_indexes (self w0))) /\
  trace w0 = [].
Proof.
  unfold __init__.
  match goal with |- context [match ?l with inl _ => _ | inr _ => _ end] =>
    destruct l as [e|phon_dict] end; [discriminate|].
  match goal with |- context [_get_files ?x] =>
    pose proof (get_files_end x) as Hend; destruct (_get_files x) as [[e|u] w] end;
    [discriminate|].
  destruct (Hend w u eq_refl) as (Hi & Ha & Ht).
  intro H. injection H as <-. cbn.
  split; [exact Hi|]. split; [|exact Ht].
  rewrite Ha. unfold dict_keys. rewrite length_map. reflexivity.
Qed.

Lemma list_get_nonneg {A} (l : list A) (i : Z) (x : A) :
  Py.list_get l i = Some x -> 0 <= i -> 0 < Z.of_nat (List.length l).
Proof.
  unfold Py.list_get. intros H Hi.
  destruct (i <? 0) eqn:E; [lia|].
  destruct l; [|cbn; lia]. destruct (Z.to_nat i); discriminate.
Qed.

(** A call that returns has found its author at the advanced index, and
    returns what the work for that author gives. *)
Lemma get_data_returned_author (format : string) (w w' : world FS) (r : batch) :
  get_data format w = (inr r, w') ->
  exists author,
    Py.list_get (_author_indexes (self w)) (_index (self w) + 1) = Some author /\
    fst (serve_author format author (advanced w)) = inr r.
Proof.
  rewrite get_data_run. unfold serve. rewrite bind_run. cbn [get_self].
  rewrite bind_run. unfold index_or_raise.
  cbn [lift advanced self _author_indexes _index set_index].
  destruct (Py.list_get (_author_indexes (self w)) (_index (self w) + 1)) as [author|];
    [|discriminate].
  fold (advanced w).
  destruct (serve_author format author (advanced w)) as [[e|r'] w2] eqn:Hs; [discriminate|].
  cbv iota beta. intro H. injection H as Hr _.
  exists author. split; [reflexivity|]. rewrite Hs, Hr. reflexivity.
Qed.

(** C4.  The index of a new object is [-1].  Among calls that return, the
    call after [n] calls serves the author at position [n mod N] of the
    author list ([N] authors) and leaves the index at that position, or
    at [-1] when that author is the last one: the index after [n] calls is
    [n mod N - 1], with no final state.  The call after any [n] calls
    gives what a call on the new object, with the index of that round,
    gives on the file system as it is by then; in particular after a
    whole number of rounds (the fourth call on three authors) it gives
    what the first call gave, the file system being the same. *)
Theorem cursor_cycles_over_authors (path : string)
  (pre_emphasis frame_size frame_stride : option Q)
  (NFFT nfilt num_ceps cep_lifter : option Z)
  (dict_path phonemes_path : option string) (fs0 : FS) (w0 : world FS) :
  __init__ path pre_emphasis frame_size frame_stride NFFT nfilt num_ceps cep_lifter
    dict_path phonemes_path fs0 = inr w0 ->
  let N := _batch_count (self w0) in
  _index (self w0) = -1 /\
  N = Z.of_nat (List.length (_author_indexes (self w0))) /\
  forall (format : string) (n : nat),
    let out := get_data_times format n w0 in
    let k := Z.of_nat n mod N in
    forallb returned (fst out) = true ->
    0 < N ->
    _index (self (snd out)) = k - 1 /\
    (forall r w', get_data format (snd out) = (inr r, w') ->
       _index (self w') = (if k =? N - 1 then -1 else k) /\
       exists author,
         Py.list_get (_author_indexes (self w0)) k = Some author /\
         fst (serve_author format author (advanced (snd out))) = inr r) /\
    fst (get_data format (snd out)) =
      fst (get_data format (mkWorld (set_index (k - 1) (self w0)) (fs (snd out)) [])) /\
    (k = 0 -> fs (snd out) = fs w0 ->
     fst (get_data format (snd out)) = fst (get_data format w0)).
Proof.
  intros Hinit N. destruct (init_cursor _ _ _ _ _ _ _ _ _ _ _ _ Hinit) as (Hi & Hn & Ht).
  split; [exact Hi|]. split; [exact Hn|].
  intros format n out k Hall HN.
  pose proof (get_data_times_cursor format n w0) as Hc. cbv zeta in Hc.
  fold out N in Hc. rewrite Hi in Hc.
  destruct Hc as (Hidx & Hcorp & Hfmt); [exact HN | lia | exact Hall |].
  change (-1 + 1 + Z.of_nat n) with (Z.of_nat n) in Hidx. fold k in Hidx.
  assert (Hk : 0 <= k < N) by (apply Z.mod_pos_bound; exact HN).
  assert (Halike : alike format (snd out)
            (mkWorld (set_index (k - 1) (self w0)) (fs (snd out)) [])).
  { destruct Hfmt as [Hf1 Hf2]. unfold alike. cbn.
    repeat split; assumption. }
  split; [exact Hidx|]. split; [|split].
  - intros r w' Hcall.
    pose proof (get_data_step format (snd out)) as (_ & _ & Hnext). cbv zeta in Hnext.
    destruct (get_data_returned_author format _ _ _ Hcall) as (author & Ha & Hs).
    rewrite Hcall in Hnext. cbn [fst snd returned] in Hnext.
    rewrite (corpus_of_batch_count _ _ Hcorp), Hidx in Hnext. fold N in Hnext.
    unfold next_index in Hnext.
    split.
    + rewrite Hnext.
      destruct (k =? N - 1) eqn:E1, (k - 1 + 1 >=? N - 1) eqn:E2; lia.
    + exists author. split; [|exact Hs].
      rewrite (corpus_of_author_indexes _ _ Hcorp), Hidx in Ha.
      replace (k - 1 + 1) with k in Ha by lia. exact Ha.
  - apply (get_data_alike format _ _ Halike).
  - intros Hk0 Hfs.
    rewrite (proj1 (get_data_alike format _ _ Halike)).
    apply (get_data_alike format).
    unfold alike. cbn. rewrite Hk0, Hi, Hfs. repeat split; reflexivity.
Qed.

End CycleTheorem.

(** ** Dictionaries *)

Section DictFacts.

Context {V : Type}.

Lemma dict_get_set_same (d : dict V) (k : string) (v : V) :
  dict_get (dict_set d k v) k = Some v.
Proof.
  induction d as [|[k' v'] d IH]; simpl.
  - rewrite String.eqb_refl. reflexivity.
  - destruct (String.eqb k' k) eqn:E; simpl.
    + rewrite String.eqb_refl. reflexivity.
    + rewrite E. exact IH.
Qed.

Lemma dict_get_set_other (d : dict V) (k k' : string) (v : V) :
  k <> k' -> dict_get (dict_set d k v) k' = dict_get d k'.
Proof.
  intro Hne. induction d as [|[k0 v0] d IH]; simpl.
  - destruct (String.eqb_spec k k'); [contradiction | reflexivity].
  - destruct (String.eqb_spec k0 k) as [->|Hk]; simpl.
    + destruct (String.eqb_spec k k'); [contradiction | reflexivity].
    + destruct (String.eqb k0 k'); [reflexivity | exact IH].
Qed.

Lemma dict_get_none (d : dict V) (k : string) :
  ~ In k (dict_keys d) -> dict_get d k = None.
Proof.
  induction d as [|[k' v'] d IH]; simpl; intro H.
  - reflexivity.
  - destruct (String.eqb_spec k' k) as [->|Hk].
    + exfalso. apply H. left. reflexivity.
    + apply IH. intro Hin. apply H. right. exact Hin.
Qed.

Lemma dict_get_in (d : dict V) (k : string) (v : V) :
  dict_get d k = Some v -> In k (dict_keys d).
Proof.
  induction d as [|[k' v'] d IH]; simpl; intro H.
  - discriminate.
  - destruct (String.eqb_spec k' k) as [->|Hk].
    + left. reflexivity.
    + right. apply IH. exact H.
Qed.

End DictFacts.

(** ** The transcript decoder *)

Lemma append_empty_r (s : string) : (s ++ "")%string = s.
Proof. induction s; simpl; [reflexivity | rewrite IHs; reflexivity]. Qed.

Lemma append_assoc (a b c : string) : ((a ++ b) ++ c)%string = (a ++ (b ++ c))%string.
Proof. induction a; simpl; [reflexivity | rewrite IHa; reflexivity]. Qed.

Lemma split_from_space (a b cur : string) (c : ascii) :
  Py.isspace c = true ->
  Py.split_from cur (a ++ String c b) = (Py.split_from cur a ++ Py.split b)%list.
Proof.
  intro Hc. revert cur. induction a as [|x a IH]; intro cur; simpl.
  - rewrite Hc. destruct cur; reflexivity.
  - destruct (Py.isspace x).
    + destruct cur; simpl; rewrite IH; reflexivity.
    + apply IH.
Qed.

Lemma split_from_word (w cur : string) :
  no_space w = true ->
  Py.split_from cur w =
  match (cur ++ w)%string with EmptyString => [] | _ => [(cur ++ w)%string] end.
Proof.
  revert cur. induction w as [|x w IH]; intros cur H; simpl in *.
  - rewrite append_empty_r. reflexivity.
  - apply andb_true_iff in H as [Hx Hw]. apply negb_true_iff in Hx. rewrite Hx.
    rewrite IH by exact Hw. rewrite append_assoc. reflexivity.
Qed.

Lemma phrase_of_valid (d : dict (list phoneme)) (words : list string) (phrase : list phoneme) :
  snd (phrase_of d words phrase) = forallb (dict_mem d) words.
Proof.
  revert phrase. induction words as [|w words IH]; intro phrase; simpl.
  - reflexivity.
  - unfold dict_mem at 1. destruct (dict_get d w); simpl; [apply IH | reflexivity].
Qed.

Lemma phrase_of_phrase (d : dict (list phoneme)) (words : list string) (phrase : list phoneme) :
  forallb (dict_mem d) words = true ->
  fst (phrase_of d words phrase) = (phrase ++ concat (map (phonemes_of d) words))%list.
Proof.
  revert phrase. induction words as [|w words IH]; intros phrase H; simpl in *.
  - rewrite app_nil_r. reflexivity.
  - apply andb_true_iff in H as [Hw Hws]. unfold dict_mem in Hw. unfold phonemes_of at 1.
    destruct (dict_get d w) as [ph|]; [|discriminate]. simpl.
    rewrite IH by exact Hws. rewrite <- app_assoc. reflexivity.
Qed.

(** One step of the loop over the transcripts. *)
Lemma decode_step (d : dict (list phoneme)) (text : string) :
  (let '(phrase, valid) := phrase_of d (Py.split text) [] in
   if valid then Some (Py.drop_last phrase) else None) = decode d text.
Proof.
  unfold decode.
  pose proof (phrase_of_valid d (Py.split text) []) as Hv.
  pose proof (phrase_of_phrase d (Py.split text) []) as Hp.
  destruct (phrase_of d (Py.split text) []) as [phrase valid]. cbn [fst snd] in *.
  rewrite <- Hv. destruct valid; [|reflexivity].
  rewrite Hp by congruence. reflexivity.
Qed.

Lemma get_phoneme_transcription_fold (d : dict (list phoneme)) (l : dict string)
  (acc : dict (list phoneme)) (key : string) :
  NoDup (dict_keys l) ->
  dict_get
    (fold_left (fun phoneme_transcripts kv =>
       let key := fst kv in
       let transcript := snd kv in
       let words := Py.split transcript in
       let '(phrase, valid) := phrase_of d words [] in
       if valid then dict_set phoneme_transcripts key (Py.drop_last phrase)
       else phoneme_transcripts) l acc) key =
  match dict_get l key with
  | Some text =>
      match decode d text with
      | Some p => Some p
      | None => dict_get acc key
      end
  | None => dict_get acc key
  end.
Proof.
  revert acc. induction l as [|[k t] l IH]; intros acc Hnd; cbn [fold_left dict_get].
  - reflexivity.
  - inversion Hnd as [|? ? Hnotin Hnd']; subst. rewrite IH by exact Hnd'.
    cbn [fst snd]. pose proof (decode_step d t) as Hstep.
    destruct (phrase_of d (Py.split t) []) as [phrase valid].
    destruct (String.eqb_spec k key) as [->|Hne].
    + rewrite (dict_get_none l key Hnotin). rewrite <- Hstep.
      destruct valid; [apply dict_get_set_same | reflexivity].
    + destruct valid; [|reflexivity].
      rewrite (dict_get_set_other acc k key _ Hne). reflexivity.
Qed.

(** The white space among the code points below 256. *)
Lemma isspace_chars (c : ascii) :
  Py.isspace c = true <->
  In (nat_of_ascii c) [9; 10; 11; 12; 13; 28; 29; 30; 31; 32; 133; 160]%nat.
Proof.
  destruct c as [b0 b1 b2 b3 b4 b5 b6 b7].
  destruct b0, b1, b2, b3, b4, b5, b6, b7; vm_compute; split; intro H;
    try reflexivity; try discriminate H;
    try (repeat (destruct H as [H|H]; [discriminate H|]); destruct H);
    repeat (first [left; reflexivity | right]).
Qed.

(** C5.  [str.split()] cuts the text at its white space, which among the
    code points below 256 is the characters 9 to 13, 28 to 32, 133 and
    160 (it gives nothing for the empty text, the word itself for a word,
    and what the two sides give around a white space character).  A
    transcript with a word the dictionary lacks has no entry in the
    decoded map; any other has the phonemes of its words, in the order of
    the words, without the last phoneme.  With the dictionary
    [cat -> K AE T sil], "the cat" has no entry and "cat" has [K AE T]. *)
Theorem decoder_drops_unknown_and_trims :
  ((forall c, Py.isspace c = true <->
      In (nat_of_ascii c) [9; 10; 11; 12; 13; 28; 29; 30; 31; 32; 133; 160]%nat) /\
   Py.split "" = [] /\
   (forall w, no_space w = true -> w <> ""%string -> Py.split w = [w]) /\
   (forall a b c, Py.isspace c = true ->
      Py.split (a ++ String c b) = (Py.split a ++ Py.split b)%list)) /\
  (forall (s : AudioPrep) (transcriptions : dict string) (key : string),
     NoDup (dict_keys transcriptions) ->
     dict_get (_get_phoneme_transcription s transcriptions) key =
     match dict_get transcriptions key with
     | Some text =>
         if forallb (dict_mem (_phon_dict s)) (Py.split text)
         then Some (removelast
                      (concat (map (phonemes_of (_phon_dict s)) (Py.split text))))
         else None
     | None => None
     end) /\
  (forall s : AudioPrep,
     _phon_dict s = [("cat", ["K"; "AE"; "T"; "sil"])] ->
     _get_phoneme_transcription s [("utt1", " the cat"); ("utt2", " cat")] =
       [("utt2", ["K"; "AE"; "T"])]).
Proof.
  split; [|split].
  - split; [exact isspace_chars|]. split; [reflexivity|]. split.
    + intros w Hw Hne. unfold Py.split. rewrite split_from_word by exact Hw.
      simpl. destruct w; [contradiction | reflexivity].
    + intros a b c Hc. apply split_from_space. exact Hc.
  - intros s transcriptions key Hnd. unfold _get_phoneme_transcription.
    rewrite get_phoneme_transcription_fold by exact Hnd.
    destruct (dict_get transcriptions key) as [text|]; [|reflexivity].
    unfold decode. destruct (forallb _ _); reflexivity.
  - intros s Hd. unfold _get_phoneme_transcription. rewrite Hd. reflexivity.
Qed.

(** ** The pairing of phonemes and features *)

Lemma dict_set_keys_nodup {V} (d : dict V) (k : string) (v : V) :
  NoDup (dict_keys d) -> NoDup (dict_keys (dict_set d k v)).
Proof.
  induction d as [|[k' v'] d IH]; simpl; intro H.
  - constructor; [intros [] | constructor].
  - inversion H as [|? ? Hnotin Hnd]; subst.
    destruct (String.eqb_spec k' k) as [->|Hne]; simpl.
    + constructor; assumption.
    + constructor; [|apply IH; exact Hnd].
      intro Hin. apply Hnotin.
      clear - Hin Hne. induction d as [|[k0 v0] d IH]; simpl in *.
      * destruct Hin as [->|[]]. contradiction.
      * destruct (String.eqb_spec k0 k) as [->|Hk]; simpl in *.
        -- exact Hin.
        -- destruct Hin as [->|Hin]; [left; reflexivity | right; apply IH; exact Hin].
Qed.

Lemma get_phoneme_transcription_nodup (s : AudioPrep) (transcriptions : dict string) :
  NoDup (dict_keys (_get_phoneme_transcription s transcriptions)).
Proof.
  unfold _get_phoneme_transcription.
  assert (H : NoDup (dict_keys ([] : dict (list phoneme)))) by constructor.
  revert H. generalize ([] : dict (list phoneme)).
  induction transcriptions as [|[k t] l IH]; intros acc H; cbn [fold_left].
  - exact H.
  - apply IH. cbn [fst snd].
    destruct (phrase_of (_phon_dict s) (Py.split t) []) as [phrase valid].
    destruct valid; [apply dict_set_keys_nodup; exact H | exact H].
Qed.

(** The loop that pairs every decoded transcript with its features. *)
Lemma pairing_loop (scaled_mfcc : dict matrix) (l : dict (list phoneme)) (acc : batch) :
  NoDup (dict_keys l) ->
  match
    fold_exn (fun result kv =>
      match lookup_or_raise scaled_mfcc (fst kv) with
      | inl e => inl e
      | inr m => inr (dict_set result (fst kv) (snd kv, m))
      end) l acc
  with
  | inr result =>
      (forall key, In key (dict_keys l) -> dict_mem scaled_mfcc key = true) /\
      (forall key, dict_get result key =
         match dict_get l key with
         | Some _ => joined l scaled_mfcc key
         | None => dict_get acc key
         end)
  | inl e =>
      e = KeyError /\ exists key, In key (dict_keys l) /\ dict_get scaled_mfcc key = None
  end.
Proof.
  revert acc. induction l as [|[k p] l IH]; intros acc Hnd; cbn [fold_exn].
  - split; [intros key [] | intro key; reflexivity].
  - inversion Hnd as [|? ? Hnotin Hnd']; subst. cbn [fst snd].
    unfold lookup_or_raise. destruct (dict_get scaled_mfcc k) as [m|] eqn:Hk.
    + specialize (IH (dict_set acc k (p, m)) Hnd').
      destruct (fold_exn _ l (dict_set acc k (p, m))) as [e|result].
      * destruct IH as [He (key & Hin & Hnone)].
        split; [exact He|]. exists key. split; [right; exact Hin | exact Hnone].
      * destruct IH as [Hall Hget]. split.
        -- intros key Hin. cbn in Hin. destruct Hin as [<-|Hin];
             [unfold dict_mem; rewrite Hk; reflexivity | apply Hall, Hin].
        -- intro key. rewrite Hget. unfold joined. cbn [dict_get].
           destruct (String.eqb_spec k key) as [->|Hne].
           ++ rewrite (dict_get_none l key Hnotin), dict_get_set_same, Hk. reflexivity.
           ++ destruct (dict_get l key); [reflexivity|].
              apply dict_get_set_other. exact Hne.
    + split; [reflexivity|]. exists k. split; [left; reflexivity | exact Hk].
Qed.

Section Pairing.

Context {FS waveform : Type} {P : Platform FS waveform}.

(** What [pair_up] returns, and why it raises. *)
Lemma pair_up_spec (s : AudioPrep) (transcripts : dict string) (audios : dict (waveform * Z)) :
  let phon_transcripts := _get_phoneme_transcription s transcripts in
  match pair_up s transcripts audios with
  | inr result =>
      exists keys mfccs scaled_mfcc,
        _get_mfcc s audios = inr (keys, mfccs) /\
        _scale_data s keys mfccs = inr scaled_mfcc /\
        (forall key, dict_mem phon_transcripts key = true ->
                     dict_mem scaled_mfcc key = true) /\
        (forall key, dict_get result key = joined phon_transcripts scaled_mfcc key)
  | inl e =>
      _get_mfcc s audios = inl e \/
      (exists keys mfccs, _get_mfcc s audios = inr (keys, mfccs) /\
         (_scale_data s keys mfccs = inl e \/
          exists scaled_mfcc, _scale_data s keys mfccs = inr scaled_mfcc /\
            e = KeyError /\
            exists key, dict_mem phon_transcripts key = true /\
                        dict_get scaled_mfcc key = None))
  end.
Proof.
  intro phon. unfold pair_up.
  destruct (_get_mfcc s audios) as [e|[keys mfccs]]; [left; reflexivity|].
  destruct (_scale_data s keys mfccs) as [e|scaled] eqn:Hs.
  - right. exists keys, mfccs. split; [reflexivity | left; exact Hs].
  - fold phon.
    pose proof (pairing_loop scaled phon [] (get_phoneme_transcription_nodup s transcripts))
      as Hloop.
    fold phon in Hloop.
    match type of Hloop with match ?x with _ => _ end => destruct x as [e|result] end.
    + destruct Hloop as [He (key & Hin & Hnone)].
      right. exists keys, mfccs. split; [reflexivity|]. right.
      exists scaled. split; [exact Hs|]. split; [exact He|].
      exists key. split; [|exact Hnone].
      unfold dict_mem. destruct (dict_get phon key) eqn:E; [reflexivity|].
      exfalso. clear - Hin E. induction phon as [|[k v] l IH]; simpl in *; [contradiction|].
      destruct (String.eqb_spec k key); [discriminate|].
      destruct Hin as [->|Hin]; [contradiction | exact (IH Hin E)].
    + destruct Hloop as [Hall Hget].
      exists keys, mfccs, scaled. split; [reflexivity|]. split; [exact Hs|]. split.
      * intros key Hmem. apply Hall. unfold dict_mem in Hmem.
        destruct (dict_get phon key) eqn:E; [|discriminate].
        exact (dict_get_in _ _ _ E).
      * intro key. rewrite Hget. unfold joined.
        destruct (dict_get phon key); reflexivity.
Qed.

Lemma serve_author_run (format author : string) (w : world FS) :
  serve_author format author w =
  match dict_get (_files (self w)) author with
  | None => (inl KeyError, w)
  | Some chapters =>
      match foldM (chapter format (Py.path_join (_path (self w)) author)) chapters
              ([], []) w with
      | (inl e, w1) => (inl e, w1)
      | (inr acc, w1) => (pair_up (self w1) (fst acc) (snd acc), w1)
      end
  end.
Proof.
  unfold serve_author. rewrite bind_run. cbn [get_self]. rewrite bind_run.
  unfold lookup_or_raise. cbn [lift].
  destruct (dict_get (_files (self w)) author) as [chapters|]; [|reflexivity].
  rewrite bind_run.
  destruct (foldM (chapter format (Py.path_join (_path (self w)) author)) chapters
              ([], []) w) as [[e|acc] w1]; [reflexivity|].
  rewrite bind_run. reflexivity.
Qed.

Lemma serve_run (format : string) (w : world FS) :
  serve format w =
  match Py.list_get (_author_indexes (self w)) (_index (self w)) with
  | None => (inl IndexError, w)
  | Some author => serve_author format author w
  end.
Proof.
  unfold serve. rewrite bind_run. cbn [get_self]. rewrite bind_run.
  unfold index_or_raise. cbn [lift].
  destruct (Py.list_get (_author_indexes (self w)) (_index (self w))); reflexivity.
Qed.

Lemma get_data_gathered (format : string) (w : world FS) :
  fst (get_data format w) =
  match gathered format w with
  | Some (acc, w1) => pair_up (self w1) (fst acc) (snd acc)
  | None => fst (get_data format w)
  end /\
  (gathered format w = None -> returned (fst (get_data format w)) = false).
Proof.
  rewrite get_data_run, serve_run. unfold gathered.
  cbn [advanced self _author_indexes _index set_index _files _path].
  destruct (Py.list_get (_author_indexes (self w)) (_index (self w) + 1)) as [author|];
    [|split; reflexivity].
  rewrite serve_author_run. cbn [advanced self _files _path set_index]. fold (advanced w).
  destruct (dict_get (_files (self w)) author) as [chapters|]; [|split; reflexivity].
  destruct (foldM (chapter format (Py.path_join (_path (self w)) author)) chapters
              ([], []) (advanced w)) as [[e|acc] w1]; [split; reflexivity|].
  destruct (pair_up (self w1) (fst acc) (snd acc)); split; try reflexivity; discriminate.
Qed.

End Pairing.

Section Batch.

Context {FS waveform : Type} {P : Platform FS waveform}.

(** C1 (as the code has it).  A call that does not gather the transcripts
    and audios of its author raises.  When it has gathered them, a batch
    it returns holds exactly the keys of the decoded-phoneme map, every one
    of them a key of the scaled-feature map too, each with its phonemes
    (which may be none) and its features; a transcript that does not
    decode has no entry.  The call raises, with [KeyError] and without any
    batch, when a decoded key has no features. *)
Theorem batch_joins_phonemes_and_features (format : string) (w : world FS) :
  match gathered format w with
  | None => returned (fst (get_data format w)) = false
  | Some (acc, w1) =>
      let phon_transcripts := _get_phoneme_transcription (self w1) (fst acc) in
      match fst (get_data format w) with
      | inr result =>
          exists keys mfccs scaled_mfcc,
            _get_mfcc (self w1) (snd acc) = inr (keys, mfccs) /\
            _scale_data (self w1) keys mfccs = inr scaled_mfcc /\
            (forall key, dict_mem result key = dict_mem phon_transcripts key) /\
            (forall key, dict_mem phon_transcripts key = true ->
                         dict_mem scaled_mfcc key = true) /\
            (forall key, dict_get result key = joined phon_transcripts scaled_mfcc key)
      | inl e =>
          _get_mfcc (self w1) (snd acc) = inl e \/
          (exists keys mfccs, _get_mfcc (self w1) (snd acc) = inr (keys, mfccs) /\
             (_scale_data (self w1) keys mfccs = inl e \/
              exists scaled_mfcc, _scale_data (self w1) keys mfccs = inr scaled_mfcc /\
                e = KeyError /\
                exists key, dict_mem phon_transcripts key = true /\
                            dict_get scaled_mfcc key = None))
      end
  end.
Proof.
  destruct (get_data_gathered format w) as [Hg Hnone].
  destruct (gathered format w) as [[acc w1]|]; [|apply Hnone; reflexivity].
  cbv zeta. rewrite Hg.
  pose proof (pair_up_spec (self w1) (fst acc) (snd acc)) as Hs. cbv zeta in Hs.
  destruct (pair_up (self w1) (fst acc) (snd acc)) as [e|result]; [exact Hs|].
  destruct Hs as (keys & mfccs & scaled & Hm & Hsc & Hall & Hget).
  exists keys, mfccs, scaled. split; [exact Hm|]. split; [exact Hsc|].
  split; [|split; [exact Hall | exact Hget]].
  intro key. unfold dict_mem at 1. rewrite Hget. unfold joined.
  specialize (Hall key). unfold dict_mem in *.
  destruct (dict_get (_get_phoneme_transcription (self w1) (fst acc)) key); [|reflexivity].
  specialize (Hall eq_refl). destruct (dict_get scaled key); [reflexivity | discriminate].
Qed.

(** C7 (as the code has it).  A chapter directory that lists no file ending
    in [.txt] makes the call raise [IndexError] there and then: at the
    chapter, and in [get_data] once the chapters before it are done.  A
    directory that lists several is no error: the first one listed is the
    one that is opened, whatever the others are. *)
Theorem transcript_missing_raises_index_error :
  (forall (curr_path : string) (t : dict string) (w : world FS) (names : list string),
     listdir (fs w) curr_path = inr names ->
     filter (fun file => Py.endswith file ".txt") names = [] ->
     read_transcripts curr_path t w = (inl IndexError, w)) /\
  (forall (format : string) (w w1 : world FS) (author : string)
          (pre post : list string) (c : string) acc (names : list string),
     Py.list_get (_author_indexes (self w)) (_index (self w) + 1) = Some author ->
     dict_get (_files (self w)) author = Some (pre ++ c :: post)%list ->
     let author_path := Py.path_join (_path (self w)) author in
     foldM (chapter format author_path) pre ([], []) (advanced w) = (inr acc, w1) ->
     listdir (fs w1) (Py.path_join author_path c) = inr names ->
     filter (fun file => Py.endswith file ".txt") names = [] ->
     get_data format w = (inl IndexError, w1)) /\
  (forall (curr_path : string) (t : dict string) (w : world FS)
          (names rest : list string) (first : string),
     listdir (fs w) curr_path = inr names ->
     filter (fun file => Py.endswith file ".txt") names = first :: rest ->
     read_transcripts curr_path t w =
     (match open_lines (fs w) (Py.path_join curr_path first) with
      | inl e => inl e
      | inr lines =>
          inr (fold_left (fun t line =>
                 let split := Py.find line " " in
                 dict_set t (Py.slice_to line split) (Py.slice_from line split))
               (map Py.rstrip_newline lines) t)
      end, w)).
Proof.
  split; [|split].
  - intros curr_path t w names Hl Hf. unfold read_transcripts.
    rewrite bind_run. cbn [read]. rewrite Hl. rewrite bind_run, Hf. reflexivity.
  - intros format w w1 author pre post c acc names Ha Hc author_path Hpre Hl Hf.
    rewrite get_data_run, serve_run.
    cbn [advanced self _author_indexes _index set_index]. rewrite Ha.
    rewrite serve_author_run. cbn [advanced self _files _path set_index].
    fold (advanced w). rewrite Hc. fold author_path.
    rewrite foldM_app, Hpre. cbn [foldM]. rewrite bind_run.
    assert (Hrt : read_transcripts (Py.path_join author_path c) (fst acc) w1 =
                  (inl IndexError, w1)).
    { unfold read_transcripts.
      rewrite bind_run. cbn [read]. rewrite Hl. rewrite bind_run, Hf. reflexivity. }
    unfold chapter at 1. rewrite bind_run, Hrt. reflexivity.
  - intros curr_path t w names rest first Hl Hf. unfold read_transcripts.
    rewrite bind_run. cbn [read]. rewrite Hl. rewrite bind_run, Hf.
    change (index_or_raise (first :: rest) 0) with (@inr exn string first).
    cbn [lift]. rewrite bind_run. cbn [read].
    destruct (open_lines (fs w) (Py.path_join curr_path first)); reflexivity.
Qed.

(** The dictionary the constructor loads. *)
Lemma init_loads (path : string)
  (pre_emphasis frame_size frame_stride : option Q)
  (NFFT nfilt num_ceps cep_lifter : option Z)
  (dict_path phonemes_path : option string) (fs0 : FS) (e : exn) :
  get_phoneme_dict fs0 dict_path phonemes_path = inl e ->
  __init__ path pre_emphasis frame_size frame_stride NFFT nfilt num_ceps cep_lifter
    dict_path phonemes_path fs0 = inl e.
Proof.
  intro H. unfold __init__.
  destruct dict_path, phonemes_path; rewrite H; reflexivity.
Qed.

(** C8 (as the code has it).  The constructor raises at once when the
    listing of the root path raises (as it does for a path that does not
    exist): the exception is the one of the listing, unless loading the
    dictionary has raised before. *)
Theorem init_raises_when_root_listing_raises (path : string)
  (pre_emphasis frame_size frame_stride : option Q)
  (NFFT nfilt num_ceps cep_lifter : option Z)
  (dict_path phonemes_path : option string) (fs0 : FS) (e : exn) :
  listdir fs0 path = inl e ->
  __init__ path pre_emphasis frame_size frame_stride NFFT nfilt num_ceps cep_lifter
    dict_path phonemes_path fs0 =
  match get_phoneme_dict fs0 dict_path phonemes_path with
  | inl e' => inl e'
  | inr _ => inl e
  end.
Proof.
  intro Hl.
  destruct (get_phoneme_dict fs0 dict_path phonemes_path) as [e'|d] eqn:Hd.
  - apply init_loads. exact Hd.
  - unfold __init__.
    assert (Hload :
      match dict_path with
      | None =>
          match phonemes_path with
          | None => get_phoneme_dict fs0 None None
          | Some _ => get_phoneme_dict fs0 None phonemes_path
          end
      | Some _ =>
          match phonemes_path with
          | Some _ => get_phoneme_dict fs0 dict_path phonemes_path
          | None => get_phoneme_dict fs0 dict_path None
          end
      end = inr d).
    { destruct dict_path, phonemes_path; exact Hd. }
    rewrite Hload. unfold _get_files. rewrite bind_run. cbn [modify_self].
    rewrite bind_run. cbn [get_self self _path set_files]. rewrite bind_run.
    unfold subfolders. cbn [read fs]. rewrite Hl. reflexivity.
Qed.

(** C2.  [_get_mfcc] hands the library the signal and the sample rate and
    nothing else: the features it returns are the same whatever
    pre-emphasis, frame size, frame stride, FFT length, number of filters,
    number of coefficients and lifter the object was built with.  So the
    frames cannot have [_num_ceps] coefficients each: whenever a frame is
    extracted, the same frame is extracted for an object whose [_num_ceps]
    is not the length of the frame. *)
Theorem get_mfcc_ignores_configuration :
  (forall (s s' : AudioPrep) (audios : dict (waveform * Z)),
     _get_mfcc s audios = _get_mfcc s' audios) /\
  (forall (s : AudioPrep) (audios : dict (waveform * Z)) keys mfccs m row,
     _get_mfcc s audios = inr (keys, mfccs) -> In m mfccs -> In row m ->
     exists s',
       corpus_of (set_num_ceps 0 s') = corpus_of (set_num_ceps 0 s) /\
       _get_mfcc s' audios = inr (keys, mfccs) /\
       _num_ceps s' <> Z.of_nat (List.length row)).
Proof.
  assert (Hsame : forall (s s' : AudioPrep) (audios : dict (waveform * Z)),
            _get_mfcc s audios = _get_mfcc s' audios).
  { intros s s' audios. induction audios as [|[key value] rest IH]; simpl.
    - reflexivity.
    - rewrite IH. reflexivity. }
  split; [exact Hsame|].
  intros s audios keys mfccs m row Hm _ _.
  exists (set_num_ceps (Z.of_nat (List.length row) + 1) s).
  split; [reflexivity|]. split.
  - rewrite <- Hm. apply Hsame.
  - cbn. lia.
Qed.

End Batch.

(** ** The scaling of the features *)

(** *** The order of the floating-point numbers *)

Ltac order_cases :=
  repeat match goal with
  | H : context [Z.compare ?a ?b] |- _ => destruct (Z.compare_spec a b); try subst
  | H : context [Pos.compare_cont Eq ?a ?b] |- _ =>
      change (Pos.compare_cont Eq a b) with (Pos.compare a b) in H;
      destruct (Pos.compare_spec a b); try subst
  | |- context [Z.compare ?a ?b] => destruct (Z.compare_spec a b); try subst
  | |- context [Pos.compare_cont Eq ?a ?b] =>
      change (Pos.compare_cont Eq a b) with (Pos.compare a b);
      destruct (Pos.compare_spec a b); try subst
  end;
  cbn in *; try reflexivity; try discriminate; try lia.

Lemma leb_refl (a : F64.t) : F64.is_nan a = false -> F64.leb a a = true.
Proof.
  unfold F64.leb, SFleb.
  destruct a as [s|s| |s m e]; try destruct s; cbn; intro H;
    try reflexivity; try discriminate; order_cases.
Qed.

Lemma leb_total (a b : F64.t) :
  F64.is_nan a = false -> F64.is_nan b = false -> F64.leb a b = false ->
  F64.leb b a = true.
Proof.
  unfold F64.leb, SFleb.
  destruct a as [s|s| |s m e]; destruct b as [s'|s'| |s' m' e'];
    try destruct s; try destruct s'; cbn; intros Ha Hb H;
    try reflexivity; try discriminate; order_cases.
Qed.

Lemma leb_trans (a b c : F64.t) :
  F64.leb a b = true -> F64.leb b c = true -> F64.leb a c = true.
Proof.
  unfold F64.leb, SFleb.
  destruct a as [s|s| |s m e]; destruct b as [s'|s'| |s' m' e'];
    destruct c as [s''|s''| |s'' m'' e''];
    try destruct s; try destruct s'; try destruct s''; cbn; intros H1 H2;
    try reflexivity; try discriminate; order_cases.
Qed.

Lemma leb_not_nan (a b : F64.t) :
  F64.leb a b = true -> F64.is_nan a = false /\ F64.is_nan b = false.
Proof.
  unfold F64.leb, SFleb.
  destruct a as [s|s| |s m e]; destruct b as [s'|s'| |s' m' e']; cbn; intro H;
    try discriminate; split; reflexivity.
Qed.

(** Two numbers that compare equal are the same, or are two zeros. *)
Lemma eqb_cases (a b : F64.t) :
  F64.eqb a b = true ->
  a = b \/ exists s s', a = S754_zero s /\ b = S754_zero s'.
Proof.
  unfold F64.eqb, SFeqb.
  destruct a as [s|s| |s m e]; destruct b as [s'|s'| |s' m' e'];
    try destruct s; try destruct s'; cbn; intro H;
    try discriminate; try (left; reflexivity); try (right; eauto; fail);
    order_cases; left; reflexivity.
Qed.

(** *** The least and the greatest value of a frame *)

Lemma fmin_le_l (a b : F64.t) :
  F64.is_nan a = false -> F64.leb (Sklearn.fmin a b) a = true.
Proof.
  intro Ha. unfold Sklearn.fmin.
  destruct (F64.leb a b) eqn:Hab; cbn [orb]; [apply leb_refl; exact Ha|].
  destruct (F64.is_nan b) eqn:Hb; [apply leb_refl; exact Ha|].
  apply leb_total; assumption.
Qed.

Lemma fmin_le_r (a b : F64.t) :
  F64.is_nan b = false -> F64.leb (Sklearn.fmin a b) b = true.
Proof.
  intro Hb. unfold Sklearn.fmin. rewrite Hb, orb_false_r.
  destruct (F64.leb a b) eqn:Hab; [exact Hab | apply leb_refl; exact Hb].
Qed.

Lemma fmax_ge_l (a b : F64.t) :
  F64.is_nan a = false -> F64.leb a (Sklearn.fmax a b) = true.
Proof.
  intro Ha. unfold Sklearn.fmax.
  destruct (F64.leb b a) eqn:Hba; cbn [orb]; [apply leb_refl; exact Ha|].
  destruct (F64.is_nan b) eqn:Hb; [apply leb_refl; exact Ha|].
  apply leb_total; assumption.
Qed.

Lemma fmax_ge_r (a b : F64.t) :
  F64.is_nan b = false -> F64.leb b (Sklearn.fmax a b) = true.
Proof.
  intro Hb. unfold Sklearn.fmax. rewrite Hb, orb_false_r.
  destruct (F64.leb b a) eqn:Hba; [exact Hba | apply leb_refl; exact Hb].
Qed.

Lemma fold_fmin_in (r : list F64.t) (x : F64.t) :
  In (fold_left Sklearn.fmin r x) (x :: r).
Proof.
  revert x. induction r as [|a r IH]; intro x; cbn [fold_left].
  - left. reflexivity.
  - destruct (IH (Sklearn.fmin x a)) as [H|H].
    + rewrite <- H. unfold Sklearn.fmin.
      destruct (_ || _); [left | right; left]; reflexivity.
    + right. right. exact H.
Qed.

Lemma fold_fmax_in (r : list F64.t) (x : F64.t) :
  In (fold_left Sklearn.fmax r x) (x :: r).
Proof.
  revert x. induction r as [|a r IH]; intro x; cbn [fold_left].
  - left. reflexivity.
  - destruct (IH (Sklearn.fmax x a)) as [H|H].
    + rewrite <- H. unfold Sklearn.fmax.
      destruct (_ || _); [left | right; left]; reflexivity.
    + right. right. exact H.
Qed.

Lemma fold_fmin_le (r : list F64.t) (x y : F64.t) :
  In y (x :: r) -> F64.is_nan y = false ->
  F64.leb (fold_left Sklearn.fmin r x) y = true.
Proof.
  revert x y. induction r as [|a r IH]; intros x y Hy Hnan; cbn [fold_left].
  - destruct Hy as [<-|[]]. apply leb_refl. exact Hnan.
  - destruct Hy as [<-|[<-|Hy]].
    + pose proof (fmin_le_l x a Hnan) as Hl.
      apply leb_trans with (b := Sklearn.fmin x a); [|exact Hl].
      apply IH; [left; reflexivity | apply (leb_not_nan _ _ Hl)].
    + pose proof (fmin_le_r x a Hnan) as Hr.
      apply leb_trans with (b := Sklearn.fmin x a); [|exact Hr].
      apply IH; [left; reflexivity | apply (leb_not_nan _ _ Hr)].
    + apply IH; [right; exact Hy | exact Hnan].
Qed.

Lemma fold_fmax_ge (r : list F64.t) (x y : F64.t) :
  In y (x :: r) -> F64.is_nan y = false ->
  F64.leb y (fold_left Sklearn.fmax r x) = true.
Proof.
  revert x y. induction r as [|a r IH]; intros x y Hy Hnan; cbn [fold_left].
  - destruct Hy as [<-|[]]. apply leb_refl. exact Hnan.
  - destruct Hy as [<-|[<-|Hy]].
    + pose proof (fmax_ge_l x a Hnan) as Hl.
      apply leb_trans with (b := Sklearn.fmax x a); [exact Hl|].
      apply IH; [left; reflexivity | apply (leb_not_nan _ _ Hl)].
    + pose proof (fmax_ge_r x a Hnan) as Hr.
      apply leb_trans with (b := Sklearn.fmax x a); [exact Hr|].
      apply IH; [left; reflexivity | apply (leb_not_nan _ _ Hr)].
    + apply IH; [right; exact Hy | exact Hnan].
Qed.

(** The least value of a frame is one of its values and is below every
    value that is a number; so is the greatest, above them. *)
Lemma data_min_spec (row : list F64.t) :
  row <> [] ->
  In (Sklearn.data_min row) row /\
  forall x, In x row -> F64.is_nan x = false -> F64.leb (Sklearn.data_min row) x = true.
Proof.
  destruct row as [|a r]; [intro H; contradiction|]. intros _. cbn [Sklearn.data_min].
  split; [apply fold_fmin_in | apply fold_fmin_le].
Qed.

Lemma data_max_spec (row : list F64.t) :
  row <> [] ->
  In (Sklearn.data_max row) row /\
  forall x, In x row -> F64.is_nan x = false -> F64.leb x (Sklearn.data_max row) = true.
Proof.
  destruct row as [|a r]; [intro H; contradiction|]. intros _. cbn [Sklearn.data_max].
  split; [apply fold_fmax_in | apply fold_fmax_ge].
Qed.

(** *** Rounding never gives a not-a-number *)

Lemma shr_1_nonneg (mrs : shr_record) : 0 <= shr_m mrs -> 0 <= shr_m (shr_1 mrs).
Proof.
  destruct mrs as [m r s]. destruct m as [|p|p]; try destruct p; cbn; lia.
Qed.

Lemma iter_shr_1_nonneg (p : positive) (mrs : shr_record) :
  0 <= shr_m mrs -> 0 <= shr_m (iter_pos shr_1 p mrs).
Proof.
  revert mrs. induction p as [p IH|p IH|]; intros mrs H; cbn [iter_pos].
  - apply IH, IH, shr_1_nonneg, H.
  - apply IH, IH, H.
  - apply shr_1_nonneg, H.
Qed.

Lemma shr_fexp_nonneg (m e : Z) (l : location) :
  0 <= m -> 0 <= shr_m (fst (shr_fexp F64.prec F64.emax m e l)).
Proof.
  intro H. unfold shr_fexp, shr.
  assert (H0 : 0 <= shr_m (shr_record_of_loc m l)) by (destruct l as [|[]]; exact H).
  destruct (_ - e) as [|p|p]; cbn [fst]; [exact H0 | | exact H0].
  apply iter_shr_1_nonneg. exact H0.
Qed.

Lemma round_nearest_even_nonneg (m : Z) (l : location) :
  0 <= m -> 0 <= round_nearest_even m l.
Proof.
  intro H. destruct l as [|[]]; cbn; try destruct (Z.even m); lia.
Qed.

Lemma binary_round_aux_not_nan (sx : bool) (mx ex : Z) (lx : location) :
  0 <= mx -> F64.is_nan (binary_round_aux F64.prec F64.emax sx mx ex lx) = false.
Proof.
  intro H. unfold binary_round_aux.
  pose proof (shr_fexp_nonneg mx ex lx H) as H1.
  destruct (shr_fexp F64.prec F64.emax mx ex lx) as [mrs' e']. cbn [fst] in H1.
  pose proof (shr_fexp_nonneg _ e' loc_Exact
                (round_nearest_even_nonneg _ (loc_of_shr_record mrs') H1)) as H2.
  destruct (shr_fexp F64.prec F64.emax _ e' loc_Exact) as [mrs'' e'']. cbn [fst] in H2.
  destruct (shr_m mrs'') as [|p|p]; [reflexivity | | lia].
  destruct (_ <=? _); reflexivity.
Qed.

Lemma binary_normalize_not_nan (m e : Z) (szero : bool) :
  F64.is_nan (binary_normalize F64.prec F64.emax m e szero) = false.
Proof.
  unfold binary_normalize, binary_round.
  destruct m as [|p|p]; [reflexivity| |];
    destruct (shl_align _ _ _) as [mz ez]; apply binary_round_aux_not_nan; lia.
Qed.

(** A sum, a difference and a product of numbers that are not infinite
    are numbers. *)
Lemma add_not_nan (x y : F64.t) :
  F64.is_nan x = false -> F64.is_nan y = false ->
  F64.is_inf x = false \/ F64.is_inf y = false ->
  F64.is_nan (F64.add x y) = false.
Proof.
  unfold F64.add, SFadd.
  destruct x as [s|s| |s m e]; destruct y as [s'|s'| |s' m' e'];
    try destruct s; try destruct s'; cbn [F64.is_nan F64.is_inf];
    intros Hx Hy H; try discriminate; try reflexivity;
    try (destruct H; discriminate); apply binary_normalize_not_nan.
Qed.

Lemma sub_not_nan (x y : F64.t) :
  F64.is_nan x = false -> F64.is_nan y = false ->
  F64.is_inf x = false \/ F64.is_inf y = false ->
  F64.is_nan (F64.sub x y) = false.
Proof.
  unfold F64.sub, SFsub.
  destruct x as [s|s| |s m e]; destruct y as [s'|s'| |s' m' e'];
    try destruct s; try destruct s'; cbn [F64.is_nan F64.is_inf];
    intros Hx Hy H; try discriminate; try reflexivity;
    try (destruct H; discriminate); apply binary_normalize_not_nan.
Qed.

Lemma mul_not_nan (x y : F64.t) :
  F64.is_nan x = false -> F64.is_nan y = false ->
  F64.is_inf x = false -> F64.is_inf y = false ->
  F64.is_nan (F64.mul x y) = false.
Proof.
  unfold F64.mul, SFmul.
  destruct x as [s|s| |s m e]; destruct y as [s'|s'| |s' m' e'];
    cbn [F64.is_nan F64.is_inf]; intros Hx Hy Hx' Hy';
    try discriminate; try reflexivity.
  apply binary_round_aux_not_nan. lia.
Qed.

(** *** A frame whose values are all equal *)

Lemma sub_of_equal (a b : F64.t) :
  F64.eqb a b = true -> F64.is_inf a = false ->
  exists s, F64.sub b a = S754_zero s.
Proof.
  intros H Hinf. destruct (eqb_cases a b H) as [<-|(s & s' & -> & ->)].
  - destruct a as [s|s| |s m e]; try discriminate.
    + destruct s; eexists; reflexivity.
    + exists false. unfold F64.sub, SFsub. cbv zeta. rewrite Z.sub_diag. reflexivity.
  - destruct s, s'; eexists; reflexivity.
Qed.

Lemma handle_zeros_of_zero (s : bool) :
  Sklearn.handle_zeros_in_scale (S754_zero s) = F64.of_int 1.
Proof. destruct s; reflexivity. Qed.

(** The range of such a frame is replaced by one, and its scale is two. *)
Lemma constant_row_range (row : list F64.t) :
  row <> [] ->
  (forall a b, In a row -> In b row -> F64.eqb a b = true) ->
  (forall x, In x row -> F64.is_inf x = false) ->
  Sklearn.handle_zeros_in_scale
    (F64.sub (Sklearn.data_max row) (Sklearn.data_min row)) = F64.of_int 1.
Proof.
  intros Hne Hall Hfin.
  destruct (data_min_spec row Hne) as [Hlo _]. destruct (data_max_spec row Hne) as [Hhi _].
  destruct (sub_of_equal _ _ (Hall _ _ Hlo Hhi) (Hfin _ Hlo)) as [s ->].
  apply handle_zeros_of_zero.
Qed.

(** What a value of such a frame becomes does not depend on which of the
    values was taken for the least. *)
Lemma constant_entry (x lo : F64.t) :
  F64.eqb x lo = true ->
  F64.add (F64.mul x (F64.of_int 2)) (F64.sub (F64.of_int (-1)) (F64.mul lo (F64.of_int 2))) =
  F64.add (F64.mul x (F64.of_int 2)) (F64.sub (F64.of_int (-1)) (F64.mul x (F64.of_int 2))).
Proof.
  intro H. destruct (eqb_cases x lo H) as [<-|(s & s' & -> & ->)]; [reflexivity|].
  destruct s, s'; reflexivity.
Qed.

(** It is a number unless the doubling overflows. *)
Lemma constant_entry_nan (x : F64.t) :
  F64.is_nan x = false -> F64.is_inf x = false ->
  F64.is_nan (F64.add (F64.mul x (F64.of_int 2))
                (F64.sub (F64.of_int (-1)) (F64.mul x (F64.of_int 2)))) =
  F64.is_inf (F64.mul x (F64.of_int 2)).
Proof.
  intros Hnan Hinf.
  pose proof (mul_not_nan x (F64.of_int 2) Hnan eq_refl Hinf eq_refl) as Hy.
  destruct (F64.mul x (F64.of_int 2)) as [s|s| |s m e] eqn:E.
  - destruct s; reflexivity.
  - destruct s; reflexivity.
  - discriminate Hy.
  - cbn [F64.is_inf]. apply add_not_nan; [reflexivity | | left; reflexivity].
    apply sub_not_nan; [reflexivity | reflexivity | left; reflexivity].
Qed.

Lemma existsb_false {A} (f : A -> bool) (l : list A) :
  existsb f l = false -> forall x, In x l -> f x = false.
Proof.
  induction l as [|a l IH]; intros H x Hx; [destruct Hx|].
  cbn [existsb] in H. apply orb_false_iff in H as [Ha Hl].
  destruct Hx as [<-|Hx]; [exact Ha | apply IH; assumption].
Qed.

(** What the scaler accepts: an array with a frame, whose frames have a
    coefficient and hold no infinity. *)
Lemma minmax_scale_accepts (X X' : matrix) :
  Sklearn.minmax_scale X (-1, 1) = inr X' ->
  X' = map (Sklearn.scale_row (-1, 1)) X /\ X <> [] /\
  forall row, In row X -> row <> [] /\ forall x, In x row -> F64.is_inf x = false.
Proof.
  unfold Sklearn.minmax_scale. intro H.
  destruct (Sklearn.is_nil X) eqn:Hnil; [discriminate|].
  destruct (existsb Sklearn.is_nil X) eqn:Hrows; [discriminate|].
  destruct (existsb (existsb F64.is_inf) X) eqn:Hinf; [discriminate|].
  cbn in H. injection H as <-. split; [reflexivity|]. split.
  - intros ->. discriminate Hnil.
  - intros row Hrow. split.
    + intros ->. discriminate (existsb_false _ _ Hrows [] Hrow).
    + apply existsb_false. apply (existsb_false _ _ Hinf row Hrow).
Qed.

Lemma map_exn_inr {A B} (f : A -> exn + B) (l : list A) (ys : list B) :
  map_exn f l = inr ys -> forall y, In y ys -> exists x, In x l /\ f x = inr y.
Proof.
  revert ys. induction l as [|a l IH]; intros ys H; simpl in H.
  - injection H as <-. intros y [].
  - destruct (f a) as [e|b] eqn:Ha; [discriminate|].
    destruct (map_exn f l) as [e|bs]; [discriminate|]. injection H as <-.
    intros y [<-|Hy].
    + exists a. split; [left; reflexivity | exact Ha].
    + destruct (IH bs eq_refl y Hy) as (x & Hx & Hfx).
      exists x. split; [right; exact Hx | exact Hfx].
Qed.

Lemma Forall2_map_values {A B} (R : A -> B -> Prop) (f : A -> B) (l : list A) :
  (forall x, In x l -> R x (f x)) -> Forall2 R l (map f l).
Proof.
  induction l as [|a l IH]; intro H; cbn [map]; constructor.
  - apply H. left. reflexivity.
  - apply IH. intros x Hx. apply H. right. exact Hx.
Qed.

Section ScaleData.

Context {FS waveform : Type} {P : Platform FS waveform}.

Lemma pair_keys_values (keys : list string) (audios : list matrix)
  (acc scaled_mfcc : dict matrix) (key : string) (v : matrix) :
  pair_keys keys audios acc = inr scaled_mfcc ->
  dict_get scaled_mfcc key = Some v ->
  In v audios \/ dict_get acc key = Some v.
Proof.
  revert audios acc. induction keys as [|k keys IH]; intros audios acc H Hget; simpl in H.
  - injection H as <-. right. exact Hget.
  - destruct audios as [|a audios]; [discriminate|].
    destruct (IH audios (dict_set acc k a) H Hget) as [Hin|Hacc].
    + left. right. exact Hin.
    + destruct (String.eqb_spec k key) as [->|Hne].
      * rewrite dict_get_set_same in Hacc. injection Hacc as <-. left. left. reflexivity.
      * rewrite (dict_get_set_other acc k key a Hne) in Hacc. right. exact Hacc.
Qed.

(** The scaler the class is run with is scikit-learn's. *)
Hypothesis scaler_is_sklearn :
  forall X feature_range, minmax_scale X feature_range = Sklearn.minmax_scale X feature_range.

(** Every matrix [_scale_data] returns is a matrix it was given, with every
    frame scaled on its own; its frames are not empty and hold no
    infinity. *)
Lemma scale_data_frames (s : AudioPrep) (keys : list string) (mfccs : list matrix)
  (scaled_mfcc : dict matrix) (key : string) (m' : matrix) :
  _scale_data s keys mfccs = inr scaled_mfcc ->
  dict_get scaled_mfcc key = Some m' ->
  exists m, In m mfccs /\ m' = map (Sklearn.scale_row (-1, 1)) m /\
    forall row, In row m -> row <> [] /\ forall x, In x row -> F64.is_inf x = false.
Proof.
  unfold _scale_data. intros H Hget.
  destruct (map_exn _ mfccs) as [e|audios] eqn:Hmap; [discriminate|].
  destruct (pair_keys_values _ _ _ _ _ _ H Hget) as [Hin|Hnil]; [|discriminate].
  destruct (map_exn_inr _ _ _ Hmap m' Hin) as (m & Hm & Hscale).
  exists m. split; [exact Hm|].
  rewrite scaler_is_sklearn in Hscale.
  destruct (minmax_scale_accepts m m' Hscale) as (Hm' & _ & Hrows).
  split; [exact Hm' | exact Hrows].
Qed.


(** C3 (as the code has it).  In a frame whose values are all equal the
    range, which is zero, is replaced by one before it divides, so the
    divisor is not zero.  Every value [x] of the frame becomes
    [x * 2 + (-1 - x * 2)], each operation rounded: [-1] but for the
    rounding of [-1 - x * 2].  It is a number unless [x * 2] overflows. *)
Theorem scale_data_constant_frame (s : AudioPrep) (keys : list string)
  (mfccs : list matrix) (scaled_mfcc : dict matrix) (key : string) (m' : matrix) :
  _scale_data s keys mfccs = inr scaled_mfcc ->
  dict_get scaled_mfcc key = Some m' ->
  exists m,
    In m mfccs /\ m' = map (Sklearn.scale_row (-1, 1)) m /\
    forall row, In row m ->
      (forall a b, In a row -> In b row -> F64.eqb a b = true) ->
      let two := F64.of_int 2 in
      let minus_one := F64.of_int (-1) in
      Sklearn.handle_zeros_in_scale
        (F64.sub (Sklearn.data_max row) (Sklearn.data_min row)) = F64.of_int 1 /\
      Forall2 (fun x y =>
                 y = F64.add (F64.mul x two) (F64.sub minus_one (F64.mul x two)) /\
                 F64.is_nan y = F64.is_inf (F64.mul x two))
        row (Sklearn.scale_row (-1, 1) row).
Proof.
  intros H Hget. destruct (scale_data_frames s keys mfccs scaled_mfcc key m' H Hget)
    as (m & Hm & Hm' & Hrows).
  exists m. split; [exact Hm|]. split; [exact Hm'|].
  intros row Hrow Hconst two minus_one. destruct (Hrows row Hrow) as [Hne Hfin].
  pose proof (constant_row_range row Hne Hconst Hfin) as Hone.
  split; [exact Hone|].
  unfold Sklearn.scale_row. apply Forall2_map_values. intros x Hx.
  assert (Hval : F64.add (F64.mul x (Sklearn.scale_ (-1, 1) row)) (Sklearn.min_ (-1, 1) row) =
                 F64.add (F64.mul x two) (F64.sub minus_one (F64.mul x two))).
  { unfold Sklearn.min_, Sklearn.scale_. rewrite Hone.
    change (F64.div (F64.of_int (snd (-1, 1) - fst (-1, 1))) (F64.of_int 1)) with two.
    change (F64.of_int (fst (-1, 1))) with minus_one.
    apply constant_entry. apply Hconst; [exact Hx|].
    apply (data_min_spec row Hne). }
  rewrite Hval. split; [reflexivity|].
  apply constant_entry_nan; [|apply Hfin; exact Hx].
  apply (leb_not_nan x x). unfold F64.leb, SFleb.
  pose proof (Hconst x x Hx Hx) as Heq. unfold F64.eqb, SFeqb in Heq.
  destruct (SFcompare x x) as [[]|]; try discriminate; reflexivity.
Qed.

End ScaleData.

(** ** The properties on the corpora of [Demo] *)

#[local] Existing Instance Demo.platform.

Lemma batch_invariant_fails :
  ~ claimed_batch_invariant "wav" Demo.on_unpaired /\
  ~ claimed_batch_invariant "wav" Demo.on_blank.
Proof.
  split; intro H.
  - destruct (H _ _ _ _ _ ltac:(vm_compute; reflexivity) ltac:(vm_compute; reflexivity)
                ltac:(vm_compute; reflexivity)) as (result & Hr & _).
    vm_compute in Hr. discriminate Hr.
  - destruct (H _ _ _ _ _ ltac:(vm_compute; reflexivity) ltac:(vm_compute; reflexivity)
                ltac:(vm_compute; reflexivity)) as (result & Hr & Hne).
    vm_compute in Hr. injection Hr as <-.
    eapply (Hne "u0"); [vm_compute; reflexivity | reflexivity].
Qed.

Lemma constant_frame_is_not_zero :
  ~ claimed_constant_frame_zero (P := Demo.platform) (self Demo.on_empty) "utt"
      [map F64.of_int [5; 5; 5]].
Proof.
  intro H.
  specialize (H _ _ ltac:(vm_compute; reflexivity) ltac:(vm_compute; reflexivity)
                0%nat _ _ eq_refl eq_refl).
  assert (Hconst : forall a b : F64.t,
            In a (map F64.of_int [5; 5; 5]) -> In b (map F64.of_int [5; 5; 5]) ->
            F64.eqb a b = true).
  { intros a b Ha Hb. cbn [map In] in Ha, Hb.
    destruct Ha as [<-|[<-|[<-|[]]]]; destruct Hb as [<-|[<-|[<-|[]]]]; reflexivity. }
  specialize (H Hconst). inversion H as [|y l Hy _]. vm_compute in Hy. discriminate Hy.
Qed.


Lemma two_transcripts_do_not_fail :
  ~ claimed_transcript_errors "wav" Demo.on_two_transcripts /\
  ~ claimed_transcript_errors "wav" Demo.on_no_transcript.
Proof.
  split; intro H.
  - specialize (H "84" ["121123"] "121123" ["a.trans.txt"; "b.trans.txt"; "u0.wav"]
                  eq_refl eq_refl (or_introl eq_refl) eq_refl).
    vm_compute in H. discriminate H.
  - specialize (H "84" ["121123"] "121123" ["u0.wav"]
                  eq_refl eq_refl (or_introl eq_refl) eq_refl).
    vm_compute in H. discriminate H.
Qed.

Lemma init_accepts_root_without_folders :
  ~ claimed_structure_error (P := Demo.platform) "corpus" Demo.corpus_empty /\
  ~ claimed_structure_error (P := Demo.platform) "nowhere" Demo.corpus_empty.
Proof.
  split; intro H; unfold claimed_structure_error in H.
  - assert (Hr : __init__ (P := Demo.platform) "corpus" None None None None
                   None None None None None Demo.corpus_empty =
                 inl (Other "StructureError")).
    { apply H. vm_compute. reflexivity. }
    vm_compute in Hr. discriminate Hr.
  - assert (Hr : __init__ (P := Demo.platform) "nowhere" None None None None
                   None None None None None Demo.corpus_empty =
                 inl (Other "StructureError")).
    { apply H. vm_compute. exact I. }
    vm_compute in Hr. discriminate Hr.
Qed.

(** Three authors with their audio in [wav]: the index is back at [-1]
    after three calls and the fourth call gives what the first gave. *)
Lemma cursor_cycles_over_authors_witness :
  _index (self Demo.on_corpus3_wav) = -1 /\
  _batch_count (self Demo.on_corpus3_wav) = 3 /\
  let out := get_data_times "wav" 3 Demo.on_corpus3_wav in
  forallb returned (fst out) = true /\
  _index (self (snd out)) = -1 /\
  fst (get_data "wav" (snd out)) = fst (get_data "wav" Demo.on_corpus3_wav).
Proof.
  destruct (cursor_cycles_over_authors (P := Demo.platform) "corpus"
              None None None None None None None None None
              Demo.corpus3_wav Demo.on_corpus3_wav eq_refl) as (Hi & Hn & Hcyc).
  split; [exact Hi|]. split; [reflexivity|].
  assert (Hall : forallb returned (fst (get_data_times "wav" 3 Demo.on_corpus3_wav)) = true)
    by (vm_compute; reflexivity).
  destruct (Hcyc "wav" 3%nat Hall eq_refl) as (Hidx & _ & _ & Hsame).
  split; [exact Hall|]. split; [exact Hidx|].
  apply Hsame; [reflexivity | vm_compute; reflexivity].
Defined.

(** The first author of [corpus3] has audio in [flac] only: its chapter is
    converted by the first call, and the fourth call, which finds the
    files the conversion wrote, converts nothing. *)
Lemma conversion_only_when_format_missing_witness :
  trace (snd (chapter "wav" "corpus/84" ([], []) "121123" Demo.on_corpus3)) =
    [Convert "corpus/84/121123"] /\
  (let w := snd (get_data_times "wav" 3 Demo.on_corpus3) in
   trace (snd (get_data "wav" w)) = trace w /\ fs (snd (get_data "wav" w)) = fs w).
Proof.
  destruct (conversion_only_when_format_missing (P := Demo.platform)) as [Hchapter Hcall].
  split.
  - exact (proj1 (Hchapter "wav" "corpus/84" ([], []) "121123" Demo.on_corpus3 eq_refl)).
  - apply Hcall. intros author chapters c Ha Hc Hin.
    vm_compute in Ha. injection Ha as <-.
    vm_compute in Hc. injection Hc as <-.
    destruct Hin as [<-|[]]. vm_compute. reflexivity.
Defined.

Lemma decoder_drops_unknown_and_trims_witness :
  Py.split "cat" = ["cat"] /\
  Py.split ("the" ++ String " " "cat") = (Py.split "the" ++ Py.split "cat")%list /\
  Py.split ("a" ++ String "160" "cat") = (Py.split "a" ++ Py.split "cat")%list /\
  dict_get (_get_phoneme_transcription (self Demo.on_empty)
              [("utt1", " the cat"); ("utt2", " a" ++ String "160" "cat")]) "utt2" =
    Some ["AH"; "sil"; "K"; "AE"; "T"] /\
  dict_get (_get_phoneme_transcription (self Demo.on_empty)
              [("utt1", " the cat"); ("utt2", " a" ++ String "160" "cat")]) "utt1" = None.
Proof.
  destruct decoder_drops_unknown_and_trims as ((Hchars & _ & Hword & Hspace) & Hdecode & _).
  assert (Hnd : NoDup (dict_keys [("utt1", " the cat");
                                  ("utt2", " a" ++ String "160" "cat")])).
  { constructor; [intros [H|[]]; discriminate H|].
    constructor; [intros [] | constructor]. }
  split; [apply Hword; [reflexivity | discriminate]|].
  split; [apply Hspace; reflexivity|].
  split; [apply Hspace; apply Hchars; vm_compute; tauto|].
  split.
  - exact (Hdecode (self Demo.on_empty) _ "utt2" Hnd).
  - exact (Hdecode (self Demo.on_empty) _ "utt1" Hnd).
Defined.

Lemma transcript_missing_raises_index_error_witness :
  read_transcripts "corpus/84/121123" [] Demo.on_no_transcript =
    (inl IndexError, Demo.on_no_transcript) /\
  get_data "wav" Demo.on_no_transcript =
    (inl IndexError, advanced Demo.on_no_transcript) /\
  fst (read_transcripts "corpus/84/121123" [] Demo.on_two_transcripts) =
    inr [("u0", " cat")].
Proof.
  destruct (transcript_missing_raises_index_error (P := Demo.platform))
    as (Hnone & Hcall & Hfirst).
  split; [|split].
  - exact (Hnone "corpus/84/121123" [] Demo.on_no_transcript ["u0.wav"] eq_refl eq_refl).
  - exact (Hcall "wav" Demo.on_no_transcript (advanced Demo.on_no_transcript) "84"
             [] [] "121123" ([], []) ["u0.wav"] eq_refl eq_refl eq_refl eq_refl eq_refl).
  - rewrite (Hfirst "corpus/84/121123" [] Demo.on_two_transcripts
               ["a.trans.txt"; "b.trans.txt"; "u0.wav"] ["b.trans.txt"] "a.trans.txt"
               eq_refl eq_refl).
    reflexivity.
Defined.

Lemma init_raises_when_root_listing_raises_witness :
  __init__ (P := Demo.platform) "nowhere" None None None None None None None None None
    Demo.corpus_empty = inl FileNotFoundError.
Proof.
  exact (init_raises_when_root_listing_raises (P := Demo.platform) "nowhere"
           None None None None None None None None None Demo.corpus_empty
           FileNotFoundError eq_refl).
Defined.


Lemma scale_data_constant_frame_witness :
  let row := map F64.of_int [5; 5; 5] in
  Forall2 (fun x y =>
             y = F64.add (F64.mul x (F64.of_int 2))
                   (F64.sub (F64.of_int (-1)) (F64.mul x (F64.of_int 2))) /\
             F64.is_nan y = F64.is_inf (F64.mul x (F64.of_int 2)))
    row (Sklearn.scale_row (-1, 1) row) /\
  Sklearn.scale_row (-1, 1) row = map F64.of_int [-1; -1; -1].
Proof.
  intro row.
  destruct (scale_data_constant_frame (P := Demo.platform) (fun X fr => eq_refl)
              (self Demo.on_empty) ["utt"] [two_frames] two_frames_scaled "utt"
              (map (Sklearn.scale_row (-1, 1)) two_frames) eq_refl eq_refl)
    as (m & Hin & _ & Hrows).
  destruct Hin as [<-|[]].
  assert (Hconst : forall a b : F64.t, In a row -> In b row -> F64.eqb a b = true).
  { intros a b Ha Hb. cbn [row map In] in Ha, Hb.
    destruct Ha as [<-|[<-|[<-|[]]]]; destruct Hb as [<-|[<-|[<-|[]]]]; reflexivity. }
  split; [|reflexivity].
  exact (proj2 (Hrows row (or_intror (or_introl eq_refl)) Hconst)).
Defined.

(** An object built with the default of twelve coefficients and one built
    for five give the same features, of thirteen coefficients a frame on
    this platform. *)
Lemma get_mfcc_ignores_configuration_witness :
  _num_ceps (self Demo.on_empty) = 12 /\
  _get_mfcc (P := Demo.platform) (set_num_ceps 5 (self Demo.on_empty))
    [("u0", ([3; 1], 16000))] =
  _get_mfcc (P := Demo.platform) (self Demo.on_empty) [("u0", ([3; 1], 16000))] /\
  exists s',
    _get_mfcc (P := Demo.platform) s' [("u0", ([3; 1], 16000))] =
      _get_mfcc (P := Demo.platform) (self Demo.on_empty) [("u0", ([3; 1], 16000))] /\
    _num_ceps s' <> 13.
Proof.
  destruct (get_mfcc_ignores_configuration (P := Demo.platform)) as [Hsame Hwidth].
  split; [reflexivity|]. split; [apply Hsame|].
  destruct (Hwidth (self Demo.on_empty) [("u0", ([3; 1], 16000))] ["u0"]
              [map (fun x => map (fun k => F64.of_int (x * Z.of_nat k)) (seq 1 13)) [3; 1]]
              _ (map (fun k => F64.of_int (3 * Z.of_nat k)) (seq 1 13))
              eq_refl (or_introl eq_refl) (or_introl eq_refl))
    as (s' & _ & Hm & Hn).
  exists s'. split; [exact Hm | exact Hn].
Defined.

(** ** Further runs *)

(** On [corpus3], whose first author is converted by the first call, the
    fourth call still gives what the first gave. *)
Example fourth_call_after_conversion :
  let out := get_data_times "wav" 4 Demo.on_corpus3 in
  forallb returned (fst out) = true /\
  nth_error (fst out) 3 = nth_error (fst out) 0 /\
  trace (snd out) = [Convert "corpus/84/121123"].
Proof. vm_compute. repeat split; reflexivity. Qed.

(** A call that raises for the only author leaves the index at [0]; the
    next call does not serve that author again, it raises for want of a
    second author, and so does every call after it. *)
Example failed_last_author_is_not_retried :
  let out := get_data_times "wav" 3 Demo.on_no_transcript in
  fst out = [inl IndexError; inl IndexError; inl IndexError] /\
  _index (self (snd (get_data "wav" Demo.on_no_transcript))) = 0 /\
  _index (self (snd out)) = 2.
Proof. vm_compute. repeat split; reflexivity. Qed.

(** A frame of equal values does not always become [-1]: three times 0.6
    become the number next below [-1], and three times two to the power 53
    become zero. *)
Example constant_frame_rounding :
  Sklearn.scale_row (-1, 1) (repeat (F64.div (F64.of_int 6) (F64.of_int 10)) 3) =
    repeat (F64.sub (F64.of_int (-1)) F64.eps) 3 /\
  Sklearn.scale_row (-1, 1) (repeat (F64.of_int (2 ^ 53)) 3) = repeat (F64.of_int 0) 3.
Proof. split; vm_compute; reflexivity. Qed.

(** A frame of two distinct values less than [10 * eps] apart, zero and
    two to the power [-53], is not spread over the range: zero becomes
    [-1] and the other value [-1 + eps]. *)
Example close_values_are_not_spread :
  Sklearn.scale_row (-1, 1) [F64.of_int 0; F64.div F64.eps (F64.of_int 2)] =
    [F64.of_int (-1); F64.add (F64.of_int (-1)) F64.eps].
Proof. vm_compute. reflexivity. Qed.

(** The frame [2^53, 2^53, 2^53 + 2], whose two values are numbers next
    to one another, becomes [0, 0, 2]. *)
Example large_values_lose_the_range :
  Sklearn.scale_row (-1, 1) (map F64.of_int [2 ^ 53; 2 ^ 53; 2 ^ 53 + 2]) =
    map F64.of_int [0; 0; 2].
Proof. vm_compute. reflexivity. Qed.

(** The scaler refuses an infinity and lets a not-a-number through, which
    the least and the greatest value leave out. *)
Example infinity_is_refused :
  Sklearn.minmax_scale [[F64.of_int 1; S754_infinity false]] (-1, 1) = inl ValueError /\
  Sklearn.minmax_scale [[S754_nan; F64.of_int 1; F64.of_int 3]] (-1, 1) =
    inr [[S754_nan; F64.of_int (-1); F64.of_int 1]].
Proof. split; vm_compute; reflexivity. Qed.

(** The end-to-end run of the specification: one author, one chapter, the
    transcript line [utt1 cat] and the audio [utt1.wav]. *)
Example end_to_end_cat :
  let fs0 : Demo.FS :=
    [ ("corpus", Demo.Folder ["84"]);
      ("corpus/84", Demo.Folder ["121123"]);
      ("corpus/84/121123", Demo.Folder ["84-121123.trans.txt"; "utt1.wav"]);
      ("corpus/84/121123/84-121123.trans.txt", Demo.Text ["utt1 cat" ++ String "010" ""]);
      ("corpus/84/121123/utt1.wav", Demo.Audio [2; 7] 16000) ] in
  exists m,
    fst (get_data "wav" (Demo.world_of "corpus" fs0)) = inr [("utt1", (["K"; "AE"; "T"], m))] /\
    Forall (Forall (fun y => F64.leb (F64.of_int (-1)) y && F64.leb y (F64.of_int 1) = true))
      m.
Proof.
  eexists. split; [vm_compute; reflexivity|].
  repeat constructor.
Qed.

(** * Properties of the rest of the class *)

(** ** The corpus index the constructor builds *)

Section DictAppend.

Context {V : Type}.

Lemma dict_set_fresh (d : dict V) (k : string) (v : V) :
  ~ In k (dict_keys d) -> dict_set d k v = (d ++ [(k, v)])%list.
Proof.
  induction d as [|[k' v'] d IH]; simpl; intro H.
  - reflexivity.
  - destruct (String.eqb_spec k' k) as [->|Hne].
    + exfalso. apply H. left. reflexivity.
    + rewrite IH; [reflexivity|]. intro Hin. apply H. right. exact Hin.
Qed.

Lemma dict_set_last (d : dict V) (k : string) (v v' : V) :
  ~ In k (dict_keys d) -> dict_set (d ++ [(k, v)])%list k v' = (d ++ [(k, v')])%list.
Proof.
  induction d as [|[k0 v0] d IH]; simpl; intro H.
  - rewrite String.eqb_refl. reflexivity.
  - destruct (String.eqb_spec k0 k) as [->|Hne].
    + exfalso. apply H. left. reflexivity.
    + rewrite IH; [reflexivity|]. intro Hin. apply H. right. exact Hin.
Qed.

Lemma dict_get_last (d : dict V) (k : string) (v : V) :
  ~ In k (dict_keys d) -> dict_get (d ++ [(k, v)])%list k = Some v.
Proof.
  induction d as [|[k0 v0] d IH]; simpl; intro H.
  - rewrite String.eqb_refl. reflexivity.
  - destruct (String.eqb_spec k0 k) as [->|Hne].
    + exfalso. apply H. left. reflexivity.
    + apply IH. intro Hin. apply H. right. exact Hin.
Qed.

End DictAppend.

Lemma map_exn_length {A B} (f : A -> exn + B) (l : list A) (ys : list B) :
  map_exn f l = inr ys -> List.length ys = List.length l.
Proof.
  revert ys. induction l as [|a l IH]; intros ys H; simpl in H.
  - injection H as <-. reflexivity.
  - destruct (f a); [discriminate|]. destruct (map_exn f l); [discriminate|].
    injection H as <-. simpl. rewrite (IH _ eq_refl). reflexivity.
Qed.

Lemma keys_of_combine {V} (ks : list string) (vs : list V) :
  List.length vs = List.length ks -> dict_keys (combine ks vs) = ks.
Proof.
  revert vs. induction ks as [|k ks IH]; intros [|v vs] H; simpl in *;
    try reflexivity; try discriminate.
  rewrite IH; [reflexivity | lia].
Qed.

Lemma forM_cons {FS A} (body : A -> M FS unit) (x : A) (l : list A) (w : world FS) :
  forM body (x :: l) w =
  match body x w with
  | (inl e, w') => (inl e, w')
  | (inr _, w') => forM body l w'
  end.
Proof.
  unfold forM. cbn [foldM]. rewrite bind_run.
  destruct (body x w) as [[e|[]] w']; reflexivity.
Qed.

Lemma forM_nil {FS A} (body : A -> M FS unit) (w : world FS) :
  forM body [] w = (inr tt, w).
Proof. reflexivity. Qed.

Section CorpusIndex.

Context {FS waveform : Type} {P : Platform FS waveform}.

Lemma set_files_again (f g : dict (list string)) (s : AudioPrep) :
  set_files f (set_files g s) = set_files f s.
Proof. reflexivity. Qed.

(** The loop that appends the chapters of one author. *)
Lemma append_chapters_run (author : string) (audio_folders pre : list string)
  (others : dict (list string)) (w : world FS) :
  ~ In author (dict_keys others) ->
  _files (self w) = (others ++ [(author, pre)])%list ->
  forM (fun audio =>
          s <- get_self ;;
          files <- lift (dict_append (_files s) author audio) ;;
          modify_self (set_files files)) audio_folders w =
  (inr tt,
   mkWorld (set_files (others ++ [(author, (pre ++ audio_folders)%list)])%list (self w))
     (fs w) (trace w)).
Proof.
  intro Hfresh. revert pre w.
  induction audio_folders as [|a rest IH]; intros pre w Hfiles.
  - rewrite forM_nil, app_nil_r, <- Hfiles.
    destruct w as [s f t]. destruct s. reflexivity.
  - rewrite forM_cons. rewrite bind_run. cbn [get_self].
    rewrite bind_run. unfold dict_append. rewrite Hfiles, (dict_get_last _ _ _ Hfresh).
    cbn [lift modify_self]. rewrite (dict_set_last _ _ _ _ Hfresh).
    rewrite (IH (pre ++ [a])%list); [|reflexivity].
    cbn [self fs trace]. rewrite set_files_again, <- app_assoc. reflexivity.
Qed.

(** The loop over the author folders, from an index that holds [acc]. *)
Lemma index_authors_run (authors : list string) (acc : dict (list string)) (w : world FS) :
  _files (self w) = acc ->
  NoDup authors ->
  (forall a, In a authors -> ~ In a (dict_keys acc)) ->
  let body := fun author =>
    modify_self (fun s => set_files (dict_set (_files s) author []) s) ;;
    s <- get_self ;;
    let author_path := Py.path_join (_path s) author in
    audio_folders <- subfolders author_path ;;
    forM (fun audio =>
      s <- get_self ;;
      files <- lift (dict_append (_files s) author audio) ;;
      modify_self (set_files files)) audio_folders in
  match map_exn (fun a => subfolder_names (fs w) (Py.path_join (_path (self w)) a)) authors with
  | inr chapters =>
      forM body authors w =
      (inr tt,
       mkWorld (set_files (acc ++ combine authors chapters)%list (self w)) (fs w) (trace w))
  | inl e => fst (forM body authors w) = inl e
  end.
Proof.
  intros Hacc Hnd Hfresh body. revert acc w Hacc Hfresh.
  induction authors as [|a rest IH]; intros acc w Hacc Hfresh.
  - cbn [map_exn combine]. rewrite forM_nil, app_nil_r, <- Hacc.
    destruct w as [s f t]. destruct s. reflexivity.
  - inversion Hnd as [|? ? Hnotin Hnd']; subst.
    assert (Ha : ~ In a (dict_keys (_files (self w)))).
    { apply Hfresh. left. reflexivity. }
    assert (Hstep :
      forM body (a :: rest) w =
      match subfolder_names (fs w) (Py.path_join (_path (self w)) a) with
      | inl e =>
          (inl e,
           mkWorld (set_files (dict_set (_files (self w)) a []) (self w)) (fs w) (trace w))
      | inr ch =>
          forM body rest
            (mkWorld (set_files (_files (self w) ++ [(a, ch)])%list (self w))
               (fs w) (trace w))
      end).
    { rewrite forM_cons. unfold body at 1. rewrite bind_run. cbn [modify_self].
      rewrite bind_run. cbn [get_self self _path set_files]. rewrite bind_run.
      change (subfolders (Py.path_join (_path (self w)) a)
                (mkWorld (set_files (dict_set (_files (self w)) a []) (self w))
                   (fs w) (trace w)))
        with (subfolder_names (fs w) (Py.path_join (_path (self w)) a),
              mkWorld (set_files (dict_set (_files (self w)) a []) (self w))
                (fs w) (trace w)).
      destruct (subfolder_names (fs w) (Py.path_join (_path (self w)) a)) as [e|ch];
        [reflexivity|].
      rewrite (dict_set_fresh _ _ _ Ha).
      rewrite (append_chapters_run a ch [] (_files (self w))
                 (mkWorld (set_files (_files (self w) ++ [(a, [])])%list (self w))
                    (fs w) (trace w)) Ha eq_refl).
      cbn [self fs trace app]. rewrite set_files_again. reflexivity. }
    rewrite Hstep. cbn [map_exn].
    destruct (subfolder_names (fs w) (Py.path_join (_path (self w)) a)) as [e|ch];
      [reflexivity|].
    specialize (IH Hnd' (_files (self w) ++ [(a, ch)])%list
                  (mkWorld (set_files (_files (self w) ++ [(a, ch)])%list (self w))
                     (fs w) (trace w)) eq_refl).
    cbn [self fs trace _path set_files] in IH.
    assert (Hfresh' : forall a0, In a0 rest ->
              ~ In a0 (dict_keys (_files (self w) ++ [(a, ch)])%list)).
    { intros a0 Hin Hk. unfold dict_keys in Hk. rewrite map_app in Hk.
      apply in_app_or in Hk as [Hk|[<-|[]]].
      - apply (Hfresh a0); [right; exact Hin | exact Hk].
      - apply Hnotin. exact Hin. }
    specialize (IH Hfresh').
    destruct (map_exn (fun a0 => subfolder_names (fs w) (Py.path_join (_path (self w)) a0)) rest)
      as [e|chs].
    + exact IH.
    + rewrite IH. cbn [self fs trace combine]. rewrite set_files_again, <- app_assoc.
      reflexivity.
Qed.

(** X1.  The constructor on a root whose folders are listed without
    repetition: it raises what the listing of an author folder raises, the
    first to do so; otherwise the new object holds the author folders in the
    order of the listing, for each of them its chapter folders in the order
    of theirs (plain files are left out), the index [-1], no format, the
    parameters given or their defaults, and as batch count the number of
    authors.  The file system is left as it was. *)
Theorem init_builds_corpus_index (path : string)
  (pre_emphasis frame_size frame_stride : option Q)
  (NFFT nfilt num_ceps cep_lifter : option Z)
  (dict_path phonemes_path : option string) (fs0 : FS)
  (d : dict (list phoneme)) (authors : list string) :
  get_phoneme_dict fs0 dict_path phonemes_path = inr d ->
  subfolder_names fs0 path = inr authors ->
  NoDup authors ->
  __init__ path pre_emphasis frame_size frame_stride NFFT nfilt num_ceps cep_lifter
    dict_path phonemes_path fs0 =
  match map_exn (fun a => subfolder_names fs0 (Py.path_join path a)) authors with
  | inl e => inl e
  | inr chapters =>
      inr (mkWorld
             (mkAudioPrep path
                (or_else pre_emphasis PRE_EMPHASIS) (or_else frame_size FRAME_SIZE)
                (or_else frame_stride FRAME_STRIDE) (or_else NFFT nfft)
                (or_else nfilt NFILT) (or_else num_ceps NUM_CEPS)
                (or_else cep_lifter CEP_LIFTER)
                None None dict_path phonemes_path d
                (combine authors chapters) (-1) authors
                (Z.of_nat (List.length authors)))
             fs0 [])
  end.
Proof.
  intros Hd Hauthors Hnd. unfold __init__.
  assert (Hload :
    match dict_path with
    | None =>
        match phonemes_path with
        | None => get_phoneme_dict fs0 None None
        | Some _ => get_phoneme_dict fs0 None phonemes_path
        end
    | Some _ =>
        match phonemes_path with
        | Some _ => get_phoneme_dict fs0 dict_path phonemes_path
        | None => get_phoneme_dict fs0 dict_path None
        end
    end = inr d).
  { destruct dict_path, phonemes_path; exact Hd. }
  rewrite Hload. unfold _get_files. rewrite bind_run. cbn [modify_self].
  rewrite bind_run. cbn [get_self self _path set_files fs trace]. rewrite bind_run.
  match goal with |- context [subfolders path ?x] =>
    change (subfolders path x) with (subfolder_names fs0 path, x) end.
  rewrite Hauthors. rewrite bind_run.
  match goal with |- context [forM ?b authors ?x] =>
    pose proof (index_authors_run authors [] x eq_refl Hnd (fun a _ H => H)) as Hrun;
    cbv zeta in Hrun; cbn [self fs trace _path set_files app] in Hrun end.
  destruct (map_exn (fun a => subfolder_names fs0 (Py.path_join path a)) authors)
    as [e|chapters] eqn:Hmap.
  - match goal with |- context [forM ?b authors ?x] =>
      destruct (forM b authors x) as [[e'|u] w1] end; cbn [fst] in Hrun.
    + congruence.
    + discriminate Hrun.
  - rewrite Hrun. rewrite bind_run. cbn [modify_self]. cbn.
    change (map fst (combine authors chapters)) with (dict_keys (combine authors chapters)).
    rewrite (keys_of_combine authors chapters (map_exn_length _ _ _ Hmap)).
    rewrite length_combine, (map_exn_length _ _ _ Hmap), Nat.min_id. reflexivity.
Qed.

End CorpusIndex.

(** ** The lines of a transcript file *)

Lemma find_absent (s : string) (c : ascii) :
  has_char c s = false -> Py.find s c = -1.
Proof.
  induction s as [|a r IH]; simpl; intro H.
  - reflexivity.
  - apply orb_false_iff in H as [Ha Hr]. rewrite Ha, (IH Hr). reflexivity.
Qed.

Lemma find_first (k r : string) (c : ascii) :
  has_char c k = false -> Py.find (k ++ String c r) c = Z.of_nat (String.length k).
Proof.
  induction k as [|a k IH]; simpl; intro H.
  - rewrite Ascii.eqb_refl. reflexivity.
  - apply orb_false_iff in H as [Ha Hk]. rewrite Ha, (IH Hk).
    destruct (Z.of_nat (String.length k) <? 0) eqn:E; lia.
Qed.

Lemma substring_prefix (k x : string) : substring 0 (String.length k) (k ++ x) = k.
Proof.
  induction k as [|a k IH]; simpl.
  - destruct x; reflexivity.
  - rewrite IH. reflexivity.
Qed.

Lemma substring_all (x : string) : substring 0 (String.length x) x = x.
Proof. induction x as [|a x IH]; simpl; [reflexivity | rewrite IH; reflexivity]. Qed.

Lemma substring_suffix (k x : string) :
  substring (String.length k) (String.length x) (k ++ x) = x.
Proof.
  induction k as [|a k IH]; simpl.
  - apply substring_all.
  - exact IH.
Qed.

Lemma length_append (a b : string) :
  String.length (a ++ b) = (String.length a + String.length b)%nat.
Proof. induction a as [|c a IH]; simpl; [reflexivity | rewrite IH; reflexivity]. Qed.

(** The two slices of a line at its first space. *)
Lemma slices_at_first_space (k r : string) :
  has_char " " k = false ->
  let line := (k ++ String " " r)%string in
  Py.slice_to line (Py.find line " ") = k /\
  Py.slice_from line (Py.find line " ") = String " " r.
Proof.
  intros Hk line. unfold line. rewrite (find_first k r " " Hk).
  unfold Py.slice_to, Py.slice_from, Py.slice_bound.
  assert (Hneg : (Z.of_nat (String.length k) <? 0) = false) by (apply Z.ltb_ge; lia).
  rewrite Hneg, Nat2Z.id, length_append.
  replace (Nat.min (String.length k) (String.length k + String.length (String " " r)))
    with (String.length k) by lia.
  split; [apply substring_prefix|].
  replace (String.length k + String.length (String " " r) - String.length k)%nat
    with (String.length (String " " r)) by lia.
  apply substring_suffix.
Qed.

(** The two slices of a line without a space: all but its last character,
    and its last character. *)
Lemma slices_without_space (body : string) (c : ascii) :
  has_char " " (body ++ String c "") = false ->
  let line := (body ++ String c "")%string in
  Py.slice_to line (Py.find line " ") = body /\
  Py.slice_from line (Py.find line " ") = String c "".
Proof.
  intros H line. unfold line. rewrite (find_absent _ _ H).
  unfold Py.slice_to, Py.slice_from, Py.slice_bound. cbn [Z.ltb Z.compare].
  rewrite length_append. cbn [String.length].
  replace (Z.to_nat (Z.max 0 (Z.of_nat (String.length body + 1) + -1)))
    with (String.length body) by lia.
  split; [apply substring_prefix|].
  replace (String.length body + 1 - String.length body)%nat with 1%nat by lia.
  apply (substring_suffix body (String c "")).
Qed.

Lemma rstrip_newline_append (t : string) (n : nat) :
  Py.rstrip_newline (t ++ newlines n) = Py.rstrip_newline t.
Proof.
  induction t as [|a t IH]; simpl.
  - induction n as [|n IHn]; simpl; [reflexivity|]. rewrite IHn. reflexivity.
  - rewrite IH. reflexivity.
Qed.

Lemma rstrip_newline_after (k : string) (a : ascii) (t : string) :
  Ascii.eqb a newline = false ->
  Py.rstrip_newline (k ++ String a t) = (k ++ String a (Py.rstrip_newline t))%string.
Proof.
  intro Ha. induction k as [|b k IH]; simpl.
  - unfold newline in Ha. rewrite Ha. destruct (Py.rstrip_newline t); reflexivity.
  - rewrite IH. destruct k; reflexivity.
Qed.

(** What [rstrip] takes away is a run of line feeds. *)
Lemma rstrip_newline_split (t : string) :
  exists n, t = (Py.rstrip_newline t ++ newlines n)%string.
Proof.
  induction t as [|a t [n IH]]; simpl.
  - exists 0%nat. reflexivity.
  - destruct (Py.rstrip_newline t) as [|b r] eqn:Hr.
    + destruct (Ascii.eqb_spec a "010"%char) as [->|Hne].
      * exists (S n). simpl in IH. rewrite IH. reflexivity.
      * exists n. simpl in IH. rewrite IH. reflexivity.
    + exists n. rewrite IH at 1. reflexivity.
Qed.

Lemma split_newlines (t : string) (n : nat) : Py.split (t ++ newlines n) = Py.split t.
Proof.
  induction n as [|n IH].
  - simpl. rewrite append_empty_r. reflexivity.
  - replace (t ++ newlines (S n))%string with (t ++ String newline (newlines n))%string
      by reflexivity.
    unfold Py.split. rewrite split_from_space by reflexivity.
    assert (Hn : Py.split (newlines n) = []).
    { clear. induction n as [|n IHn]; [reflexivity | exact IHn]. }
    rewrite Hn, app_nil_r. reflexivity.
Qed.

Section TranscriptLines.

Context {FS waveform : Type} {P : Platform FS waveform}.

(** The step of the loop over the lines of a transcript. *)
Lemma read_transcripts_run (curr_path : string) (t : dict string) (w : world FS)
  (names rest : list string) (first : string) (lines : list string) :
  listdir (fs w) curr_path = inr names ->
  filter (fun file => Py.endswith file ".txt") names = first :: rest ->
  open_lines (fs w) (Py.path_join curr_path first) = inr lines ->
  read_transcripts curr_path t w =
  (inr (fold_left (fun t line =>
          let split := Py.find line " " in
          dict_set t (Py.slice_to line split) (Py.slice_from line split))
        (map Py.rstrip_newline lines) t), w).
Proof.
  intros Hl Hf Ho. unfold read_transcripts.
  rewrite bind_run. cbn [read]. rewrite Hl. rewrite bind_run, Hf.
  change (index_or_raise (first :: rest) 0) with (@inr exn string first).
  cbn [lift]. rewrite bind_run. cbn [read]. rewrite Ho. reflexivity.
Qed.

(** X2.  A transcript whose lines are each a key without a space, a space
    and a text: every key gets the text of its line with the space in
    front of it and without the line feeds at its end, a later line taking
    the place of an earlier one with the same key; the words of what is
    stored are the words of the text. *)
Theorem read_transcripts_keys_and_texts (curr_path : string) (t : dict string)
  (w : world FS) (names rest : list string) (first : string)
  (entries : list (string * string)) :
  listdir (fs w) curr_path = inr names ->
  filter (fun file => Py.endswith file ".txt") names = first :: rest ->
  open_lines (fs w) (Py.path_join curr_path first) =
    inr (map (fun kt => (fst kt ++ String " " (snd kt))%string) entries) ->
  (forall kt, In kt entries -> has_char " " (fst kt) = false) ->
  read_transcripts curr_path t w =
    (inr (fold_left (fun t kt =>
            dict_set t (fst kt) (String " " (Py.rstrip_newline (snd kt))))
          entries t), w) /\
  forall kt : string * string,
    Py.split (String " " (Py.rstrip_newline (snd kt))) = Py.split (snd kt).
Proof.
  intros Hl Hf Ho Hkeys. split.
  - rewrite (read_transcripts_run _ _ _ _ _ _ _ Hl Hf Ho). f_equal. f_equal.
    clear Ho. revert t. induction entries as [|[k x] entries IH]; intro t.
    + reflexivity.
    + cbn [map fold_left fst snd].
      rewrite rstrip_newline_after by reflexivity.
      destruct (slices_at_first_space k (Py.rstrip_newline x)
                  (Hkeys (k, x) (or_introl eq_refl))) as [Hto Hfrom].
      cbv zeta in Hto, Hfrom. cbv zeta. rewrite Hto, Hfrom.
      apply IH. intros kt Hin. apply Hkeys. right. exact Hin.
  - intro kt. destruct (rstrip_newline_split (snd kt)) as [n Hn].
    rewrite Hn at 2. rewrite split_newlines.
    exact (split_from_space "" (Py.rstrip_newline (snd kt)) "" " " eq_refl).
Qed.

(** X3.  A line that has no space once the line feeds at its end are gone:
    its last character is taken for the text and what stands before it for
    the key; an empty line gives the empty key with the empty text. *)
Theorem read_transcripts_line_without_space (curr_path : string) (t : dict string)
  (w : world FS) (names rest : list string) (first : string) (line : string) :
  listdir (fs w) curr_path = inr names ->
  filter (fun file => Py.endswith file ".txt") names = first :: rest ->
  open_lines (fs w) (Py.path_join curr_path first) = inr [line] ->
  has_char " " (Py.rstrip_newline line) = false ->
  (forall body c, Py.rstrip_newline line = (body ++ String c "")%string ->
     read_transcripts curr_path t w = (inr (dict_set t body (String c "")), w)) /\
  (Py.rstrip_newline line = ""%string ->
     read_transcripts curr_path t w = (inr (dict_set t "" ""), w)).
Proof.
  intros Hl Hf Ho Hns.
  rewrite (read_transcripts_run _ _ _ _ _ _ _ Hl Hf Ho). cbn [map fold_left].
  split.
  - intros body c Hline. rewrite Hline in Hns |- *.
    destruct (slices_without_space body c Hns) as [Hto Hfrom].
    cbv zeta in Hto, Hfrom. cbv zeta. rewrite Hto, Hfrom. reflexivity.
  - intro Hempty. rewrite Hempty. reflexivity.
Qed.

End TranscriptLines.

(** ** More on the decoder *)

(** X4.  When every word of a transcript is in the dictionary, only the
    last phoneme of the last word is dropped: the phonemes of the words
    before it are kept whole, end markers included.  A transcript without
    any word decodes to the empty sequence. *)
Theorem decoder_keeps_inner_markers (s : AudioPrep) (transcriptions : dict string)
  (key text : string) :
  NoDup (dict_keys transcriptions) ->
  dict_get transcriptions key = Some text ->
  (forall ws last,
     Py.split text = (ws ++ [last])%list ->
     forallb (dict_mem (_phon_dict s)) (ws ++ [last]) = true ->
     phonemes_of (_phon_dict s) last <> [] ->
     dict_get (_get_phoneme_transcription s transcriptions) key =
     Some (concat (map (phonemes_of (_phon_dict s)) ws)
           ++ removelast (phonemes_of (_phon_dict s) last))%list) /\
  (Py.split text = [] ->
   dict_get (_get_phoneme_transcription s transcriptions) key = Some []).
Proof.
  intros Hnd Hget. unfold _get_phoneme_transcription.
  rewrite get_phoneme_transcription_fold by exact Hnd. rewrite Hget.
  unfold decode. split.
  - intros ws last Hsplit Hall Hne. rewrite Hsplit, Hall.
    rewrite map_app, concat_app. cbn [map concat]. rewrite app_nil_r.
    rewrite removelast_app by exact Hne. reflexivity.
  - intro Hsplit. rewrite Hsplit. reflexivity.
Qed.

Lemma decode_monotone (d d' : dict (list phoneme)) (text : string) (p : list phoneme) :
  (forall word ph, dict_get d word = Some ph -> dict_get d' word = Some ph) ->
  decode d text = Some p -> decode d' text = Some p.
Proof.
  intros Hext. unfold decode.
  destruct (forallb (dict_mem d) (Py.split text)) eqn:Hall; [|discriminate].
  intro H. injection H as <-.
  assert (Hwords : forall w, In w (Py.split text) ->
            dict_mem d' w = true /\ phonemes_of d' w = phonemes_of d w).
  { intros w Hin. pose proof (proj1 (forallb_forall _ _) Hall w Hin) as Hm.
    unfold dict_mem in Hm. destruct (dict_get d w) as [ph|] eqn:Hw; [|discriminate].
    unfold dict_mem, phonemes_of. rewrite Hw, (Hext w ph Hw). split; reflexivity. }
  assert (Hall' : forallb (dict_mem d') (Py.split text) = true).
  { apply forallb_forall. intros w Hin. apply (Hwords w Hin). }
  rewrite Hall'. do 3 f_equal. apply map_ext_in. intros w Hin. apply (Hwords w Hin).
Qed.

(** X5.  A dictionary that has more words, the words it had keeping their
    phonemes, decodes every utterance that was decoded to the same
    phonemes. *)
Theorem decoder_monotone_in_dictionary (s s' : AudioPrep) (transcriptions : dict string)
  (key : string) (p : list phoneme) :
  NoDup (dict_keys transcriptions) ->
  (forall word ph, dict_get (_phon_dict s) word = Some ph ->
                   dict_get (_phon_dict s') word = Some ph) ->
  dict_get (_get_phoneme_transcription s transcriptions) key = Some p ->
  dict_get (_get_phoneme_transcription s' transcriptions) key = Some p.
Proof.
  intros Hnd Hext. unfold _get_phoneme_transcription.
  rewrite !get_phoneme_transcription_fold by exact Hnd.
  destruct (dict_get transcriptions key) as [text|]; [|discriminate]. cbn [dict_get].
  destruct (decode (_phon_dict s) text) as [q|] eqn:Hq; [|discriminate].
  intro H. injection H as <-. rewrite (decode_monotone _ _ _ _ Hext Hq). reflexivity.
Qed.

(** ** The features of an utterance *)

Section Features.

Context {FS waveform : Type} {P : Platform FS waveform}.

Lemma pair_keys_get (keys : list string) (audios : list matrix)
  (acc scaled_mfcc : dict matrix) :
  NoDup keys ->
  pair_keys keys audios acc = inr scaled_mfcc ->
  forall key,
    dict_get scaled_mfcc key =
    match dict_get (combine keys audios) key with
    | Some a => Some a
    | None => dict_get acc key
    end.
Proof.
  revert audios acc. induction keys as [|k keys IH]; intros audios acc Hnd H key;
    simpl in H.
  - injection H as <-. reflexivity.
  - destruct audios as [|a audios]; [discriminate|].
    inversion Hnd as [|? ? Hnotin Hnd']; subst.
    rewrite (IH audios (dict_set acc k a) Hnd' H key). cbn [combine dict_get].
    destruct (String.eqb_spec k key) as [->|Hne].
    + assert (Hnone : dict_get (combine keys audios) key = None).
      { apply dict_get_none. intro Hin. apply Hnotin.
        clear - Hin. revert audios Hin.
        induction keys as [|k0 keys IH]; intros [|a0 audios] Hin; simpl in *;
          try contradiction.
        destruct Hin as [->|Hin]; [left; reflexivity | right; exact (IH _ Hin)]. }
      rewrite Hnone. apply dict_get_set_same.
    + destruct (dict_get (combine keys audios) key); [reflexivity|].
      apply dict_get_set_other. exact Hne.
Qed.

Lemma pair_keys_returns (keys : list string) (audios : list matrix) (acc : dict matrix) :
  List.length audios = List.length keys ->
  exists scaled_mfcc, pair_keys keys audios acc = inr scaled_mfcc.
Proof.
  revert audios acc. induction keys as [|k keys IH]; intros [|a audios] acc H;
    simpl in *; try discriminate.
  - exists acc. reflexivity.
  - apply IH. lia.
Qed.

Lemma get_mfcc_keys (s : AudioPrep) (audios : dict (waveform * Z))
  (keys : list string) (mfccs : list matrix) :
  _get_mfcc s audios = inr (keys, mfccs) ->
  keys = dict_keys audios /\ List.length mfccs = List.length keys.
Proof.
  revert keys mfccs. induction audios as [|[k v] audios IH]; intros keys mfccs H;
    simpl in H.
  - injection H as <- <-. split; reflexivity.
  - destruct (mfcc (fst v) (snd v)); [discriminate|].
    destruct (_get_mfcc s audios) as [e|[ks ms]]; [discriminate|].
    injection H as <- <-. destruct (IH ks ms eq_refl) as [-> Hlen].
    split; [reflexivity | simpl; rewrite Hlen; reflexivity].
Qed.

Lemma features_chain (s : AudioPrep) (audios : dict (waveform * Z))
  (keys : list string) (mfccs scaled : list matrix) :
  NoDup (dict_keys audios) ->
  _get_mfcc s audios = inr (keys, mfccs) ->
  map_exn (fun m => minmax_scale m (-1, 1)) mfccs = inr scaled ->
  forall key,
    match dict_get audios key with
    | None => dict_get (combine keys scaled) key = None
    | Some v =>
        exists m m',
          mfcc (fst v) (snd v) = inr m /\ minmax_scale m (-1, 1) = inr m' /\
          dict_get (combine keys scaled) key = Some m'
    end.
Proof.
  revert keys mfccs scaled.
  induction audios as [|[k v] audios IH]; intros keys mfccs scaled Hnd Hm Hs key;
    simpl in Hm.
  - injection Hm as <- <-. reflexivity.
  - destruct (mfcc (fst v) (snd v)) as [e|m] eqn:Hv; [discriminate|].
    destruct (_get_mfcc s audios) as [e|[ks ms]] eqn:Hrest; [discriminate|].
    injection Hm as <- <-. simpl in Hs.
    destruct (minmax_scale m (-1, 1)) as [e|m'] eqn:Hm'; [discriminate|].
    destruct (map_exn (fun m0 => minmax_scale m0 (-1, 1)) ms) as [e|scs] eqn:Hscs;
      [discriminate|].
    injection Hs as <-. inversion Hnd as [|? ? Hnotin Hnd']; subst.
    cbn [combine dict_get]. destruct (String.eqb_spec k key) as [->|Hne].
    + exists m, m'. repeat split; assumption.
    + exact (IH ks ms scs Hnd' eq_refl Hscs key).
Qed.

(** X6.  The features of a batch belong to their own audio: once the
    features of a dictionary of audios are extracted, scaling them either
    raises what the scaler raises for one of the matrices, or gives a map
    with exactly the keys of the audios, each key holding the scaled
    features of the audio under that key. *)
Theorem features_belong_to_their_audio (s : AudioPrep) (audios : dict (waveform * Z))
  (keys : list string) (mfccs : list matrix) :
  NoDup (dict_keys audios) ->
  _get_mfcc s audios = inr (keys, mfccs) ->
  match _scale_data s keys mfccs with
  | inl e => exists m, In m mfccs /\ minmax_scale m (-1, 1) = inl e
  | inr scaled_mfcc =>
      forall key,
        match dict_get audios key with
        | None => dict_get scaled_mfcc key = None
        | Some v =>
            exists m m',
              mfcc (fst v) (snd v) = inr m /\ minmax_scale m (-1, 1) = inr m' /\
              dict_get scaled_mfcc key = Some m'
        end
  end.
Proof.
  intros Hnd Hm. destruct (get_mfcc_keys s audios keys mfccs Hm) as [Hkeys Hlen].
  unfold _scale_data.
  destruct (map_exn (fun m => minmax_scale m (-1, 1)) mfccs) as [e|scaled] eqn:Hs.
  - clear - Hs. induction mfccs as [|m ms IH]; simpl in Hs; [discriminate|].
    destruct (minmax_scale m (-1, 1)) as [e'|m'] eqn:Hm'.
    + injection Hs as <-. exists m. split; [left; reflexivity | exact Hm'].
    + destruct (map_exn (fun m0 => minmax_scale m0 (-1, 1)) ms) as [e'|scs];
        [|discriminate].
      injection Hs as <-. destruct (IH eq_refl) as (m0 & Hin & H0).
      exists m0. split; [right; exact Hin | exact H0].
  - assert (Hlen' : List.length scaled = List.length keys).
    { rewrite (map_exn_length _ _ _ Hs). exact Hlen. }
    destruct (pair_keys_returns keys scaled [] Hlen') as [scaled_mfcc Hp].
    rewrite Hp. intro key.
    assert (Hndk : NoDup keys) by (rewrite Hkeys; exact Hnd).
    rewrite (pair_keys_get keys scaled [] scaled_mfcc Hndk Hp key).
    pose proof (features_chain s audios keys mfccs scaled Hnd Hm Hs key) as Hc.
    destruct (dict_get audios key) as [v|].
    + destruct Hc as (m & m' & H1 & H2 & H3). exists m, m'. rewrite H3.
      repeat split; assumption.
    + rewrite Hc. reflexivity.
Qed.

End Features.

(** ** What a call leaves behind *)

Section Aftermath.

Context {FS waveform : Type} {P : Platform FS waveform}.

(** The audios of a chapter are read in the world as it is, or, when a
    conversion is started, in the world of the conversion with another
    file system. *)
Lemma read_audios_world (curr_path format : string) (a : dict (waveform * Z))
  (w : world FS) :
  snd (read_audios curr_path format a w) = w \/
  (self (snd (read_audios curr_path format a w)) = self (converting curr_path format w) /\
   trace (snd (read_audios curr_path format a w)) = (trace w ++ [Convert curr_path])%list).
Proof.
  unfold read_audios. rewrite bind_run, audio_parts_of_run.
  destruct (listdir (fs w) curr_path) as [e|names]; [left; reflexivity|].
  destruct (filter _ names) as [|x parts].
  - right. rewrite bind_run, convert_block_run, bind_run.
    pose proof (convert_files_same_object curr_path (converting curr_path format w))
      as [Hs Ht].
    destruct (convert_files curr_path (converting curr_path format w)) as [[e|u] w1];
      cbn [fst snd] in *; cbv iota beta.
    + cbn [snd]. split; assumption.
    + rewrite audio_parts_of_run.
      destruct (listdir (fs w1) curr_path) as [e|names1]; cbv iota beta.
      * cbn [snd]. split; assumption.
      * rewrite load_audios_same_world. split; assumption.
  - left. rewrite bind_run. cbn [ret]. cbv iota beta. apply load_audios_same_world.
Qed.

Lemma formats_settled_refl (format : string) (w : world FS) : formats_settled format w w.
Proof. split; left; reflexivity. Qed.

Lemma formats_settled_trans (format : string) (a b c : world FS) :
  formats_settled format a b -> formats_settled format b c -> formats_settled format a c.
Proof.
  intros [[Ht1|[Ht1 Ht1']] [Ho1|[Ho1 Ho1']]] [[Ht2|[Ht2 Ht2']] [Ho2|[Ho2 Ho2']]];
    split; try (left; congruence); try (right; split; congruence).
Qed.

Lemma read_audios_formats_settled (format curr_path : string) (a : dict (waveform * Z)) :
  keeps (formats_settled format) (read_audios curr_path format a).
Proof.
  intro w. destruct (read_audios_world curr_path format a w) as [Hw|[Hs _]].
  - rewrite Hw. apply formats_settled_refl.
  - unfold formats_settled. rewrite Hs. cbn [converting self _target_format
      _origin_format set_target_format set_origin_format].
    split.
    + destruct (_target_format (self w)) as [t|]; [left | right; split]; reflexivity.
    + destruct (_origin_format (self w)) as [o|]; [left | right; split]; reflexivity.
Qed.

(** X7.  A call of [get_data] never changes a format that is set.  A
    target format that is not set stays so or becomes the format of the
    call; an origin format that is not set stays so or becomes [flac]. *)
Theorem get_data_keeps_set_formats (format : string) (w : world FS) :
  let w' := snd (get_data format w) in
  formats_settled format w w' /\
  (forall t, _target_format (self w) = Some t -> _target_format (self w') = Some t) /\
  (forall o, _origin_format (self w) = Some o -> _origin_format (self w') = Some o).
Proof.
  cbv zeta.
  assert (H : formats_settled format w (snd (get_data format w))).
  { rewrite get_data_run.
    pose proof (serve_frame (formats_settled format) format
                  (formats_settled_refl format) (formats_settled_trans format)
                  (read_audios_formats_settled format) (advanced w)) as Hs.
    destruct (serve format (advanced w)) as [[e|r] w2]; cbn [snd] in *.
    - exact Hs.
    - destruct (_index (self w2) >=? _batch_count (self w2) - 1); exact Hs. }
  split; [exact H|]. destruct H as [[Ht|[Ht _]] [Ho|[Ho _]]]; split; intros x Hx;
    congruence.
Qed.

Lemma written_only_converting_refl (w : world FS) : written_only_converting w w.
Proof.
  split; [exists []; rewrite app_nil_r; reflexivity|]. intros _. repeat split.
Qed.

Lemma written_only_converting_trans (a b c : world FS) :
  written_only_converting a b -> written_only_converting b c ->
  written_only_converting a c.
Proof.
  intros [[l1 H1] K1] [[l2 H2] K2]. split.
  - exists (l1 ++ l2)%list. rewrite H2, H1, app_assoc. reflexivity.
  - intro Hac. rewrite H2, H1, <- app_assoc in Hac.
    rewrite <- (app_nil_r (trace a)) in Hac at 2.
    apply app_inv_head in Hac. apply app_eq_nil in Hac as [-> ->].
    rewrite app_nil_r in H1, H2. rewrite H1 in H2.
    destruct (K1 H1) as (F1 & O1 & T1).
    assert (Hbc : trace c = trace b) by congruence.
    destruct (K2 Hbc) as (F2 & O2 & T2).
    repeat split; congruence.
Qed.

Lemma read_audios_written_only_converting (format curr_path : string)
  (a : dict (waveform * Z)) :
  keeps written_only_converting (read_audios curr_path format a).
Proof.
  intro w. destruct (read_audios_world curr_path format a w) as [Hw|[_ Ht]].
  - rewrite Hw. apply written_only_converting_refl.
  - split; [exists [Convert curr_path]; exact Ht|].
    intro Hsame. rewrite Ht in Hsame.
    rewrite <- (app_nil_r (trace w)) in Hsame at 2.
    apply app_inv_head in Hsame. discriminate Hsame.
Qed.

(** X8.  A call of [get_data] only adds to the trace of conversions, and a
    call that starts no conversion leaves the file system and the formats
    as they were: [get_data] writes nothing but through a conversion. *)
Theorem get_data_writes_only_by_converting (format : string) (w : world FS) :
  let w' := snd (get_data format w) in
  (exists l, trace w' = (trace w ++ l)%list) /\
  (trace w' = trace w ->
   fs w' = fs w /\
   _origin_format (self w') = _origin_format (self w) /\
   _target_format (self w') = _target_format (self w)).
Proof.
  cbv zeta. rewrite get_data_run.
  pose proof (serve_frame written_only_converting format
                written_only_converting_refl written_only_converting_trans
                (read_audios_written_only_converting format) (advanced w)) as Hs.
  destruct (serve format (advanced w)) as [[e|r] w2]; cbn [snd] in *.
  - exact Hs.
  - destruct (_index (self w2) >=? _batch_count (self w2) - 1); exact Hs.
Qed.

(** X9.  Setting the formats ahead with [convert_audios] to what a call
    would fill in by itself changes nothing: the call that follows gives
    the same outcome and leaves the same file system as the call on the
    object as it was.  So it is for [convert_audios()] followed by
    [get_data("wav")] on an object whose formats are not set. *)
Theorem convert_audios_defaults_are_lazy_defaults (format : string)
  (origin_format target_format : option string) (w : world FS) :
  or_else origin_format AUDIO_ORIGIN_FORMAT =
    or_else (_origin_format (self w)) AUDIO_ORIGIN_FORMAT ->
  or_else target_format AUDIO_TARGET_FORMAT =
    or_else (_target_format (self w)) format ->
  let w1 := snd (convert_audios origin_format target_format w) in
  fst (convert_audios origin_format target_format w) = inr tt /\
  fst (get_data format w1) = fst (get_data format w) /\
  fs (snd (get_data format w1)) = fs (snd (get_data format w)).
Proof.
  intros Ho Ht w1. split; [reflexivity|].
  assert (Halike : alike format w1 w).
  { unfold w1, convert_audios. rewrite bind_run. cbn. unfold alike. cbn.
    rewrite Ho, Ht. repeat split; reflexivity. }
  destruct (get_data_alike format w1 w Halike) as [Hr Hw].
  split; [exact Hr | apply Hw].
Qed.

Lemma next_index_lower (N i : Z) : -1 <= i -> -1 <= next_index N i.
Proof. intro H. unfold next_index. destruct (i + 1 >=? N - 1); lia. Qed.

(** X10.  The index never goes below [-1], whatever the calls return or
    raise: the author of a call is looked up at a position that is not
    negative, never from the end of the author list. *)
Theorem index_never_below_start (format : string) (n : nat) (w : world FS) :
  -1 <= _index (self w) ->
  -1 <= _index (self (snd (get_data_times format n w))) /\
  0 <= _index (self (advanced (snd (get_data_times format n w)))).
Proof.
  revert w. induction n as [|n IH]; intros w H.
  - cbn [get_data_times snd advanced self _index set_index]. lia.
  - cbn [get_data_times].
    pose proof (get_data_step format w) as (_ & _ & Hidx). cbv zeta in Hidx.
    destruct (get_data format w) as [r w1]. cbn [fst snd] in Hidx.
    specialize (IH w1).
    destruct (get_data_times format n w1) as [rs w2]. cbn [snd] in *.
    apply IH. rewrite Hidx. destruct (returned r); [apply next_index_lower|]; lia.
Qed.

(** X11.  An author folder without chapter folders gives the empty batch:
    the call returns, starts no conversion and leaves the file system as
    it was. *)
Theorem author_without_chapters_gives_empty_batch (format author : string)
  (w : world FS) :
  Py.list_get (_author_indexes (self w)) (_index (self w) + 1) = Some author ->
  dict_get (_files (self w)) author = Some [] ->
  fst (get_data format w) = inr [] /\
  fs (snd (get_data format w)) = fs w /\
  trace (snd (get_data format w)) = trace w.
Proof.
  intros Ha Hc. rewrite get_data_run, serve_run.
  cbn [advanced self _author_indexes _index set_index]. rewrite Ha.
  rewrite serve_author_run. cbn [advanced self _files _path set_index]. rewrite Hc.
  cbn [foldM ret fst snd]. unfold pair_up. cbn.
  destruct (_ >=? _); repeat split; reflexivity.
Qed.

(** X12.  Once the index has reached the end of the author list (a call has
    raised for the last author, or the corpus has no author), the object
    serves nothing any more: every further call raises [IndexError], moves
    the index one further and touches nothing else. *)
Theorem calls_beyond_authors_all_raise (format : string) (n : nat) (w : world FS) :
  Z.of_nat (List.length (_author_indexes (self w))) <= _index (self w) + 1 ->
  let out := get_data_times format n w in
  fst out = repeat (inl IndexError) n /\
  _index (self (snd out)) = _index (self w) + Z.of_nat n /\
  corpus_of (self (snd out)) = corpus_of (self w) /\
  fs (snd out) = fs w /\ trace (snd out) = trace w.
Proof.
  revert w. induction n as [|n IH]; intros w H.
  - cbn. repeat split; lia.
  - cbn [get_data_times]. rewrite (get_data_beyond_authors format w H).
    specialize (IH (advanced w)).
    cbn [advanced self _author_indexes _index set_index fs trace] in IH.
    destruct (get_data_times format n (advanced w)) as [rs w2]. cbn [fst snd] in *.
    destruct IH as (Hr & Hi & Hc & Hf & Ht); [lia|].
    rewrite Hr, Hi, Hc, Hf, Ht. cbn [repeat]. repeat split. lia.
Qed.

End Aftermath.

(** ** Where a conversion writes *)


Lemma split_dot_head_undotted (p x : string) :
  has_char "." p = false ->
  Py.split_dot_head (p ++ x) = (p ++ Py.split_dot_head x)%string.
Proof.
  induction p as [|a p IH]; simpl; intro H; [reflexivity|].
  apply orb_false_iff in H as [Ha Hp]. rewrite Ha, (IH Hp). reflexivity.
Qed.

Lemma split_dot_head_has_no_dot (a : string) : has_char "." (Py.split_dot_head a) = false.
Proof.
  induction a as [|c a IH]; simpl; [reflexivity|].
  destruct (Ascii.eqb c ".") eqn:E; [reflexivity|]. simpl. rewrite E, IH. reflexivity.
Qed.

(** Whether a string starts with a slash depends on its first character
    alone. *)
Lemma startswith_slash_head (c : ascii) (r r' : string) :
  Py.startswith (String c r) "/" = Py.startswith (String c r') "/".
Proof.
  unfold Py.startswith. cbn [String.prefix].
  destruct (ascii_dec "/" c); [|reflexivity]. destruct r, r'; reflexivity.
Qed.

Lemma split_dot_head_relative (a : string) :
  Py.startswith a "/" = false -> Py.startswith (Py.split_dot_head a) "/" = false.
Proof.
  destruct a as [|c a]; [reflexivity|]. cbn [Py.split_dot_head].
  destruct (Ascii.eqb c "."); [reflexivity|].
  rewrite (startswith_slash_head c (Py.split_dot_head a) a). exact (fun H => H).
Qed.

Lemma path_join_relative (path a : string) :
  Py.startswith a "/" = false ->
  Py.path_join path a = (path ++ separator path ++ a)%string.
Proof.
  intro H. unfold Py.path_join, separator. rewrite H.
  destruct (String.eqb path "" || Py.endswith path "/"); reflexivity.
Qed.







Lemma append_relative (s x : string) :
  Py.startswith s "/" = false -> s <> ""%string -> Py.startswith (s ++ x) "/" = false.
Proof.
  destruct s as [|c s]; [contradiction|]. intros H _.
  change (String c s ++ x)%string with (String c (s ++ x)).
  rewrite (startswith_slash_head c (s ++ x) s). exact H.
Qed.

Section ExportTargets.

Context {FS waveform : Type} {P : Platform FS waveform}.

Lemma export_each_ext (path origin target : string) (dst dst' : string -> string)
  (parts : list string) (f : FS) :
  (forall a, In a parts -> dst a = dst' a) ->
  export_each path origin target dst parts f = export_each path origin target dst' parts f.
Proof.
  revert f. induction parts as [|a rest IH]; intros f H; simpl; [reflexivity|].
  rewrite (H a (or_introl eq_refl)).
  destruct (export_audio (Py.path_join path a) origin (dst' a) target f) as [[e|u] f'];
    [reflexivity|].
  apply IH. intros b Hb. apply H. right. exact Hb.
Qed.

(** The loop of the conversion, on an object whose formats are set. *)
Lemma export_loop_run (path o t : string) (parts : list string) (w : world FS) :
  _origin_format (self w) = Some o ->
  _target_format (self w) = Some t ->
  forM (fun audio_part =>
          s <- get_self ;;
          origin <- lift (expect_str (_origin_format s)) ;;
          target <- lift (expect_str (_target_format s)) ;;
          let src := Py.path_join path audio_part in
          update (export_audio src origin
                    (Py.split_dot_head src ++ "." ++ target) target)) parts w =
  (let '(r, f') :=
     export_each path o t
       (fun a => (Py.split_dot_head (Py.path_join path a) ++ "." ++ t)%string)
       parts (fs w) in
   (r, mkWorld (self w) f' (trace w))).
Proof.
  revert w. induction parts as [|a rest IH]; intros w Ho Ht.
  - rewrite forM_nil. destruct w. reflexivity.
  - rewrite forM_cons. rewrite bind_run. cbn [get_self]. rewrite bind_run, Ho.
    cbn [expect_str lift]. rewrite bind_run, Ht. cbn [expect_str lift].
    unfold update. cbn [export_each].
    destruct (export_audio (Py.path_join path a) o
                (Py.split_dot_head (Py.path_join path a) ++ "." ++ t) t (fs w))
      as [[e|u] f']; [reflexivity|].
    cbv iota beta.
    exact (IH (mkWorld (self w) f' (trace w)) Ho Ht).
Qed.

Lemma convert_files_run (path o t : string) (names : list string) (w : world FS) :
  _origin_format (self w) = Some o ->
  _target_format (self w) = Some t ->
  listdir (fs w) path = inr names ->
  convert_files path w =
  (let '(r, f') :=
     export_each path o t
       (fun a => (Py.split_dot_head (Py.path_join path a) ++ "." ++ t)%string)
       (filter (fun d => Py.endswith d ("." ++ o)) names) (fs w) in
   (r, mkWorld (self w) f' (trace w))).
Proof.
  intros Ho Ht Hl. unfold convert_files. rewrite bind_run. cbn [get_self].
  rewrite bind_run. cbn [read]. rewrite Hl. rewrite bind_run, Ho. cbn [expect_str lift].
  apply export_loop_run; assumption.
Qed.

(** X13.  In a directory whose path has no dot, the conversion writes each
    file in the origin format into the directory itself, under the part of
    its name before the first dot and the target format; the file it
    writes is keyed, when it is read, as the file it comes from. *)
Theorem conversion_writes_beside_the_original (path o t : string)
  (names : list string) (w : world FS) :
  _origin_format (self w) = Some o ->
  _target_format (self w) = Some t ->
  listdir (fs w) path = inr names ->
  has_char "." path = false ->
  (forall a, In a names -> Py.startswith a "/" = false) ->
  convert_files path w =
    (let '(r, f') :=
       export_each path o t
         (fun a => Py.path_join path (Py.split_dot_head a ++ "." ++ t))
         (filter (fun d => Py.endswith d ("." ++ o)) names) (fs w) in
     (r, mkWorld (self w) f' (trace w))) /\
  forall a, Py.split_dot_head (Py.split_dot_head a ++ "." ++ t) = Py.split_dot_head a.
Proof.
  intros Ho Ht Hl Hdot Hrel. split.
  - rewrite (convert_files_run path o t names w Ho Ht Hl).
    rewrite (export_each_ext path o t _
               (fun a => Py.path_join path (Py.split_dot_head a ++ "." ++ t))); [reflexivity|].
    intros a Ha. apply filter_In in Ha as [Ha _].
    rewrite (path_join_relative path a (Hrel a Ha)).
    rewrite path_join_relative.
    + rewrite split_dot_head_undotted by exact Hdot.
      assert (Hsep : has_char "." (separator path) = false).
      { unfold separator. destruct (_ || _); reflexivity. }
      rewrite split_dot_head_undotted by exact Hsep.
      rewrite !append_assoc. reflexivity.
    + pose proof (split_dot_head_relative a (Hrel a Ha)) as Hstem.
      destruct (Py.split_dot_head a) as [|c stem] eqn:E; [reflexivity|].
      apply append_relative; [exact Hstem | discriminate].
  - intro a. rewrite split_dot_head_undotted by apply split_dot_head_has_no_dot.
    simpl. apply append_empty_r.
Qed.


End ExportTargets.

Section ConversionFormats.

Context {FS waveform : Type} {P : Platform FS waveform}.

(** X15.  The conversion [get_data] starts for a directory without audio in
    the format of the call exports the files of the object's origin format
    ([flac] when none is set) to the object's target format, and to the
    format of the call only when no target is set: after
    [convert_audios(target_format = t)] a call for another format still
    converts to [t].  Both formats are set afterwards, and the file system
    is the one the exports leave. *)
Theorem conversion_uses_the_formats_of_the_object (curr_path format : string)
  (a : dict (waveform * Z)) (names : list string) (w : world FS) :
  listdir (fs w) curr_path = inr names ->
  filter (fun d => Py.endswith d ("." ++ format)) names = [] ->
  let o := or_else (_origin_format (self w)) AUDIO_ORIGIN_FORMAT in
  let t := or_else (_target_format (self w)) format in
  let w' := snd (read_audios curr_path format a w) in
  fs w' =
    snd (export_each curr_path o t
           (fun part => (Py.split_dot_head (Py.path_join curr_path part) ++ "." ++ t)%string)
           (filter (fun d => Py.endswith d ("." ++ o)) names) (fs w)) /\
  _origin_format (self w') = Some o /\
  _target_format (self w') = Some t.
Proof.
  intros Hl Hnone o t w'. subst w'. unfold read_audios.
  rewrite bind_run, audio_parts_of_run, Hl, Hnone.
  rewrite bind_run, convert_block_run, bind_run.
  rewrite (convert_files_run curr_path o t names (converting curr_path format w)
             eq_refl eq_refl Hl).
  cbn [converting fs self trace].
  destruct (export_each curr_path o t _ _ (fs w)) as [[e|u] f']; cbv iota beta.
  - cbn. repeat split.
  - rewrite audio_parts_of_run. cbn [fs].
    destruct (listdir f' curr_path) as [e|names1]; cbv iota beta.
    + cbn. repeat split.
    + rewrite load_audios_same_world. cbn. repeat split.
Qed.

End ConversionFormats.

(** ** The further properties on the corpora *)

Lemma init_builds_corpus_index_witness :
  __init__ (P := Demo.platform) "corpus" None None None None None None None None None
    Demo.corpus3 =
  inr (mkWorld
         (mkAudioPrep "corpus" PRE_EMPHASIS FRAME_SIZE FRAME_STRIDE nfft NFILT NUM_CEPS
            CEP_LIFTER None None None None Demo.demo_dict
            [("84", ["121123"]); ("174", ["50561"]); ("251", ["118436"])]
            (-1) ["84"; "174"; "251"] 3)
         Demo.corpus3 []).
Proof.
  assert (Hnd : NoDup ["84"; "174"; "251"]).
  { repeat constructor; simpl; intuition discriminate. }
  exact (init_builds_corpus_index (P := Demo.platform) "corpus"
           None None None None None None None None None Demo.corpus3
           Demo.demo_dict ["84"; "174"; "251"] eq_refl eq_refl Hnd).
Defined.

Lemma read_transcripts_keys_and_texts_witness :
  read_transcripts "corpus/174/50561" [] Demo.on_corpus3 =
    (inr [("174-50561-0000", " a dog"); ("174-50561-0001", " the cat")], Demo.on_corpus3).
Proof.
  assert (Hkeys : forall kt : string * string,
            In kt [("174-50561-0000", "a dog" ++ String "010" "");
                   ("174-50561-0001", "the cat" ++ String "010" "")] ->
            has_char " " (fst kt) = false).
  { intros kt [<-|[<-|[]]]; reflexivity. }
  exact (proj1 (read_transcripts_keys_and_texts (P := Demo.platform)
           "corpus/174/50561" [] Demo.on_corpus3
           ["174-50561.trans.txt"; "174-50561-0000.wav"; "174-50561-0001.wav"] []
           "174-50561.trans.txt"
           [("174-50561-0000", "a dog" ++ String "010" "");
            ("174-50561-0001", "the cat" ++ String "010" "")]
           eq_refl eq_refl eq_refl Hkeys)).
Defined.

Lemma read_transcripts_line_without_space_witness :
  read_transcripts "corpus/84/121123" [] on_bare_line =
    (inr [("utt", "1")], on_bare_line).
Proof.
  exact (proj1 (read_transcripts_line_without_space (P := Demo.platform)
           "corpus/84/121123" [] on_bare_line ["84-121123.trans.txt"] []
           "84-121123.trans.txt" ("utt1" ++ String "010" "")
           eq_refl eq_refl eq_refl eq_refl) "utt" "1"%char eq_refl).
Defined.

Lemma decoder_keeps_inner_markers_witness :
  dict_get (_get_phoneme_transcription (self Demo.on_empty) [("u0", " a dog")]) "u0" =
    Some ["AH"; "sil"; "D"; "AO"; "G"].
Proof.
  assert (Hnd : NoDup (dict_keys [("u0", " a dog")])).
  { repeat constructor. intros []. }
  exact (proj1 (decoder_keeps_inner_markers (self Demo.on_empty) [("u0", " a dog")]
                  "u0" " a dog" Hnd eq_refl)
           ["a"] "dog" eq_refl eq_refl ltac:(discriminate)).
Defined.

Lemma decoder_monotone_in_dictionary_witness :
  dict_get (_get_phoneme_transcription (self Demo.on_empty) [("u0", " cat")]) "u0" =
    Some ["K"; "AE"; "T"].
Proof.
  assert (Hnd : NoDup (dict_keys [("u0", " cat")])).
  { repeat constructor. intros []. }
  assert (Hext : forall word ph,
            dict_get (_phon_dict cat_only) word = Some ph ->
            dict_get (_phon_dict (self Demo.on_empty)) word = Some ph).
  { intros word ph. cbn [cat_only _phon_dict dict_get].
    destruct (String.eqb_spec "cat" word) as [<-|_]; intro H; [exact H | discriminate H]. }
  exact (decoder_monotone_in_dictionary cat_only (self Demo.on_empty) [("u0", " cat")]
           "u0" ["K"; "AE"; "T"] Hnd Hext eq_refl).
Defined.

Lemma features_belong_to_their_audio_witness :
  let audios : dict (Demo.waveform * Z) := [("u0", ([3], 16000)); ("u1", ([1; 2], 8000))] in
  let mfccs := map (fun v : Demo.waveform * Z =>
                 map (fun x => map (fun k => F64.of_int (x * Z.of_nat k)) (seq 1 13)) (fst v))
                 (map snd audios) in
  NoDup (dict_keys audios) /\
  match _scale_data (P := Demo.platform) (self Demo.on_empty) ["u0"; "u1"] mfccs with
  | inl e => exists m, In m mfccs /\ Sklearn.minmax_scale m (-1, 1) = inl e
  | inr scaled_mfcc =>
      forall key,
        match dict_get audios key with
        | None => dict_get scaled_mfcc key = None
        | Some v =>
            exists m m',
              Demo.demo_mfcc (fst v) (snd v) = inr m /\
              Sklearn.minmax_scale m (-1, 1) = inr m' /\
              dict_get scaled_mfcc key = Some m'
        end
  end.
Proof.
  intros audios mfccs.
  assert (Hnd : NoDup (dict_keys audios)).
  { repeat constructor; simpl; intuition discriminate. }
  split; [exact Hnd|].
  exact (features_belong_to_their_audio (P := Demo.platform) (self Demo.on_empty)
           audios ["u0"; "u1"] mfccs Hnd eq_refl).
Defined.

Lemma get_data_keeps_set_formats_witness :
  _target_format (self (snd (get_data "mp3" (with_formats "flac" "wav" Demo.on_corpus3)))) =
    Some "wav".
Proof.
  exact (proj1 (proj2 (get_data_keeps_set_formats (P := Demo.platform) "mp3"
                         (with_formats "flac" "wav" Demo.on_corpus3)))
           "wav" eq_refl).
Defined.

Lemma convert_audios_defaults_are_lazy_defaults_witness :
  fst (get_data "wav" (snd (convert_audios None None Demo.on_corpus3))) =
    fst (get_data "wav" Demo.on_corpus3).
Proof.
  exact (proj1 (proj2 (convert_audios_defaults_are_lazy_defaults (P := Demo.platform)
                         "wav" None None Demo.on_corpus3 eq_refl eq_refl))).
Defined.

Lemma get_data_writes_only_by_converting_witness :
  fs (snd (get_data "wav" Demo.on_corpus3_wav)) = fs Demo.on_corpus3_wav.
Proof.
  assert (Htrace : trace (snd (get_data "wav" Demo.on_corpus3_wav)) =
                   trace Demo.on_corpus3_wav) by (vm_compute; reflexivity).
  exact (proj1 (proj2 (get_data_writes_only_by_converting (P := Demo.platform)
                         "wav" Demo.on_corpus3_wav) Htrace)).
Defined.

Lemma index_never_below_start_witness :
  -1 <= _index (self (snd (get_data_times "wav" 5 Demo.on_corpus3))).
Proof.
  assert (Hstart : -1 <= _index (self Demo.on_corpus3)) by (vm_compute; discriminate).
  exact (proj1 (index_never_below_start (P := Demo.platform) "wav" 5 Demo.on_corpus3
                  Hstart)).
Defined.

Lemma author_without_chapters_gives_empty_batch_witness :
  fst (get_data "wav" on_no_chapter) = inr [].
Proof.
  exact (proj1 (author_without_chapters_gives_empty_batch (P := Demo.platform)
                  "wav" "84" on_no_chapter eq_refl eq_refl)).
Defined.

Lemma calls_beyond_authors_all_raise_witness :
  fst (get_data_times "wav" 3 Demo.on_empty) =
    [inl IndexError; inl IndexError; inl IndexError].
Proof.
  assert (Hend : Z.of_nat (List.length (_author_indexes (self Demo.on_empty))) <=
                 _index (self Demo.on_empty) + 1) by (vm_compute; discriminate).
  exact (proj1 (calls_beyond_authors_all_raise (P := Demo.platform) "wav" 3
                  Demo.on_empty Hend)).
Defined.

Lemma conversion_writes_beside_the_original_witness :
  convert_files "corpus/84/121123" (with_formats "flac" "wav" Demo.on_corpus3) =
    (let '(r, f') :=
       export_each "corpus/84/121123" "flac" "wav"
         (fun a => Py.path_join "corpus/84/121123" (Py.split_dot_head a ++ "." ++ "wav"))
         ["84-121123-0000.flac"] Demo.corpus3 in
     (r, mkWorld (self (with_formats "flac" "wav" Demo.on_corpus3)) f' [])).
Proof.
  assert (Hnames : forall a,
            In a ["84-121123.trans.txt"; "84-121123-0000.flac"] ->
            Py.startswith a "/" = false).
  { intros a [<-|[<-|[]]]; reflexivity. }
  exact (proj1 (conversion_writes_beside_the_original (P := Demo.platform)
                  "corpus/84/121123" "flac" "wav"
                  ["84-121123.trans.txt"; "84-121123-0000.flac"]
                  (with_formats "flac" "wav" Demo.on_corpus3)
                  eq_refl eq_refl eq_refl eq_refl Hnames)).
Defined.


Lemma conversion_uses_the_formats_of_the_object_witness :
  _target_format
    (self (snd (read_audios "corpus/84/121123" "mp3" []
                  (with_formats "flac" "wav" Demo.on_corpus3)))) = Some "wav".
Proof.
  exact (proj2 (proj2 (conversion_uses_the_formats_of_the_object (P := Demo.platform)
                         "corpus/84/121123" "mp3" []
                         ["84-121123.trans.txt"; "84-121123-0000.flac"]
                         (with_formats "flac" "wav" Demo.on_corpus3)
                         eq_refl eq_refl))).
Defined.
